(** * calibre_to_abs_bridge: a shallow embedding of [BookFS]

    The Python module [calibre_to_abs_bridge.py] exposes a read-only
    virtual tree ([Author/Series/Book N] or [Author/Title]) over a
    Calibre library.  This file embeds the module function by function:

    - Python [str] values are sequences of Unicode code points
      ([list N]); the string methods and the [os.path] functions the
      module calls are written out from their CPython definitions;
    - the part of the Unicode character database the module depends on
      ([str.isalnum] and the decimal digits beyond ASCII) is a record
      [UnicodeDB], so that every statement holds for any database;
    - the operating system (directory trees, descriptor parsing, file
      sizes and contents, the offsets a file system accepts, the
      buffers that can be allocated) is a record [OS];
    - methods of [BookFS] run in the monad [Method]: the object state,
      the log records written and an exception or a result. *)

From Stdlib Require Import ZArith NArith Ascii String List Lia ZifyBool DecimalString DecimalZ.
From stdpp Require Import gmap list.

Open Scope N_scope.

#[local] Set Warnings "-register-all".

(** ** Python strings *)

Abbreviation str := (list N).

(** [py "abc"] is the Python literal ['abc'] (ASCII literals only). *)
Definition py (s : string) : str :=
  map N_of_ascii (list_ascii_of_string s).

Definition str_eqb (a b : str) : bool := bool_decide (a = b).

Definition SEP : N := 47.        (* '/' *)
Definition SPACE : N := 32.      (* ' ' *)
Definition UNDERSCORE : N := 95. (* '_' *)

Definition is_sep (c : N) : bool := c =? SEP.
Arguments is_sep : simpl never.

(** [str.isspace] on one code point: the characters CPython's
    [_PyUnicode_IsWhitespace] accepts. *)
Definition isspace (c : N) : bool :=
  ((9 <=? c) && (c <=? 13)) || ((28 <=? c) && (c <=? 32)) ||
  (c =? 133) || (c =? 160) || (c =? 5760) ||
  ((8192 <=? c) && (c <=? 8202)) || (c =? 8232) || (c =? 8233) ||
  (c =? 8239) || (c =? 8287) || (c =? 12288).
Arguments isspace : simpl never.

(** The character database beyond ASCII. *)
Record UnicodeDB := {
  uni_isalnum : N -> bool;        (* str.isalnum of a code point >= 128 *)
  uni_decimal : N -> option N     (* Py_UNICODE_TODECIMAL of a code point >= 127 *)
}.

Definition ascii_isalnum (c : N) : bool :=
  ((48 <=? c) && (c <=? 57)) || ((65 <=? c) && (c <=? 90)) ||
  ((97 <=? c) && (c <=? 122)).

Definition isalnum (db : UnicodeDB) (c : N) : bool :=
  if c <? 128 then ascii_isalnum c else uni_isalnum db c.

(** The Latin-1 block of the database (code points 128..255), and no
    character beyond it: enough to run the module on Latin-1 text. *)
Definition latin1_isalnum (c : N) : bool :=
  (c =? 170) || (c =? 178) || (c =? 179) || (c =? 181) || (c =? 185) ||
  (c =? 186) || ((188 <=? c) && (c <=? 190)) ||
  ((192 <=? c) && (c <=? 214)) || ((216 <=? c) && (c <=? 246)) ||
  ((248 <=? c) && (c <=? 255)).

Definition latin1_db : UnicodeDB :=
  {| uni_isalnum := latin1_isalnum; uni_decimal := fun _ => None |}.

(** *** Splitting, joining and stripping *)

(** Pieces of [s] between the characters satisfying [p]; with
    [p := (=? sep)] this is [s.split(sep)] for a one-character [sep]. *)
Fixpoint split_on (p : N -> bool) (s : str) : list str :=
  match s with
  | [] => [[]]
  | c :: s' =>
      if p c then [] :: split_on p s'
      else match split_on p s' with
           | w :: ws => (c :: w) :: ws
           | [] => [[c]]
           end
  end.

Definition nonempty {A : Type} (w : list A) : bool :=
  match w with [] => false | _ => true end.

(** [s.split()]: the maximal runs of non-whitespace characters. *)
Definition split_ws (s : str) : list str :=
  filter (fun w => nonempty w = true) (split_on isspace s).

(** [sep.join(l)] *)
Fixpoint join_str (sep : str) (l : list str) : str :=
  match l with
  | [] => []
  | [w] => w
  | w :: l' => w ++ sep ++ join_str sep l'
  end.

Fixpoint lstrip (p : N -> bool) (s : str) : str :=
  match s with
  | [] => []
  | c :: s' => if p c then lstrip p s' else s
  end.

Fixpoint rstrip (p : N -> bool) (s : str) : str :=
  match s with
  | [] => []
  | c :: s' =>
      match rstrip p s' with
      | [] => if p c then [] else [c]
      | r => c :: r
      end
  end.

(** [s.strip()] is [strip isspace s]; [s.strip('/')] is [strip is_sep s]. *)
Definition strip (p : N -> bool) (s : str) : str := lstrip p (rstrip p s).

(** ** [BookFS.sanitize_name] *)

Definition safe_chars : str := py "-_.() ".

Definition str_contains (c : N) (s : str) : bool := existsb (N.eqb c) s.

Definition keep_char (db : UnicodeDB) (c : N) : bool :=
  isalnum db c || str_contains c safe_chars.

(** [c if c.isalnum() or c in safe_chars else '_'] *)
Definition replace_unsafe (db : UnicodeDB) (c : N) : N :=
  if keep_char db c then c else UNDERSCORE.

Definition sanitize_name (db : UnicodeDB) (name : str) : str :=
  let sanitized := map (replace_unsafe db) name in
  join_str (py " ") (split_ws (strip isspace sanitized)).

(** ** [os.path] (posixpath) *)

Definition starts_with_sep (s : str) : bool :=
  match s with c :: _ => is_sep c | [] => false end.

Definition ends_with_sep (s : str) : bool :=
  match last s with Some c => is_sep c | None => false end.

(** One round of the loop of [posixpath.join]. *)
Definition join2 (path b : str) : str :=
  if starts_with_sep b then b
  else if negb (nonempty path) || ends_with_sep path then path ++ b
  else path ++ SEP :: b.

(** [os.path.join(a, *p)] *)
Definition path_join (a : str) (p : list str) : str := fold_left join2 p a.

(** [s.rfind(c)]: index of the last occurrence, or -1. *)
Fixpoint rfind (c : N) (s : str) : Z :=
  match s with
  | [] => (-1)%Z
  | x :: s' =>
      let r := rfind c s' in
      if (0 <=? r)%Z then (r + 1)%Z
      else if x =? c then 0%Z else (-1)%Z
  end.

(** [os.path.basename(p)] *)
Definition basename (p : str) : str :=
  let i := (rfind SEP p + 1)%Z in
  drop (Z.to_nat i) p.

(** [os.path.dirname(p)] *)
Definition dirname (p : str) : str :=
  let i := (rfind SEP p + 1)%Z in
  let head := take (Z.to_nat i) p in
  if nonempty head && negb (forallb is_sep head) then rstrip is_sep head
  else head.

Definition DOT : str := py ".".
Definition DOTDOT : str := py "..".

(** The loop of [posixpath.normpath]; [new_comps] is kept reversed, so
    that its head is [new_comps[-1]]. *)
Definition normpath_step (initial_slashes : nat) (new_comps : list str)
    (comp : str) : list str :=
  if str_eqb comp [] || str_eqb comp DOT then new_comps
  else if negb (str_eqb comp DOTDOT)
          || (Nat.eqb initial_slashes 0 && negb (nonempty new_comps))
          || match new_comps with
             | lastc :: _ => str_eqb lastc DOTDOT
             | [] => false
             end
       then comp :: new_comps
       else match new_comps with
            | _ :: rest => rest
            | [] => []
            end.

Definition starts_with (pre s : str) : bool :=
  str_eqb (take (length pre) s) pre.

(** The number of leading slashes [normpath] keeps: POSIX allows one or
    two, and three or more count as one. *)
Definition initial_slashes (path : str) : nat :=
  if starts_with_sep path then
    if starts_with (py "//") path && negb (starts_with (py "///") path)
    then 2%nat else 1%nat
  else 0%nat.

(** [os.path.normpath(path)] *)
Definition normpath (path : str) : str :=
  if str_eqb path [] then DOT
  else
    let initial_slashes := initial_slashes path in
    let comps := split_on is_sep path in
    let new_comps := fold_left (normpath_step initial_slashes) comps [] in
    let path := join_str [SEP] (rev new_comps) in
    let path := replicate initial_slashes SEP ++ path in
    if nonempty path then path else DOT.

(** [os.path.abspath(path)], with [cwd] the result of [os.getcwd()]. *)
Definition abspath (cwd path : str) : str :=
  normpath (if starts_with_sep path then path else path_join cwd [path]).

(** [os.path.commonprefix] on two lists of components. *)
Fixpoint commonprefix (a b : list str) : list str :=
  match a, b with
  | x :: a', y :: b' => if str_eqb x y then x :: commonprefix a' b' else []
  | _, _ => []
  end.

(** [os.path.relpath(path, start)]; [None] is the [ValueError] raised for
    an empty [path]. *)
Definition relpath (cwd path start : str) : option str :=
  if str_eqb path [] then None
  else
    let start_list :=
      List.filter nonempty (split_on is_sep (abspath cwd start)) in
    let path_list :=
      List.filter nonempty (split_on is_sep (abspath cwd path)) in
    let i := length (commonprefix start_list path_list) in
    let rel_list :=
      replicate (length start_list - i) DOTDOT ++ drop i path_list in
    match rel_list with
    | [] => Some DOT
    | a :: p => Some (path_join a p)
    end.

(** ** Exceptions, log records and the method monad *)

Definition ENOENT : Z := 2.
Definition EIO : Z := 5.
Definition EACCES : Z := 13.
Definition EINVAL : Z := 22.

(** [OSError errno msg] stands for [OSError(errno, msg)]; Python builds a
    [FileNotFoundError] when [errno] is [ENOENT] and a [PermissionError]
    when it is [EACCES].  [ValueError] also stands for its subclasses
    ([UnicodeError]), which an [except ValueError] catches like it. *)
Inductive PyExc :=
  | TypeError
  | ValueError
  | OverflowError
  | LookupError
  | MemoryError
  | OSError (errno : Z) (msg : str).

(** The error kinds of the query surface. *)
Inductive ErrorKind := NotFound | AccessDenied | IOError | OtherError.

Definition error_kind (e : PyExc) : ErrorKind :=
  match e with
  | OSError errno _ =>
      if (errno =? ENOENT)%Z then NotFound
      else if (errno =? EACCES)%Z then AccessDenied
      else if (errno =? EIO)%Z then IOError
      else OtherError
  | _ => OtherError
  end.

Inductive LogRecord :=
  | LogWarning (msg : str)
  | LogError (msg : str).

Inductive Result (A : Type) :=
  | Return (a : A)
  | Raise (e : PyExc).
Arguments Return {A} a.
Arguments Raise {A} e.

(** The state of a [BookFS] object. *)
Record BookFS := {
  root_dir : str;
  files : gmap str str;        (* virtual path -> actual path *)
  directories : gset str       (* virtual directories *)
}.

Record World := {
  self : BookFS;
  logged : list LogRecord      (* oldest first *)
}.

Definition Method (A : Type) : Type := World -> Result A * World.

Definition ret {A} (a : A) : Method A := fun w => (Return a, w).

Definition bind {A B} (m : Method A) (k : A -> Method B) : Method B :=
  fun w =>
    match m w with
    | (Return a, w') => k a w'
    | (Raise e, w') => (Raise e, w')
    end.

Definition raise {A} (e : PyExc) : Method A := fun w => (Raise e, w).

#[global] Instance method_ret : MRet Method := @ret.
#[global] Instance method_bind : MBind Method := fun A B k m => bind m k.

Definition get_self : Method BookFS := fun w => (Return (self w), w).

Definition modify_self (f : BookFS -> BookFS) : Method unit :=
  fun w => (Return tt, {| self := f (self w); logged := logged w |}).

Definition logging (r : LogRecord) : Method unit :=
  fun w => (Return tt, {| self := self w; logged := logged w ++ [r] |}).

(** [try: body except (handled): handler] *)
Definition try_except {A} (body : Method A) (handled : PyExc -> bool)
    (handler : PyExc -> Method A) : Method A :=
  fun w =>
    match body w with
    | (Return a, w') => (Return a, w')
    | (Raise e, w') => if handled e then handler e w' else (Raise e, w')
    end.

(** [for x in l: body(x)] *)
Fixpoint for_each {A} (l : list A) (body : A -> Method unit) : Method unit :=
  match l with
  | [] => ret tt
  | x :: l' => body x ;; for_each l' body
  end.

(** [self.directories.add(d)] and [self.files[k] = v] *)
Definition add_directory (d : str) (fs : BookFS) : BookFS :=
  {| root_dir := root_dir fs; files := files fs;
     directories := {[ d ]} ∪ directories fs |}.

Definition set_file (k v : str) (fs : BookFS) : BookFS :=
  {| root_dir := root_dir fs; files := <[ k := v ]> (files fs);
     directories := directories fs |}.

(** ** Descriptors: the element trees of [xml.etree.ElementTree] *)

Inductive Element :=
  Elem (tag : str) (attrib : list (str * str)) (text : option str)
       (children : list Element).

Definition elem_tag (e : Element) : str :=
  match e with Elem t _ _ _ => t end.
Definition elem_attrib (e : Element) : list (str * str) :=
  match e with Elem _ a _ _ => a end.
Definition elem_text (e : Element) : option str :=
  match e with Elem _ _ t _ => t end.

(** [dict.get(key)] on an attribute dictionary. *)
Fixpoint attr_get (key : str) (a : list (str * str)) : option str :=
  match a with
  | [] => None
  | (k, v) :: a' => if str_eqb k key then Some v else attr_get key a'
  end.

(** The elements below [e] in document order ([e] itself excluded), as
    the path [.//] enumerates them. *)
Fixpoint descendants (e : Element) : list Element :=
  match e with
  | Elem _ _ _ ch =>
      (fix go (l : list Element) : list Element :=
         match l with
         | [] => []
         | c :: l' => c :: descendants c ++ go l'
         end) ch
  end.

Definition DC_NS : str := py "http://purl.org/dc/elements/1.1/".
Definition OPF_NS : str := py "http://www.idpf.org/2007/opf".

(** The tag [prefix:local] after namespace expansion: [{uri}local]. *)
Definition qname (uri local : str) : str := py "{" ++ uri ++ py "}" ++ local.

(** [root.find('.//ns:local', ns)] *)
Definition find_tag (root : Element) (uri local : str) : option Element :=
  List.find (fun e => str_eqb (elem_tag e) (qname uri local))
            (descendants root).

(** [root.find('.//opf:meta[@name="value"]', ns)] *)
Definition find_meta (root : Element) (value : str) : option Element :=
  List.find (fun e => str_eqb (elem_tag e) (qname OPF_NS (py "meta")) &&
                      match attr_get (py "name") (elem_attrib e) with
                      | Some v => str_eqb v value
                      | None => false
                      end)
            (descendants root).

(** What [ET.parse(file_path)] does on a path. *)
Inductive ParseOutcome :=
  | Parsed (root : Element)
  | ParseError (msg : str)              (* ET.ParseError, with its text *)
  | ParseOSError (errno : Z) (msg : str) (* the file cannot be opened or read *)
  | ParseRaises (e : PyExc).            (* another exception: LookupError for
                                           a declared encoding that is not
                                           known, ValueError for one that is
                                           not supported, ... *)

(** ** [float(s)] and [int(x)] *)

(** A double is [+-m * 2^e], an infinity or a NaN. *)
Inductive pyfloat :=
  | Finite (neg : bool) (m : Z) (e : Z)
  | Inf (neg : bool)
  | NaN.

Definition is_digit (c : N) : bool := (48 <=? c) && (c <=? 57).

(** [Py_ISSPACE]: the ASCII whitespace the float parser strips. *)
Definition py_isspace_ascii (c : N) : bool :=
  ((9 <=? c) && (c <=? 13)) || (c =? 32).

(** [_PyUnicode_TransformDecimalAndSpaceToASCII]: an ASCII string is
    taken as it is; otherwise whitespace becomes a space, a decimal digit
    its ASCII digit, and the string is cut after the first character
    that is neither, replaced by ['?']. *)
Fixpoint transform_decimal_and_space (db : UnicodeDB) (s : str) : str :=
  match s with
  | [] => []
  | c :: s' =>
      if c <? 127 then c :: transform_decimal_and_space db s'
      else if isspace c then SPACE :: transform_decimal_and_space db s'
      else match (if c =? 127 then None else uni_decimal db c) with
           | Some d => (48 + d) :: transform_decimal_and_space db s'
           | None => [63]
           end
  end.

Definition to_ascii_number (db : UnicodeDB) (s : str) : str :=
  if forallb (fun c => c <? 128) s then s
  else transform_decimal_and_space db s.

(** [_Py_string_to_number_with_underscores]: an underscore is dropped
    when it stands between two digits and is an error elsewhere. *)
Fixpoint drop_underscores (prev : N) (s : str) : option str :=
  match s with
  | [] => if prev =? UNDERSCORE then None else Some []
  | c :: s' =>
      if c =? UNDERSCORE then
        if is_digit prev then drop_underscores c s' else None
      else if (prev =? UNDERSCORE) && negb (is_digit c) then None
      else option_map (cons c) (drop_underscores c s')
  end.

Definition without_underscores (s : str) : option str :=
  if str_contains UNDERSCORE s then drop_underscores 0 s else Some s.

Fixpoint span_digits (s : str) : str * str :=
  match s with
  | c :: s' =>
      if is_digit c then let '(d, r) := span_digits s' in (c :: d, r)
      else ([], s)
  | [] => ([], [])
  end.

Definition parse_sign (s : str) : bool * str :=
  match s with
  | c :: s' => if c =? 45 then (true, s')
               else if c =? 43 then (false, s') else (false, s)
  | [] => (false, [])
  end.

Definition digits_value (d : str) : Z :=
  fold_left (fun acc c => (10 * acc + Z.of_N (c - 48))%Z) d 0%Z.

Definition lower (c : N) : N :=
  if (65 <=? c) && (c <=? 90) then c + 32 else c.

Definition round_half_even (n d : Z) : Z :=
  let q := (n / d)%Z in
  let r := (n mod d)%Z in
  if (2 * r <? d)%Z then q
  else if (d <? 2 * r)%Z then (q + 1)%Z
  else if Z.even q then q else (q + 1)%Z.

(** The double nearest to [n / d] for [0 < n] and [0 < d], ties to even,
    with gradual underflow and overflow to infinity, as the correctly
    rounded [strtod] of CPython computes it. *)
Definition to_double (neg : bool) (n d : Z) : pyfloat :=
  let k := (Z.log2 n - Z.log2 d)%Z in
  let below :=
    if (0 <=? k)%Z then (n <? d * 2 ^ k)%Z else (n * 2 ^ (- k) <? d)%Z in
  let fl := if below then (k - 1)%Z else k in
  let e := Z.max (fl - 52) (-1074) in
  let m :=
    if (0 <=? e)%Z then round_half_even n (d * 2 ^ e)
    else round_half_even (n * 2 ^ (- e)) d in
  if (0 <=? e)%Z && (2 ^ 1024 <=? m * 2 ^ e)%Z then Inf neg
  else Finite neg m e.

(** The decimal number [digits * 10^exp10] as a double. *)
Definition decimal_to_double (neg : bool) (digits exp10 : Z) : pyfloat :=
  if (digits =? 0)%Z then Finite neg 0 0
  else if (0 <=? exp10)%Z then to_double neg (digits * 10 ^ exp10) 1
  else to_double neg digits (10 ^ (- exp10)).

(** [_Py_parse_inf_or_nan] on the whole of [s]. *)
Definition parse_inf_or_nan (s : str) : option pyfloat :=
  let '(neg, r) := parse_sign s in
  let r := map lower r in
  if str_eqb r (py "inf") || str_eqb r (py "infinity") then Some (Inf neg)
  else if str_eqb r (py "nan") then Some NaN
  else None.

(** [_Py_dg_strtod] on the whole of [s]: sign, digits with an optional
    point, and an exponent that counts only when it has digits. *)
Definition parse_decimal (s : str) : option pyfloat :=
  let '(neg, r1) := parse_sign s in
  let '(ip, r2) := span_digits r1 in
  let '(fp, r3) :=
    match r2 with
    | c :: r => if c =? 46 then span_digits r else ([], r2)
    | [] => ([], [])
    end in
  if negb (nonempty ip) && negb (nonempty fp) then None
  else
    let mant := digits_value (ip ++ fp) in
    let scale := (- Z.of_nat (length fp))%Z in
    match r3 with
    | [] => Some (decimal_to_double neg mant scale)
    | c :: r =>
        if (c =? 101) || (c =? 69) then
          let '(eneg, r4) := parse_sign r in
          let '(ed, r5) := span_digits r4 in
          if nonempty ed && negb (nonempty r5) then
            let ex := digits_value ed in
            Some (decimal_to_double neg mant
                    (scale + (if eneg then - ex else ex))%Z)
          else None
        else None
    end.

(** [float(s)] for a [str]; [None] is [ValueError]. *)
Definition float_of_str (db : UnicodeDB) (s : str) : option pyfloat :=
  match without_underscores (to_ascii_number db s) with
  | None => None
  | Some s1 =>
      let s2 := lstrip py_isspace_ascii s1 in
      match s2 with
      | [] => None
      | c :: rest =>
          (* the trailing strip leaves at least one character *)
          let s3 := match rstrip py_isspace_ascii rest with
                    | [] => [c]
                    | r => c :: r
                    end in
          match parse_decimal s3 with
          | Some f => Some f
          | None => parse_inf_or_nan s3
          end
      end
  end.

(** [float(x)] where [x] is a [str] or [None]. *)
Definition py_float (db : UnicodeDB) (x : option str) : Result pyfloat :=
  match x with
  | None => Raise TypeError
  | Some s =>
      match float_of_str db s with
      | Some f => Return f
      | None => Raise ValueError
      end
  end.

(** [int(x)] for a float [x]: truncation towards zero. *)
Definition py_int (x : pyfloat) : Result Z :=
  match x with
  | Finite neg m e =>
      let t := if (0 <=? e)%Z then (m * 2 ^ e)%Z else (m / 2 ^ (- e))%Z in
      Return (if neg then (- t)%Z else t)
  | Inf _ => Raise OverflowError
  | NaN => Raise ValueError
  end.

(** [str(n)] for an [int]. *)
Definition str_of_int (n : Z) : str := py (NilZero.string_of_int (Z.to_int n)).

(** ** The operating system *)

(** A directory as [os.walk] sees it: the names of its non-directory
    entries, the names of its directory entries that are listed but not
    descended into (symbolic links to directories), and its
    subdirectories. *)
Inductive rtree :=
  RNode (rfiles : list str) (rlinks : list str) (rsubs : list (str * rtree)).

Definition rfiles (t : rtree) : list str :=
  match t with RNode f _ _ => f end.
Definition rlinks (t : rtree) : list str :=
  match t with RNode _ l _ => l end.
Definition rsubs (t : rtree) : list (str * rtree) :=
  match t with RNode _ _ s => s end.

Inductive SysResult (A : Type) :=
  | Ok (a : A)
  | Fails (errno : Z) (msg : str).     (* an OSError *)
Arguments Ok {A} a.
Arguments Fails {A} errno msg.

(** Why a [bytes] object of a given size is not allocated:
    [MemoryError], or [OverflowError] for a size no object can have. *)
Inductive AllocFailure := OutOfMemory | TooLarge.

Record OS := {
  cwd : str;                              (* os.getcwd() *)
  fs_top : str;                           (* a path of the library ... *)
  fs_tree : rtree;                        (* ... and the tree found there *)
  et_parse : str -> ParseOutcome;         (* ET.parse(path) *)
  getsize : str -> SysResult Z;           (* os.path.getsize(path) *)
  open_rb : str -> SysResult (list Init.Byte.byte); (* open(path, 'rb'): the content *)
  lseek_max : str -> Z;                   (* the largest offset the file system
                                             of the file accepts in lseek *)
  bytes_alloc : Z -> option AllocFailure; (* allocating a bytes object of the
                                             size: None when it succeeds *)
  os_open : str -> Z -> SysResult unit    (* os.open(path, flags); os.close,
                                             for flags that fit a C int *)
}.

(** The entries [(dirpath, directory)] of a top-down walk from [top]. *)
Fixpoint walk (top : str) (t : rtree) : list (str * rtree) :=
  (top, t) ::
  match t with
  | RNode _ _ subs =>
      (fix go (l : list (str * rtree)) : list (str * rtree) :=
         match l with
         | [] => []
         | (name, sub) :: l' => walk (path_join top [name]) sub ++ go l'
         end) subs
  end.

(** Path resolution inside the library tree: the components of a path,
    redundant separators and [.] ignored. *)
Definition path_comps (p : str) : list str :=
  List.filter (fun c => nonempty c && negb (str_eqb c DOT))
              (split_on is_sep p).

Fixpoint lookup_sub (name : str) (subs : list (str * rtree)) : option rtree :=
  match subs with
  | [] => None
  | (n, t) :: subs' => if str_eqb n name then Some t else lookup_sub name subs'
  end.

Fixpoint descend (t : rtree) (cs : list str) : option rtree :=
  match cs with
  | [] => Some t
  | c :: cs' =>
      match lookup_sub c (rsubs t) with
      | Some t' => descend t' cs'
      | None => None
      end
  end.

Fixpoint strip_prefix (pre l : list str) : option (list str) :=
  match pre, l with
  | [], _ => Some l
  | x :: pre', y :: l' => if str_eqb x y then strip_prefix pre' l' else None
  | _ :: _, [] => None
  end.

(** The directory a path names, if it names one of the library tree. *)
Definition fs_resolve (os : OS) (p : str) : option rtree :=
  if str_eqb p [] then None
  else if eqb (starts_with_sep p) (starts_with_sep (fs_top os)) then
    match strip_prefix (path_comps (fs_top os)) (path_comps p) with
    | Some rest => descend (fs_tree os) rest
    | None => None
    end
  else None.

(** [os.walk(top)]: the triples [(dirpath, dirnames, filenames)], top
    down; a path that is not a readable directory yields nothing. *)
Definition os_walk (os : OS) (top : str) : list (str * list str * list str) :=
  match fs_resolve os top with
  | Some t =>
      map (fun e => (fst e, map fst (rsubs (snd e)) ++ rlinks (snd e),
                     rfiles (snd e)))
          (walk top t)
  | None => []
  end.

(** ** [BookFS.parse_metadata] *)

Record Metadata := {
  author : str;
  book_title : str;
  series : option str;
  series_index : option str
}.

Definition default_metadata : Metadata :=
  {| author := py "Unknown Author"; book_title := py "Unknown Title";
     series := None; series_index := None |}.

(** [self.sanitize_name(name)] where [name] may be [None]: iterating over
    [None] raises [TypeError]. *)
Definition call_sanitize_name (db : UnicodeDB) (name : option str)
    : Method str :=
  match name with
  | Some s => mret (sanitize_name db s)
  | None => raise TypeError
  end.

(** Truth value of an optional string: [None] and [''] are false. *)
Definition truthy (s : option str) : bool :=
  match s with Some (_ :: _) => true | _ => false end.

(** [elem.text if elem is not None else fallback] *)
Definition text_or (elem : option Element) (fallback : str) : option str :=
  match elem with
  | Some e => elem_text e
  | None => Some fallback
  end.

(** [elem.get('content') if elem is not None else None] *)
Definition content_of (elem : option Element) : option str :=
  match elem with
  | Some e => attr_get (py "content") (elem_attrib e)
  | None => None
  end.

Definition parse_metadata (db : UnicodeDB) (os : OS) (file_path : str)
    : Method Metadata :=
  match et_parse os file_path with
  | Parsed root =>
      let creator_elem := find_tag root DC_NS (py "creator") in
      author ← call_sanitize_name db
                 (text_or creator_elem (py "Unknown Author"));
      let title_elem := find_tag root DC_NS (py "title") in
      book_title ← call_sanitize_name db
                     (text_or title_elem (py "Unknown Title"));
      let series_elem := find_meta root (py "calibre:series") in
      let series := content_of series_elem in
      series ← (if truthy series then
                  s ← call_sanitize_name db series; mret (Some s)
                else mret series);
      let series_index_elem := find_meta root (py "calibre:series_index") in
      let series_index := content_of series_index_elem in
      mret {| author := author; book_title := book_title;
              series := series; series_index := series_index |}
  | ParseError msg =>
      logging (LogError (py "Error parsing metadata file " ++ file_path
                           ++ py ": " ++ msg));;
      mret default_metadata
  | ParseOSError errno msg => raise (OSError errno msg)
  | ParseRaises e => raise e
  end.

(** ** [BookFS.get_book_path] *)

Definition lift {A} (r : Result A) : Method A := fun w => (r, w).

(** [s or d] *)
Definition or_else (s d : str) : str := if nonempty s then s else d.

(** [str(x)] for a string or [None], as an f-string formats it. *)
Definition format_opt (x : option str) : str :=
  match x with Some s => s | None => py "None" end.

Definition get_book_path (db : UnicodeDB) (metadata : Metadata)
    : Method str :=
  let author_dir := author metadata in
  if truthy (series metadata) then
    let series_dir := format_opt (series metadata) in
    book_dir ←
      try_except
        (x ← lift (py_float db (series_index metadata));
         series_index ← lift (py_int x);
         mret (py "Book " ++ str_of_int series_index))
        (fun e => match e with
                  | TypeError | ValueError => true
                  | _ => false
                  end)
        (fun _ =>
           logging (LogWarning
             (py "Invalid series index '"
                ++ format_opt (series_index metadata)
                ++ py "' for series '" ++ series_dir
                ++ py "'. Using book title instead."));;
           mret (or_else (book_title metadata) (py "Unknown Book")));
    mret (path_join author_dir [series_dir; book_dir])
  else
    let book_dir := or_else (book_title metadata) (py "Unknown Book") in
    mret (path_join author_dir [book_dir]).

Arguments py : simpl never.
Arguments normpath : simpl never.
Arguments dirname : simpl never.
Arguments basename : simpl never.
Arguments relpath : simpl never.
Arguments sanitize_name : simpl never.
Arguments float_of_str : simpl never.
Arguments str_of_int : simpl never.

(** ** [BookFS.find_metadata_files] and [BookFS.build_file_structure] *)

Definition METADATA_OPF : str := py "metadata.opf".

Definition str_in (x : str) (l : list str) : bool := existsb (str_eqb x) l.

Definition find_metadata_files (os : OS) : Method (list str) :=
  fs ← get_self;
  mret (flat_map
          (fun '(dirpath, dirnames, filenames) =>
             if str_in METADATA_OPF filenames
             then [path_join dirpath [METADATA_OPF]] else [])
          (os_walk os (root_dir fs))).

(** The body of [for file in files] *)
Definition map_file (virtual_book_path root rel_root file : str)
    : Method unit :=
  let actual_file_path := path_join root [file] in
  let rel_file_path :=
    if negb (str_eqb rel_root DOT) then path_join rel_root [file] else file in
  let virtual_file_path :=
    normpath (path_join (py "/") [virtual_book_path; rel_file_path]) in
  modify_self (set_file virtual_file_path actual_file_path).

(** The body of [for dir_name in dirs] *)
Definition map_subdirectory (virtual_book_path rel_root dir_name : str)
    : Method unit :=
  let rel_dir_path :=
    if negb (str_eqb rel_root DOT) then path_join rel_root [dir_name]
    else dir_name in
  let virtual_dir_path :=
    normpath (path_join (py "/") [virtual_book_path; rel_dir_path]) in
  modify_self (add_directory virtual_dir_path).

(** The body of [for root, dirs, files in os.walk(book_dir)] *)
Definition map_directory (working_dir virtual_book_path book_dir : str)
    (e : str * list str * list str) : Method unit :=
  let '(root, dirs, files) := e in
  rel_root ← match relpath working_dir root book_dir with
             | Some r => mret r
             | None => raise ValueError
             end;
  for_each files (map_file virtual_book_path root rel_root);;
  for_each dirs (map_subdirectory virtual_book_path rel_root).

(** The body of [for metadata_file in metadata_files] *)
Definition index_book (db : UnicodeDB) (os : OS) (metadata_file : str)
    : Method unit :=
  metadata ← parse_metadata db os metadata_file;
  virtual_book_path ← get_book_path db metadata;
  let path_components :=
    split_on is_sep (strip is_sep virtual_book_path) in
  for_each (seq 1 (length path_components))
    (fun i =>
       let dir_path :=
         normpath (SEP :: join_str [SEP] (take i path_components)) in
       modify_self (add_directory dir_path));;
  let book_dir := dirname metadata_file in
  for_each (os_walk os book_dir)
    (map_directory (cwd os) virtual_book_path book_dir).

Definition build_file_structure (db : UnicodeDB) (os : OS) : Method unit :=
  metadata_files ← find_metadata_files os;
  for_each metadata_files (index_book db os).

(** [BookFS(root_dir)]: the object after [__init__], or the exception
    that leaves no object. *)
Definition new_BookFS (db : UnicodeDB) (os : OS) (root : str) : Result BookFS :=
  let w0 := {| self := {| root_dir := root; files := ∅; directories := ∅ |};
               logged := [] |} in
  match build_file_structure db os w0 with
  | (Return _, w) => Return (self w)
  | (Raise e, _) => Raise e
  end.

(** ** The FUSE operations *)

(** The dictionary [getattr] returns; a directory has no [st_size]. *)
Record Stat := {
  st_mode : Z;
  st_size : option Z;
  st_nlink : Z
}.

Definition S_IFDIR : Z := 16384.   (* 0o040000 *)
Definition S_IFREG : Z := 32768.   (* 0o100000 *)
Definition MODE_755 : Z := 493.   (* 0o755 *)
Definition MODE_644 : Z := 420.   (* 0o644 *)

Definition dir_stat : Stat :=
  {| st_mode := Z.lor MODE_755 S_IFDIR; st_size := None; st_nlink := 2 |}.

Definition file_stat (size : Z) : Stat :=
  {| st_mode := Z.lor MODE_644 S_IFREG; st_size := Some size; st_nlink := 1 |}.

Definition ROOT : str := py "/".

Definition getattr (os : OS) (path : str) (fh : option Z) : Method Stat :=
  let path := normpath path in
  fs ← get_self;
  if str_eqb path ROOT then mret dir_stat
  else match files fs !! path with
       | Some actual =>
           match getsize os actual with
           | Ok size => mret (file_stat size)
           | Fails _ msg =>
               logging (LogError (py "Error getting attributes for file '"
                                    ++ path ++ py "': " ++ msg));;
               raise (OSError ENOENT (py "File not found: " ++ path))
           end
       | None =>
           if bool_decide (path ∈ directories fs) then mret dir_stat
           else
             logging (LogError (py "Path not found in getattr: " ++ path));;
             raise (OSError ENOENT (py "Path not found: " ++ path))
       end.

(** One round of the loops of [readdir]. *)
Definition add_child (path : str) (entries : gset str) (p : str) : gset str :=
  if str_eqb (dirname p) path then {[ basename p ]} ∪ entries else entries.

Definition readdir (path : str) (fh : Z) : Method (list str) :=
  let dir_entries := [py "."; py ".."] in
  let path := normpath path in
  let path := if str_eqb path DOT then ROOT else path in
  fs ← get_self;
  let entries : gset str := ∅ in
  let entries := fold_left (add_child path) (elements (directories fs)) entries in
  let entries :=
    fold_left (add_child path) (map fst (map_to_list (files fs))) entries in
  mret (dir_entries ++ elements entries).

(** What [f.seek(offset); f.read(size)] does on a buffered binary file:
    data, an [OSError], or another exception. *)
Inductive ReadOutcome :=
  | ReadData (data : list Init.Byte.byte)
  | ReadOSError (errno : Z) (msg : str)
  | ReadRaises (e : PyExc).

Definition SSIZE_MAX : Z := 2 ^ 63 - 1.

Definition alloc_exc (f : AllocFailure) : PyExc :=
  match f with
  | OutOfMemory => MemoryError
  | TooLarge => OverflowError
  end.

(** The buffer [FileIO.readall] allocates from the position [pos] of a
    file of [fsize] bytes: one byte more than what is left, or a small
    chunk when nothing is. *)
Definition SMALLCHUNK : Z := 8192.

Definition readall_bufsize (fsize pos : Z) : Z :=
  if (0 <? fsize)%Z && (pos <=? fsize)%Z then (fsize - pos + 1)%Z
  else SMALLCHUNK.

(** [f.seek(offset)] raises [ValueError] when [offset] does not fit the
    offset type and fails with [EINVAL] when it is negative or above
    what the file system accepts.  [f.read(size)] raises
    [OverflowError] when [size] does not fit an index and [ValueError]
    when it is below -1; the size 0 gives no data; otherwise it
    allocates its buffer first, [size] bytes, or for the size -1
    (read to the end of the file) the buffer of [readall], and raises
    when that fails. *)
Definition seek_read (os : OS) (actual : str)
    (content : list Init.Byte.byte) (size offset : Z) : ReadOutcome :=
  if (offset <? - SSIZE_MAX - 1)%Z || (SSIZE_MAX <? offset)%Z
  then ReadRaises ValueError
  else if (offset <? 0)%Z || (lseek_max os actual <? offset)%Z
  then ReadOSError EINVAL (py "[Errno 22] Invalid argument")
  else if (size <? - SSIZE_MAX - 1)%Z || (SSIZE_MAX <? size)%Z
  then ReadRaises OverflowError
  else if (size <? -1)%Z then ReadRaises ValueError
  else if (size =? 0)%Z then ReadData []
  else
    let rest := drop (Z.to_nat offset) content in
    let bufsize :=
      if (size =? -1)%Z
      then readall_bufsize (Z.of_nat (length content)) offset
      else size in
    match bytes_alloc os bufsize with
    | Some f => ReadRaises (alloc_exc f)
    | None =>
        ReadData (if (size =? -1)%Z then rest else take (Z.to_nat size) rest)
    end.

Definition read (os : OS) (path : str) (size offset : Z) (fh : Z)
    : Method (list Init.Byte.byte) :=
  let path := normpath path in
  fs ← get_self;
  match files fs !! path with
  | Some actual =>
      match
        (match open_rb os actual with
         | Ok content => seek_read os actual content size offset
         | Fails errno msg => ReadOSError errno msg
         end)
      with
      | ReadData data => mret data
      | ReadOSError _ msg =>
          logging (LogError (py "Error reading file '" ++ path
                               ++ py "': " ++ msg));;
          raise (OSError EIO (py "Read error: " ++ path))
      | ReadRaises e => raise e
      end
  | None =>
      logging (LogError (py "File not found in read: " ++ path));;
      raise (OSError ENOENT (py "File not found: " ++ path))
  end.

(** The range of a C [int], the type of the flags of [os.open]. *)
Definition INT_MIN : Z := - 2 ^ 31.
Definition INT_MAX : Z := 2 ^ 31 - 1.

(** [os.open] raises [OverflowError] for flags that do not fit a C
    [int], before it calls the operating system. *)
Definition open (os : OS) (path : str) (flags : Z) : Method Z :=
  let path := normpath path in
  fs ← get_self;
  match files fs !! path with
  | Some actual =>
      if (flags <? INT_MIN)%Z || (INT_MAX <? flags)%Z then raise OverflowError
      else
        match os_open os actual flags with
        | Ok _ => mret 0%Z
        | Fails _ msg =>
            logging (LogError (py "Error opening file '" ++ path
                                 ++ py "': " ++ msg));;
            raise (OSError EACCES (py "Cannot open file: " ++ path))
        end
  | None =>
      logging (LogError (py "File not found in open: " ++ path));;
      raise (OSError ENOENT (py "File not found: " ++ path))
  end.

Definition permission_denied {A} : Method A :=
  raise (OSError EACCES (py "Permission denied")).

Definition create (path : str) (mode : Z) (fi : option Z) : Method unit :=
  logging (LogWarning (py "Attempt to create file '" ++ path ++ py "' denied."));;
  permission_denied.

Definition write (path : str) (data : list Init.Byte.byte) (offset : Z)
    (fh : Z) : Method unit :=
  logging (LogWarning (py "Attempt to write to file '" ++ path ++ py "' denied."));;
  permission_denied.

Definition mkdir (path : str) (mode : Z) : Method unit :=
  logging (LogWarning (py "Attempt to create directory '" ++ path ++ py "' denied."));;
  permission_denied.

Definition rmdir (path : str) : Method unit :=
  logging (LogWarning (py "Attempt to remove directory '" ++ path ++ py "' denied."));;
  permission_denied.

Definition unlink (path : str) : Method unit :=
  logging (LogWarning (py "Attempt to remove file '" ++ path ++ py "' denied."));;
  permission_denied.

(** ** The sanitizer in the words of the design

    Keep the alphanumeric characters and the characters [-_.() ];
    replace every other character by [_]; collapse each run of
    whitespace to one space; trim. *)

Definition spec_keeps (db : UnicodeDB) (c : N) : bool :=
  isalnum db c ||
  (c =? 45) || (c =? 95) || (c =? 46) || (c =? 40) || (c =? 41) || (c =? 32).

(** A whitespace character followed by another one is dropped; the last
    one of a run becomes a space. *)
Fixpoint collapse_ws (s : str) : str :=
  match s with
  | [] => []
  | c :: s' =>
      if isspace c then
        match s' with
        | c' :: _ =>
            if isspace c' then collapse_ws s' else SPACE :: collapse_ws s'
        | [] => [SPACE]
        end
      else c :: collapse_ws s'
  end.

Definition spec_sanitize (db : UnicodeDB) (s : str) : str :=
  strip isspace
    (collapse_ws (map (fun c => if spec_keeps db c then c else UNDERSCORE) s)).

(** The character class [[A-Za-z0-9\-_.() ]]. *)
Definition ascii_class (c : N) : bool :=
  ((65 <=? c) && (c <=? 90)) || ((97 <=? c) && (c <=? 122)) ||
  ((48 <=? c) && (c <=? 57)) ||
  (c =? 45) || (c =? 95) || (c =? 46) || (c =? 40) || (c =? 41) || (c =? 32).

(** The sanitizer that keeps exactly that class. *)
Definition ascii_sanitize (s : str) : str :=
  strip isspace
    (collapse_ws (map (fun c => if ascii_class c then c else UNDERSCORE) s)).

(** ** Outcomes of a method call *)

Definition result_of {A} (m : Method A) (w : World) : Result A := fst (m w).

Definition world_after {A} (m : Method A) (w : World) : World := snd (m w).

(** The call raises an exception of the given kind. *)
Definition fails_with {A} (m : Method A) (w : World) (k : ErrorKind) : Prop :=
  exists e, result_of m w = Raise e /\ error_kind e = k.

(** The call is rejected with [AccessDenied] and leaves the index as it
    was. *)
Definition denied {A} (m : Method A) : Prop :=
  forall w,
    fails_with m w AccessDenied /\
    files (self (world_after m w)) = files (self w) /\
    directories (self (world_after m w)) = directories (self w).

(** The world in which a built object answers queries. *)
Definition serving (fs : BookFS) : World := {| self := fs; logged := [] |}.

(** The series of a parsed descriptor: the [content] attribute of the
    series element, sanitized when it is not empty. *)
Definition series_of (db : UnicodeDB) (root : Element) : option str :=
  let series := content_of (find_meta root (py "calibre:series")) in
  if truthy series then option_map (sanitize_name db) series else series.

(** ** Paths as lists of components *)

Definition sep_free (s : str) : bool := forallb (fun c => negb (is_sep c)) s.

(** A component: a non-empty string without a slash. *)
Definition plain (c : str) : bool := nonempty c && sep_free c.

(** The name of a directory entry: a component other than [.] and [..]. *)
Definition valid_name (n : str) : bool :=
  plain n && negb (str_eqb n DOT) && negb (str_eqb n DOTDOT).

(** The path [abspath] normalizes. *)
Definition anchored (cwd p : str) : str :=
  if starts_with_sep p then p else path_join cwd [p].

(** The absolute path with the given components; [abs_of []] is [/]. *)
Definition abs_of (cs : list str) : str := SEP :: join_str [SEP] cs.

(** The components [normpath] keeps of an absolute path. *)
Definition norm_abs (cs : list str) : list str :=
  rev (fold_left (normpath_step 1) cs []).

Fixpoint nodup_names (l : list str) : bool :=
  match l with
  | [] => true
  | x :: l' => negb (str_in x l') && nodup_names l'
  end.

(** A directory tree of a real file system: entries have valid names,
    and no two subdirectories of a directory share a name. *)
Fixpoint wf_rtree (t : rtree) : bool :=
  match t with
  | RNode fs ls subs =>
      forallb valid_name fs && forallb valid_name ls &&
      nodup_names (map fst subs) &&
      (fix go (l : list (str * rtree)) : bool :=
         match l with
         | [] => true
         | (n, sub) :: l' => valid_name n && wf_rtree sub && go l'
         end) subs
  end.

(** The [n]-th ancestor of a path: [dirname] applied [n] times. *)
Fixpoint ancestor (n : nat) (p : str) : str :=
  match n with
  | O => p
  | S n' => dirname (ancestor n' p)
  end.

(** ** The index a book contributes

    The loops of [build_file_structure] as functions on the index, in
    terms of components: [cs] are the components of the virtual book
    path, [stack] the components [normpath] keeps of it, [top] the real
    book directory and [ns] the names leading from it to the directory
    being visited. *)

(** [for i in range(1, len(path_components) + 1)] *)
Definition register_prefixes (cs : list str) (fs : BookFS) : BookFS :=
  fold_left
    (fun fs i => add_directory (abs_of (norm_abs (take i cs))) fs)
    (seq 1 (length cs)) fs.

(** The two inner loops for one visited directory. *)
Definition register_entry (stack : list str) (top : str) (ns : list str)
    (t : rtree) (fs : BookFS) : BookFS :=
  let fs :=
    fold_left
      (fun fs f => set_file (abs_of (stack ++ ns ++ [f]))
                            (path_join top (ns ++ [f])) fs)
      (rfiles t) fs in
  fold_left
    (fun fs d => add_directory (abs_of (stack ++ ns ++ [d])) fs)
    (map fst (rsubs t) ++ rlinks t) fs.

(** [for root, dirs, files in os.walk(book_dir)] *)
Fixpoint register_tree (stack : list str) (top : str) (ns : list str)
    (t : rtree) (fs : BookFS) : BookFS :=
  match t with
  | RNode _ _ subs =>
      (fix go (l : list (str * rtree)) (fs : BookFS) : BookFS :=
         match l with
         | [] => fs
         | (n, sub) :: l' =>
             go l' (register_tree stack top (ns ++ [n]) sub fs)
         end) subs (register_entry stack top ns t fs)
  end.

(** One round of [for metadata_file in metadata_files], for a book with
    virtual path components [cs] stored in [book_dir]. *)
Definition register_book (os : OS) (cs : list str) (book_dir : str)
    (fs : BookFS) : BookFS :=
  let fs := register_prefixes cs fs in
  match fs_resolve os book_dir with
  | Some t => register_tree (norm_abs cs) book_dir [] t fs
  | None => fs
  end.

(** The descriptors [find_metadata_files] returns for a root. *)
Definition discovered (os : OS) (root : str) : list str :=
  flat_map
    (fun '(dirpath, dirnames, filenames) =>
       if str_in METADATA_OPF filenames
       then [path_join dirpath [METADATA_OPF]] else [])
    (os_walk os root).

(** The virtual book path of a descriptor, when both [parse_metadata]
    and [get_book_path] return. *)
Definition book_path_of (db : UnicodeDB) (os : OS) (metadata_file : str)
    : option str :=
  match parse_metadata db os metadata_file (serving {| root_dir := []; files := ∅; directories := ∅ |}) with
  | (Return metadata, w) =>
      match get_book_path db metadata w with
      | (Return p, _) => Some p
      | (Raise _, _) => None
      end
  | (Raise _, _) => None
  end.

(** ** The invariant of the index *)

(** The directory with components [cs] is the root or is stored. *)
Definition registered (fs : BookFS) (cs : list str) : Prop :=
  cs = [] \/ abs_of cs ∈ directories fs.

(** Every key and every directory is a normalized absolute path whose
    parent directory is registered. *)
Record index_inv (fs : BookFS) : Prop := {
  inv_files : forall k, k ∈ dom (files fs) ->
    exists cs x, forallb plain cs = true /\ plain x = true /\
                 k = abs_of (cs ++ [x]) /\ registered fs cs;
  inv_dirs : forall d, d ∈ directories fs ->
    exists cs, forallb plain cs = true /\ d = abs_of cs /\
               forall cs' x, cs = cs' ++ [x] -> registered fs cs'
}.

(** What the operating system guarantees: the working directory is an
    absolute path and the library is a well-formed tree. *)
Definition wf_os (os : OS) : bool :=
  starts_with_sep (cwd os) && wf_rtree (fs_tree os).

(** The index only grows. *)
Definition extends (fs fs' : BookFS) : Prop :=
  directories fs ⊆ directories fs' /\ dom (files fs) ⊆ dom (files fs').

(** How [os.walk] presents a directory. *)
Definition walk_view (e : str * rtree) : str * list str * list str :=
  (fst e, map fst (rsubs (snd e)) ++ rlinks (snd e), rfiles (snd e)).

(** The relative path [relpath] gives for the names [ns] below a
    directory. *)
Definition rel_of (ns : list str) : str :=
  match ns with [] => DOT | _ => join_str [SEP] ns end.

(** The fields of a record are safe path components. *)
Definition fields_ok (m : Metadata) : Prop :=
  sep_free (author m) = true /\ sep_free (book_title m) = true /\
  (truthy (series m) = true ->
   exists s, series m = Some s /\ sep_free s = true).

(** ** Listings *)

(** The directory [readdir] lists for a queried path. *)
Definition listed_path (path : str) : str :=
  let p := normpath path in
  if str_eqb p DOT then ROOT else p.

(** [x] is the basename of an index entry whose parent is [p]. *)
Definition is_child (fs : BookFS) (p x : str) : Prop :=
  exists e, (e ∈ directories fs \/ e ∈ dom (files fs)) /\
            dirname e = p /\ basename e = x.

(** The object [BookFS(root)] when the constructor returns, and an empty
    index otherwise. *)
Definition built (db : UnicodeDB) (os : OS) (root : str) : BookFS :=
  match new_BookFS db os root with
  | Return fs => fs
  | Raise _ => {| root_dir := root; files := ∅; directories := ∅ |}
  end.

(** The virtual path of the descriptor of a book with virtual book path
    [p], and the real path of the descriptor [m] as the walk of its
    directory spells it. *)
Definition descriptor_key (p : str) : str :=
  normpath (path_join (py "/") [p; METADATA_OPF]).

Definition descriptor_path (m : str) : str :=
  path_join (dirname m) [METADATA_OPF].

(** ** Concrete libraries

    Small Calibre libraries on which the module is run. *)

Definition dc (local : string) (text : option str) : Element :=
  Elem (qname DC_NS (py local)) [] text [].

Definition opf_meta (name content : string) : Element :=
  Elem (qname OPF_NS (py "meta"))
       [(py "name", py name); (py "content", py content)] None [].

(** A descriptor: [<package><metadata> ... </metadata></package>] *)
Definition opf_package (entries : list Element) : Element :=
  Elem (qname OPF_NS (py "package")) [] None
       [Elem (qname OPF_NS (py "metadata")) [] None entries].

Definition no_file {A} (path : str) : SysResult A :=
  Fails ENOENT (py "[Errno 2] No such file or directory").

(** A library under [/lib] given by its tree and its descriptors; every
    file of the library holds the three bytes [ABC].  The file system
    accepts offsets up to 2^44 - 4096, and a buffer of up to 2^30 bytes
    can be allocated. *)
Definition library (t : rtree) (descriptors : list (str * ParseOutcome)) : OS :=
  {| cwd := py "/home/user";
     fs_top := py "/lib";
     fs_tree := t;
     et_parse := fun p =>
       match List.find (fun d => str_eqb (fst d) p) descriptors with
       | Some d => snd d
       | None => ParseOSError ENOENT (py "[Errno 2] No such file or directory")
       end;
     getsize := fun _ => Ok 3%Z;
     open_rb := fun _ => Ok [Init.Byte.x41; Init.Byte.x42; Init.Byte.x43];
     lseek_max := fun _ => (2 ^ 44 - 4096)%Z;
     bytes_alloc := fun n =>
       if (n <=? 2 ^ 30)%Z then None
       else if (n <=? 2 ^ 63 - 34)%Z then Some OutOfMemory
       else Some TooLarge;
     os_open := fun _ _ => Ok tt |}.

(** Two authors: a book of a series and a standalone book with a
    subdirectory. *)
Definition two_authors_tree : rtree :=
  RNode [] []
    [(py "1", RNode [py "metadata.opf"; py "book.epub"] [] []);
     (py "2", RNode [py "metadata.opf"; py "emma.epub"] []
                [(py "extras", RNode [py "notes.txt"] [] [])])].

Definition two_authors : OS :=
  library two_authors_tree
    [(py "/lib/1/metadata.opf",
      Parsed (opf_package
                [dc "title" (Some (py "Second Foundation"));
                 dc "creator" (Some (py "Isaac Asimov"));
                 opf_meta "calibre:series" "Foundation";
                 opf_meta "calibre:series_index" "2.0"]));
     (py "/lib/2/metadata.opf",
      Parsed (opf_package
                [dc "title" (Some (py "Emma"));
                 dc "creator" (Some (py "Jane Austen"))]))].

(** A standalone book [A/B] holding a file named [C], and a book [C] of
    the series [B] of the same author, without a series index. *)
Definition overlap_tree : rtree :=
  RNode [] []
    [(py "1", RNode [py "metadata.opf"; py "C"] [] []);
     (py "2", RNode [py "metadata.opf"] [] [])].

Definition overlap : OS :=
  library overlap_tree
    [(py "/lib/1/metadata.opf",
      Parsed (opf_package
                [dc "title" (Some (py "B")); dc "creator" (Some (py "A"))]));
     (py "/lib/2/metadata.opf",
      Parsed (opf_package
                [dc "title" (Some (py "C")); dc "creator" (Some (py "A"));
                 opf_meta "calibre:series" "B"]))].

(** Two copies of one book. *)
Definition duplicate_tree : rtree :=
  RNode [] []
    [(py "1", RNode [py "metadata.opf"] [] []);
     (py "2", RNode [py "metadata.opf"] [] [])].

Definition duplicate : OS :=
  let d := Parsed (opf_package
                     [dc "title" (Some (py "B")); dc "creator" (Some (py "A"))]) in
  library duplicate_tree
    [(py "/lib/1/metadata.opf", d); (py "/lib/2/metadata.opf", d)].

(** One book whose author is written [.]. *)
Definition dot_author_tree : rtree :=
  RNode [] [] [(py "1", RNode [py "metadata.opf"] [] [])].

Definition dot_author : OS :=
  library dot_author_tree
    [(py "/lib/1/metadata.opf",
      Parsed (opf_package
                [dc "title" (Some (py "T")); dc "creator" (Some (py "."))]))].

(** Descriptors with a blank title, and with an empty creator element. *)
Definition blank_title : OS :=
  library dot_author_tree
    [(py "/lib/1/metadata.opf",
      Parsed (opf_package
                [dc "title" (Some (py " ")); dc "creator" (Some (py "Jane"))]))].

Definition empty_creator : OS :=
  library dot_author_tree
    [(py "/lib/1/metadata.opf",
      Parsed (opf_package
                [dc "title" (Some (py "T")); dc "creator" None]))].

Definition world0 (root : str) : World :=
  {| self := {| root_dir := root; files := ∅; directories := ∅ |};
     logged := [] |}.

(** ** Queries *)

(** A call that leaves the object as it was and logs nothing when it
    returns. *)
Definition read_only {A} (m : Method A) : Prop :=
  forall w,
    self (world_after m w) = self w /\
    (forall a, result_of m w = Return a -> logged (world_after m w) = logged w).

(** An index with one file, for the examples. *)
Definition one_file : World :=
  serving {| root_dir := py "/lib";
             files := {[ py "/A/B/b.txt" := py "/lib/1/b.txt" ]};
             directories := {[ py "/A"; py "/A/B" ]} |}.

(** ** The entries of a directory tree *)

(** The directory found [ms] below the top of [t] holds a file named
    [x]; it holds a subdirectory, or a link to one, named [n]. *)
Definition tree_file (t : rtree) (ms : list str) (x : str) : Prop :=
  exists t', descend t ms = Some t' /\ x ∈ rfiles t'.

Definition tree_dir (t : rtree) (ms : list str) (n : str) : Prop :=
  exists t', descend t ms = Some t' /\ n ∈ map fst (rsubs t') ++ rlinks t'.

(** The same in the library: below the directory the path [d] names. *)
Definition file_below (os : OS) (d : str) (ms : list str) (x : str) : Prop :=
  exists t, fs_resolve os d = Some t /\ tree_file t ms x.

Definition dir_below (os : OS) (d : str) (ms : list str) (n : str) : Prop :=
  exists t, fs_resolve os d = Some t /\ tree_dir t ms n.

(** ** The paths [build_file_structure] computes for a book *)

(** [path_components] *)
Definition book_components (db : UnicodeDB) (os : OS) (m : str) : list str :=
  match book_path_of db os m with
  | Some p => split_on is_sep (strip is_sep p)
  | None => []
  end.

(** [dir_path] in round [i] of the first loop, for the virtual book
    path [p]. *)
Definition prefix_dir (p : str) (i : nat) : str :=
  normpath (SEP :: join_str [SEP] (take i (split_on is_sep (strip is_sep p)))).

(** [rel_file_path] (and [rel_dir_path]) for the entry [x] of the
    directory found [ms] below the book directory. *)
Definition rel_entry (ms : list str) (x : str) : str :=
  if negb (str_eqb (rel_of ms) DOT) then path_join (rel_of ms) [x] else x.

(** [virtual_file_path] (and [virtual_dir_path]) *)
Definition virtual_entry (p : str) (ms : list str) (x : str) : str :=
  normpath (path_join (py "/") [p; rel_entry ms x]).

(** The descriptor gives a virtual book path with components [cs]. *)
Definition book_at (db : UnicodeDB) (os : OS) (m : str) (cs : list str)
    : Prop :=
  book_path_of db os m = Some (join_str [SEP] cs) /\
  cs ≠ [] /\ forallb plain cs = true.

(** The rounds of [for metadata_file in metadata_files] on the index. *)
Definition index_books (db : UnicodeDB) (os : OS) (l : list str)
    (fs : BookFS) : BookFS :=
  fold_left
    (fun fs m => register_book os (book_components db os m) (dirname m) fs)
    l fs.

(** What a book with components [cs], stored in [book_dir], adds to
    the index. *)
Definition book_file (os : OS) (cs : list str) (book_dir k v : str) : Prop :=
  exists ms x, file_below os book_dir ms x /\
               k = abs_of (norm_abs cs ++ ms ++ [x]) /\
               v = path_join book_dir (ms ++ [x]).

Definition book_directory (os : OS) (cs : list str) (book_dir d : str)
    : Prop :=
  (exists i, (1 <= i <= length cs)%nat /\ d = abs_of (norm_abs (take i cs))) \/
  (exists ms n, dir_below os book_dir ms n /\
                d = abs_of (norm_abs cs ++ ms ++ [n])).

(** ** Numbers *)

(** A non-empty string of ASCII digits. *)
Definition digit_string (s : str) : Prop :=
  s ≠ [] /\ forallb is_digit s = true.

(** * Properties *)

(** ** Strings *)

Section Strings.
Variable p : N -> bool.

Lemma split_on_not_nil (s : str) : split_on p s ≠ [].
Proof.
  destruct s as [|c s]; simpl; [done|].
  destruct (p c); [done|]. by destruct (split_on p s).
Qed.

Lemma split_on_cons_sep c s : p c = true -> split_on p (c :: s) = [] :: split_on p s.
Proof. intros H. simpl. by rewrite H. Qed.

Lemma split_on_cons_other c s w ws :
  p c = false -> split_on p s = w :: ws ->
  split_on p (c :: s) = (c :: w) :: ws.
Proof. intros H Hs. simpl. by rewrite H, Hs. Qed.

(** A string without separators is one piece. *)
Lemma split_on_free (w : str) :
  forallb (fun c => negb (p c)) w = true -> split_on p w = [w].
Proof.
  induction w as [|c w IH]; simpl; [done|].
  intros [Hc Hw]%andb_prop. apply negb_true_iff in Hc.
  by rewrite Hc, (IH Hw).
Qed.

Lemma split_on_app_sep (a b : str) c :
  p c = true -> split_on p (a ++ c :: b) = split_on p a ++ split_on p b.
Proof.
  intros Hc. induction a as [|x a IH]; simpl.
  - by rewrite Hc.
  - destruct (p x); [by rewrite IH|].
    rewrite IH. destruct (split_on p a) eqn:E; [|done].
    by destruct (split_on_not_nil a).
Qed.

(** The pieces contain no separator. *)
Lemma split_on_pieces_free (s : str) :
  Forall (fun w => forallb (fun c => negb (p c)) w = true) (split_on p s).
Proof.
  induction s as [|c s IH]; simpl.
  - by constructor.
  - destruct (p c) eqn:Hc; [by constructor|].
    destruct (split_on p s) as [|w ws]; [by constructor; [simpl; rewrite Hc|]|].
    inversion IH; subst. constructor; [|done]. simpl. by rewrite Hc.
Qed.

Lemma split_on_pieces_sub (P : N -> Prop) (s : str) :
  Forall P s -> Forall (Forall P) (split_on p s).
Proof.
  induction 1 as [|c s Hc Hs IH]; simpl.
  - by repeat constructor.
  - destruct (p c); [by constructor|].
    destruct (split_on p s) as [|w ws]; [by repeat constructor|].
    inversion IH; subst. by repeat constructor.
Qed.

Lemma rstrip_cons_keep c s : p c = false -> rstrip p (c :: s) = c :: rstrip p s.
Proof. intros H. simpl. rewrite H. by destruct (rstrip p s). Qed.

Lemma rstrip_cons_strip c s :
  p c = true ->
  rstrip p (c :: s) = match rstrip p s with [] => [] | r => c :: r end.
Proof. intros H. simpl. by rewrite H. Qed.

Lemma rstrip_free_last (s : str) :
  match last s with Some c => p c = false | None => True end ->
  rstrip p s = s.
Proof.
  induction s as [|c s IH]; [done|].
  intros H. simpl. destruct s as [|c' s'].
  - simpl in *. by rewrite H.
  - rewrite IH; [done|]. exact H.
Qed.

Lemma lstrip_free_head (s : str) :
  match s with c :: _ => p c = false | [] => True end -> lstrip p s = s.
Proof. destruct s; simpl; [done|]. by intros ->. Qed.
End Strings.

Lemma join_str_cons sep w (l : list str) :
  l ≠ [] -> join_str sep (w :: l) = w ++ sep ++ join_str sep l.
Proof. by destruct l. Qed.

Lemma join_str_Forall (P : N -> Prop) sep (l : list str) :
  Forall P sep -> Forall (Forall P) l -> Forall P (join_str sep l).
Proof.
  intros Hsep. induction 1 as [|w l Hw Hl IH]; [constructor|].
  destruct l as [|w' l']; [done|].
  rewrite join_str_cons by done. rewrite !Forall_app. auto.
Qed.

(** ** Words: what [s.split()] returns *)

Definition good_word (w : str) : Prop :=
  w ≠ [] /\ forallb (fun c => negb (isspace c)) w = true.

Lemma split_ws_good (s : str) : Forall good_word (split_ws s).
Proof.
  unfold split_ws. apply Forall_forall. intros w Hw.
  apply list_elem_of_filter in Hw as [Hne Hin].
  split; [by destruct w|].
  pose proof (split_on_pieces_free isspace s) as HF.
  rewrite Forall_forall in HF. by apply HF.
Qed.

Lemma split_ws_cons_space c s : isspace c = true -> split_ws (c :: s) = split_ws s.
Proof.
  intros H. unfold split_ws. rewrite split_on_cons_sep by done.
  by rewrite filter_cons_False.
Qed.

Lemma join_good_nil (l : list str) :
  Forall good_word l -> join_str [SPACE] l = [] -> l = [].
Proof.
  destruct 1 as [|w l [Hw _] Hl]; [done|].
  destruct l; simpl; [done|]. by destruct w.
Qed.

Lemma join_good_head (l : list str) :
  Forall good_word l ->
  match join_str [SPACE] l with c :: _ => isspace c = false | [] => True end.
Proof.
  destruct 1 as [|w l [Hw Hf] Hl]; [done|].
  destruct w as [|c w]; [done|].
  simpl in Hf. apply andb_prop in Hf as [Hc _]. apply negb_true_iff in Hc.
  by destruct l.
Qed.

(** The three shapes of the words of [c :: s] for a non-space [c]. *)
Lemma join_words_cons c s :
  isspace c = false ->
  join_str [SPACE] (split_ws (c :: s)) =
  match s with
  | [] => [c]
  | c' :: _ =>
      if isspace c' then
        c :: match join_str [SPACE] (split_ws s) with
             | [] => []
             | r => SPACE :: r
             end
      else c :: join_str [SPACE] (split_ws s)
  end.
Proof.
  intros Hc. destruct s as [|c' s'].
  - unfold split_ws. simpl. rewrite Hc.
    rewrite filter_cons_True by done. reflexivity.
  - destruct (isspace c') eqn:Hc'.
    + rewrite (split_ws_cons_space c' s') by done.
      unfold split_ws.
      rewrite (split_on_cons_other isspace c (c' :: s') [] (split_on isspace s'))
        by (done || by rewrite split_on_cons_sep).
      rewrite filter_cons_True by done.
      pose proof (split_ws_good s') as Hg. unfold split_ws in Hg.
      destruct (filter _ (split_on isspace s')) as [|w ws] eqn:E; [done|].
      rewrite join_str_cons by done.
      destruct (join_str [SPACE] (w :: ws)) eqn:EJ; [|done].
      by apply join_good_nil in EJ.
    + unfold split_ws. simpl. rewrite Hc, Hc'.
      destruct (split_on isspace s') as [|w ws] eqn:E.
      * by destruct (split_on_not_nil isspace s').
      * rewrite !filter_cons_True by done.
        by destruct (filter _ ws).
Qed.

(** Stripping does not change the words. *)
Lemma split_ws_lstrip (s : str) : split_ws (lstrip isspace s) = split_ws s.
Proof.
  induction s as [|c s IH]; [done|]. simpl.
  destruct (isspace c) eqn:Hc; [|done].
  by rewrite split_ws_cons_space.
Qed.

Lemma split_on_rstrip (s : str) :
  exists w ws ws',
    split_on isspace s = w :: ws /\
    split_on isspace (rstrip isspace s) = w :: ws' /\
    filter (fun w => nonempty w = true) ws =
    filter (fun w => nonempty w = true) ws'.
Proof.
  induction s as [|c s (w & ws & ws' & E1 & E2 & EF)].
  - by exists [], [], [].
  - destruct (isspace c) eqn:Hc.
    + rewrite rstrip_cons_strip by done.
      rewrite split_on_cons_sep by done.
      destruct (rstrip isspace s) as [|r rs] eqn:Er.
      * simpl in E2. injection E2 as Hw Hws. subst w ws'.
        exists [], ([] :: ws), []. rewrite E1.
        split; [done|]. split; [done|].
        rewrite filter_cons_False by done. exact EF.
      * exists [], (w :: ws), (w :: ws').
        rewrite split_on_cons_sep by done. rewrite E1, E2.
        split; [done|]. split; [done|].
        destruct w; [by rewrite !filter_cons_False|by rewrite !filter_cons_True, EF].
    + rewrite rstrip_cons_keep by done.
      exists (c :: w), ws, ws'.
      by rewrite (split_on_cons_other _ _ _ _ _ Hc E1),
                 (split_on_cons_other _ _ _ _ _ Hc E2).
Qed.

Lemma split_ws_rstrip (s : str) : split_ws (rstrip isspace s) = split_ws s.
Proof.
  destruct (split_on_rstrip s) as (w & ws & ws' & E1 & E2 & EF).
  unfold split_ws. rewrite E1, E2.
  destruct w; [by rewrite !filter_cons_False|by rewrite !filter_cons_True, EF].
Qed.

Lemma split_ws_strip (s : str) : split_ws (strip isspace s) = split_ws s.
Proof. unfold strip. by rewrite split_ws_lstrip, split_ws_rstrip. Qed.

(** Joining good words and splitting again gives the words back. *)
Lemma split_ws_join (l : list str) :
  Forall good_word l -> split_ws (join_str [SPACE] l) = l.
Proof.
  induction 1 as [|w l [Hne Hf] Hl IH]; [done|].
  destruct l as [|w' l'].
  - simpl. unfold split_ws. rewrite split_on_free by done.
    rewrite filter_cons_True by (by destruct w). done.
  - rewrite join_str_cons by done. simpl app.
    unfold split_ws. rewrite split_on_app_sep by done.
    rewrite split_on_free by done. simpl app.
    rewrite filter_cons_True by (by destruct w).
    f_equal. exact IH.
Qed.

Lemma join_good_last (l : list str) :
  Forall good_word l ->
  match last (join_str [SPACE] l) with
  | Some c => isspace c = false
  | None => True
  end.
Proof.
  induction 1 as [|w l [Hne Hf] Hl IH]; [done|].
  destruct l as [|w' l'].
  - simpl. destruct (last w) as [c|] eqn:E; [|done].
    apply last_Some in E as [w0 ->].
    rewrite forallb_app in Hf. simpl in Hf.
    apply andb_prop in Hf as [_ Hf]. rewrite andb_true_r in Hf.
    by apply negb_true_iff.
  - rewrite join_str_cons by done.
    destruct (join_str [SPACE] (w' :: l')) as [|x r] eqn:E.
    + by apply join_good_nil in E.
    + rewrite app_assoc, last_app.
      destruct (last (x :: r)) eqn:EL; [exact IH|].
      by apply last_None in EL.
Qed.

Lemma strip_join_good (l : list str) :
  Forall good_word l -> strip isspace (join_str [SPACE] l) = join_str [SPACE] l.
Proof.
  intros H. unfold strip.
  rewrite rstrip_free_last by (by apply join_good_last).
  apply lstrip_free_head. by apply join_good_head.
Qed.

(** ** [sanitize_name] *)

Lemma isspace_SPACE : isspace SPACE = true.
Proof. reflexivity. Qed.

(** Collapsing and trimming on the right, in terms of the words. *)
Lemma rstrip_collapse_words (t : str) :
  rstrip isspace (collapse_ws t) =
  match t with
  | c :: _ =>
      if isspace c then
        match join_str [SPACE] (split_ws t) with
        | [] => []
        | r => SPACE :: r
        end
      else join_str [SPACE] (split_ws t)
  | [] => []
  end.
Proof.
  induction t as [|c t IH]; [done|].
  destruct (isspace c) eqn:Hc.
  - rewrite split_ws_cons_space by done.
    cbn [collapse_ws]. rewrite Hc.
    destruct t as [|c' t'].
    + cbn. by rewrite isspace_SPACE.
    + destruct (isspace c') eqn:Hc'; [exact IH|].
      rewrite rstrip_cons_strip by apply isspace_SPACE.
      by rewrite IH.
  - cbn [collapse_ws]. rewrite Hc.
    rewrite rstrip_cons_keep by done.
    rewrite join_words_cons by done.
    destruct t as [|c' t']; [done|].
    rewrite IH. by destruct (isspace c').
Qed.

(** Collapsing the whitespace and trimming is joining the words with
    single spaces. *)
Lemma strip_collapse_words (t : str) :
  strip isspace (collapse_ws t) = join_str [SPACE] (split_ws t).
Proof.
  unfold strip. rewrite rstrip_collapse_words.
  pose proof (join_good_head _ (split_ws_good t)) as Hh.
  destruct t as [|c t']; [done|].
  destruct (isspace c).
  - destruct (join_str [SPACE] (split_ws (c :: t'))) as [|x r] eqn:E; [done|].
    cbn [lstrip]. rewrite isspace_SPACE. cbn [lstrip]. by rewrite Hh.
  - by apply lstrip_free_head.
Qed.

Section Sanitize.
Variable db : UnicodeDB.

Lemma keep_char_spec_keeps c : keep_char db c = spec_keeps db c.
Proof.
  unfold keep_char, spec_keeps, str_contains, safe_chars.
  change (py "-_.() ") with [45; 95; 46; 40; 41; 32].
  cbn [existsb]. by rewrite orb_false_r, !orb_assoc.
Qed.

Lemma keep_char_ascii c : c < 128 -> keep_char db c = ascii_class c.
Proof.
  intros Hc. rewrite keep_char_spec_keeps.
  unfold spec_keeps, ascii_class, isalnum, ascii_isalnum.
  apply N.ltb_lt in Hc. rewrite Hc.
  destruct ((48 <=? c) && (c <=? 57)), ((65 <=? c) && (c <=? 90)),
    ((97 <=? c) && (c <=? 122)); reflexivity.
Qed.

Lemma keep_UNDERSCORE : keep_char db UNDERSCORE = true.
Proof. reflexivity. Qed.

Lemma keep_SPACE : keep_char db SPACE = true.
Proof. reflexivity. Qed.

Lemma replace_unsafe_kept c : keep_char db (replace_unsafe db c) = true.
Proof.
  unfold replace_unsafe. destruct (keep_char db c) eqn:E; [done|].
  apply keep_UNDERSCORE.
Qed.

Lemma sanitize_name_words (name : str) :
  sanitize_name db name =
  join_str [SPACE] (split_ws (map (replace_unsafe db) name)).
Proof. unfold sanitize_name. by rewrite split_ws_strip. Qed.

(** Every character of a sanitized name is a kept one. *)
Lemma sanitize_name_kept (name : str) :
  Forall (fun c => keep_char db c = true) (sanitize_name db name).
Proof.
  rewrite sanitize_name_words.
  apply join_str_Forall; [by repeat constructor|].
  unfold split_ws.
  assert (Forall (Forall (fun c => keep_char db c = true))
            (split_on isspace (map (replace_unsafe db) name))) as H.
  { apply split_on_pieces_sub. apply Forall_map, Forall_forall.
    intros c _. apply replace_unsafe_kept. }
  rewrite Forall_forall in *. intros w Hw.
  apply list_elem_of_filter in Hw as [_ Hw]. by apply H.
Qed.

Lemma map_replace_kept (s : str) :
  Forall (fun c => keep_char db c = true) s -> map (replace_unsafe db) s = s.
Proof.
  induction 1 as [|c s Hc Hs IH]; [done|].
  cbn [map]. rewrite IH. unfold replace_unsafe. by rewrite Hc.
Qed.

Lemma sanitize_name_idem (x : str) :
  sanitize_name db (sanitize_name db x) = sanitize_name db x.
Proof.
  rewrite (sanitize_name_words (sanitize_name db x)).
  rewrite map_replace_kept by apply sanitize_name_kept.
  rewrite (sanitize_name_words x).
  by rewrite split_ws_join by apply split_ws_good.
Qed.

Lemma sanitize_name_refines (name : str) :
  sanitize_name db name = spec_sanitize db name.
Proof.
  rewrite sanitize_name_words. unfold spec_sanitize.
  rewrite strip_collapse_words. do 2 f_equal.
  apply map_ext. intros c. unfold replace_unsafe.
  by rewrite keep_char_spec_keeps.
Qed.

Lemma sanitize_name_ascii (name : str) :
  Forall (fun c => c < 128) name ->
  sanitize_name db name = ascii_sanitize name.
Proof.
  intros H. rewrite sanitize_name_words. unfold ascii_sanitize.
  rewrite strip_collapse_words. do 2 f_equal.
  induction H as [|c s Hc Hs IH]; [done|].
  cbn [map]. rewrite IH. unfold replace_unsafe.
  by rewrite keep_char_ascii.
Qed.

(** A name with a character that is not whitespace sanitizes to a
    non-empty name. *)
Lemma sanitize_name_nonempty (name : str) :
  existsb (fun c => negb (isspace c)) name = true ->
  sanitize_name db name ≠ [].
Proof.
  rewrite sanitize_name_words. intros H E.
  apply join_good_nil in E; [|apply split_ws_good].
  revert E. clear -H. induction name as [|c s IH]; [done|].
  cbn [existsb map] in *.
  destruct (isspace c) eqn:Hc; cbn [negb orb] in H.
  - unfold replace_unsafe at 1.
    destruct (keep_char db c).
    + rewrite split_ws_cons_space by done. by apply IH.
    + unfold split_ws. cbn [split_on].
      replace (isspace UNDERSCORE) with false by reflexivity.
      destruct (split_on isspace (map (replace_unsafe db) s));
        by rewrite filter_cons_True.
  - unfold split_ws. cbn [split_on].
    assert (isspace (replace_unsafe db c) = false) as ->.
    { unfold replace_unsafe. by destruct (keep_char db c). }
    destruct (split_on isspace (map (replace_unsafe db) s));
      by rewrite filter_cons_True.
Qed.
End Sanitize.

(** ** The FUSE operations *)

(** Runs the monadic glue of a method body. *)
Ltac run_method :=
  unfold mbind, method_bind, mret, method_ret, bind, ret, raise, get_self,
    logging, modify_self, lift, try_except;
  cbv beta iota; cbn [fst snd self logged].

Section Adapter.
Variable os : OS.

Lemma getattr_root w path fh :
  normpath path = ROOT -> result_of (getattr os path fh) w = Return dir_stat.
Proof. intros H. unfold result_of, getattr. by rewrite H. Qed.

Lemma getattr_file w path fh actual :
  normpath path ≠ ROOT ->
  files (self w) !! normpath path = Some actual ->
  match getsize os actual with
  | Ok size => result_of (getattr os path fh) w = Return (file_stat size)
  | Fails _ _ => fails_with (getattr os path fh) w NotFound
  end.
Proof.
  intros Hr Hf. unfold fails_with, result_of, getattr.
  run_method. unfold str_eqb. rewrite bool_decide_eq_false_2 by done.
  rewrite Hf. destruct (getsize os actual); [done|].
  run_method. eauto.
Qed.

Lemma getattr_directory w path fh :
  normpath path ≠ ROOT ->
  files (self w) !! normpath path = None ->
  normpath path ∈ directories (self w) ->
  result_of (getattr os path fh) w = Return dir_stat.
Proof.
  intros Hr Hf Hd. unfold result_of, getattr.
  run_method. unfold str_eqb. rewrite bool_decide_eq_false_2 by done.
  rewrite Hf. by rewrite bool_decide_eq_true_2.
Qed.

Lemma getattr_absent w path fh :
  normpath path ≠ ROOT ->
  files (self w) !! normpath path = None ->
  normpath path ∉ directories (self w) ->
  fails_with (getattr os path fh) w NotFound.
Proof.
  intros Hr Hf Hd. unfold fails_with, result_of, getattr.
  run_method. unfold str_eqb. rewrite bool_decide_eq_false_2 by done.
  rewrite Hf. rewrite bool_decide_eq_false_2 by done. run_method. eauto.
Qed.

Lemma read_absent w path size offset fh :
  files (self w) !! normpath path = None ->
  fails_with (read os path size offset fh) w NotFound.
Proof.
  intros Hf. unfold fails_with, result_of, read. run_method. rewrite Hf.
  run_method. eauto.
Qed.

Lemma read_indexed w path size offset fh actual :
  files (self w) !! normpath path = Some actual ->
  match open_rb os actual with
  | Ok content =>
      match seek_read os actual content size offset with
      | ReadData data =>
          result_of (read os path size offset fh) w = Return data
      | ReadOSError _ _ => fails_with (read os path size offset fh) w IOError
      | ReadRaises e => result_of (read os path size offset fh) w = Raise e
      end
  | Fails _ _ => fails_with (read os path size offset fh) w IOError
  end.
Proof.
  intros Hf. unfold fails_with, result_of, read. run_method.
  rewrite Hf.
  destruct (open_rb os actual) as [content|]; [|run_method; eauto].
  destruct (seek_read os actual content size offset); run_method; eauto.
Qed.

Lemma alloc_exc_kind f : error_kind (alloc_exc f) = OtherError.
Proof. by destruct f. Qed.

Lemma seek_read_raises actual content size offset e :
  seek_read os actual content size offset = ReadRaises e ->
  error_kind e = OtherError.
Proof.
  unfold seek_read.
  repeat match goal with
         | |- context [if ?b then _ else _] => destruct b
         end; try (by intros [= <-]);
    (destruct (bytes_alloc os _) as [f|]; [|done]);
    intros [= <-]; apply alloc_exc_kind.
Qed.

(** An offset the file system accepts and a size whose buffer can be
    allocated. *)
Lemma seek_read_in_range actual content size offset :
  (0 <= offset <= SSIZE_MAX)%Z -> (offset <= lseek_max os actual)%Z ->
  (0 <= size <= SSIZE_MAX)%Z ->
  size = 0%Z \/ bytes_alloc os size = None ->
  seek_read os actual content size offset =
  ReadData (take (Z.to_nat size) (drop (Z.to_nat offset) content)).
Proof.
  intros Ho Hm Hs Ha. unfold seek_read.
  assert (0 < SSIZE_MAX)%Z by reflexivity.
  assert ((offset <? - SSIZE_MAX - 1)%Z = false) as -> by lia.
  assert ((SSIZE_MAX <? offset)%Z = false) as -> by lia.
  assert ((offset <? 0)%Z = false) as -> by lia.
  assert ((lseek_max os actual <? offset)%Z = false) as -> by lia.
  assert ((size <? - SSIZE_MAX - 1)%Z = false) as -> by lia.
  assert ((SSIZE_MAX <? size)%Z = false) as -> by lia.
  assert ((size <? -1)%Z = false) as -> by lia.
  cbn [orb]. destruct (size =? 0)%Z eqn:E0.
  - apply Z.eqb_eq in E0 as ->. by rewrite take_0.
  - assert ((size =? -1)%Z = false) as -> by lia.
    destruct Ha as [-> | ->]; [done|reflexivity].
Qed.


(** What a read that returns data for a size that is not negative
    has returned. *)
Lemma seek_read_data actual content size offset data :
  (0 <= size)%Z ->
  seek_read os actual content size offset = ReadData data ->
  (0 <= offset <= SSIZE_MAX)%Z /\ (offset <= lseek_max os actual)%Z /\
  (size <= SSIZE_MAX)%Z /\
  data = take (Z.to_nat size) (drop (Z.to_nat offset) content).
Proof.
  intros Hs. unfold seek_read.
  destruct ((offset <? - SSIZE_MAX - 1)%Z || (SSIZE_MAX <? offset)%Z)
    eqn:E1; [done|].
  destruct ((offset <? 0)%Z || (lseek_max os actual <? offset)%Z)
    eqn:E2; [done|].
  destruct ((size <? - SSIZE_MAX - 1)%Z || (SSIZE_MAX <? size)%Z)
    eqn:E3; [done|].
  destruct (size <? -1)%Z eqn:E4; [done|].
  assert ((size =? -1)%Z = false) as -> by lia.
  destruct (size =? 0)%Z eqn:E5.
  - intros [= <-]. apply Z.eqb_eq in E5 as ->. rewrite take_0.
    repeat split; lia.
  - destruct (bytes_alloc os size); [done|]. intros [= <-].
    repeat split; lia.
Qed.

Lemma read_not_found_iff w path size offset fh :
  fails_with (read os path size offset fh) w NotFound <->
  files (self w) !! normpath path = None.
Proof.
  split; [|apply read_absent].
  intros (e & He & Hk).
  destruct (files (self w) !! normpath path) as [actual|] eqn:Hf; [|done].
  pose proof (read_indexed w path size offset fh actual Hf) as H.
  destruct (open_rb os actual) as [content|].
  - destruct (seek_read os actual content size offset) as [data| |e'] eqn:Es.
    + congruence.
    + destruct H as (e' & He' & Hk'). congruence.
    + apply seek_read_raises in Es. congruence.
  - destruct H as (e' & He' & Hk'). congruence.
Qed.
End Adapter.

Lemma denied_permission_denied (r : LogRecord) :
  denied (logging r;; permission_denied : Method unit).
Proof.
  intros w. unfold fails_with, result_of, world_after, permission_denied.
  run_method. split; [|done]. eexists. split; reflexivity.
Qed.

(** ** [parse_metadata] and [get_book_path] *)

Section Metadata.
Variable db : UnicodeDB.

Lemma sanitize_unknown_author :
  sanitize_name db (py "Unknown Author") = py "Unknown Author".
Proof. vm_compute. reflexivity. Qed.

Lemma sanitize_unknown_title :
  sanitize_name db (py "Unknown Title") = py "Unknown Title".
Proof. vm_compute. reflexivity. Qed.

Lemma parse_metadata_unparsable os file_path msg w :
  et_parse os file_path = ParseError msg ->
  result_of (parse_metadata db os file_path) w = Return default_metadata.
Proof. intros H. unfold result_of, parse_metadata. by rewrite H. Qed.

Lemma parse_metadata_parsed os file_path root a t w :
  et_parse os file_path = Parsed root ->
  text_or (find_tag root DC_NS (py "creator")) (py "Unknown Author") = Some a ->
  text_or (find_tag root DC_NS (py "title")) (py "Unknown Title") = Some t ->
  parse_metadata db os file_path w =
  (Return {| author := sanitize_name db a;
             book_title := sanitize_name db t;
             series := series_of db root;
             series_index :=
               content_of (find_meta root (py "calibre:series_index")) |},
   w).
Proof.
  intros H Ha Ht. unfold parse_metadata, series_of. rewrite H, Ha, Ht.
  unfold call_sanitize_name. run_method.
  destruct (content_of (find_meta root (py "calibre:series")))
    as [[|c s]|]; reflexivity.
Qed.

Lemma parse_metadata_no_text os file_path root w :
  et_parse os file_path = Parsed root ->
  text_or (find_tag root DC_NS (py "creator")) (py "Unknown Author") = None ->
  result_of (parse_metadata db os file_path) w = Raise TypeError.
Proof.
  intros H Ha. unfold result_of, parse_metadata. by rewrite H, Ha.
Qed.

(** The four ways through [get_book_path]. *)
Lemma get_book_path_single m w :
  truthy (series m) = false ->
  get_book_path db m w =
  (Return (path_join (author m)
             [or_else (book_title m) (py "Unknown Book")]), w).
Proof. intros H. unfold get_book_path. by rewrite H. Qed.

Lemma get_book_path_indexed m w s x n :
  series m = Some s -> s ≠ [] ->
  py_float db (series_index m) = Return x -> py_int x = Return n ->
  get_book_path db m w =
  (Return (path_join (author m) [s; py "Book " ++ str_of_int n]), w).
Proof.
  intros Hs Hne Hx Hn. unfold get_book_path. rewrite Hs.
  destruct s as [|c s]; [done|]. cbn [truthy format_opt].
  run_method. by rewrite Hx, Hn.
Qed.

Lemma get_book_path_fallback m w s :
  series m = Some s -> s ≠ [] ->
  (py_float db (series_index m) = Raise TypeError \/
   py_float db (series_index m) = Raise ValueError \/
   exists x, py_float db (series_index m) = Return x /\
             py_int x = Raise ValueError) ->
  result_of (get_book_path db m) w =
  Return (path_join (author m)
            [s; or_else (book_title m) (py "Unknown Book")]).
Proof.
  intros Hs Hne H. unfold result_of, get_book_path. rewrite Hs.
  destruct s as [|c s]; [done|]. cbn [truthy format_opt].
  run_method.
  destruct H as [->|[->|(x & -> & ->)]]; reflexivity.
Qed.

Lemma get_book_path_overflow m w s neg :
  series m = Some s -> s ≠ [] ->
  py_float db (series_index m) = Return (Inf neg) ->
  get_book_path db m w = (Raise OverflowError, w).
Proof.
  intros Hs Hne Hx. unfold get_book_path. rewrite Hs.
  destruct s as [|c s]; [done|]. cbn [truthy format_opt].
  run_method. by rewrite Hx.
Qed.

Lemma float_inf : py_float db (Some (py "inf")) = Return (Inf false).
Proof. vm_compute. reflexivity. Qed.

Lemma float_two : py_float db (Some (py "2.0")) = Return (Finite false (2 ^ 52) (-51)).
Proof. vm_compute. reflexivity. Qed.

(** Series "Foundation", index "2.0": [Author/Foundation/Book 2]. *)
Lemma get_book_path_foundation w :
  get_book_path db
    {| author := py "Author"; book_title := py "Second Foundation";
       series := Some (py "Foundation"); series_index := Some (py "2.0") |} w
  = (Return (py "Author/Foundation/Book 2"), w).
Proof.
  erewrite get_book_path_indexed;
    [|reflexivity|done|apply float_two|reflexivity].
  f_equal.
Qed.
End Metadata.

(** ** Paths *)

Lemma is_sep_true c : is_sep c = true <-> c = SEP.
Proof. unfold is_sep. apply N.eqb_eq. Qed.

Lemma is_sep_SEP : is_sep SEP = true.
Proof. reflexivity. Qed.

Lemma str_eqb_eq (a b : str) : str_eqb a b = true <-> a = b.
Proof. unfold str_eqb. apply bool_decide_eq_true. Qed.

Lemma str_eqb_neq (a b : str) : str_eqb a b = false <-> a ≠ b.
Proof. unfold str_eqb. apply bool_decide_eq_false. Qed.

Lemma str_eqb_refl (a : str) : str_eqb a a = true.
Proof. by apply str_eqb_eq. Qed.

Lemma plain_inv c : plain c = true -> c ≠ [] /\ sep_free c = true.
Proof.
  unfold plain. intros [H1 H2]%andb_prop. split; [by destruct c|done].
Qed.

Lemma valid_name_inv n :
  valid_name n = true -> plain n = true /\ n ≠ DOT /\ n ≠ DOTDOT.
Proof.
  unfold valid_name. intros [[H1 H2]%andb_prop H3]%andb_prop.
  apply negb_true_iff, str_eqb_neq in H2, H3. done.
Qed.

Lemma valid_name_plain n : valid_name n = true -> plain n = true.
Proof. intros H. apply valid_name_inv in H. tauto. Qed.

Lemma sep_free_head c s : sep_free (c :: s) = true -> is_sep c = false.
Proof. unfold sep_free. cbn. intros [H _]%andb_prop. by apply negb_true_iff. Qed.

Lemma plain_head c : plain c = true -> starts_with_sep c = false.
Proof.
  intros [Hne Hf]%plain_inv. destruct c as [|x c]; [done|].
  cbn. by apply sep_free_head in Hf.
Qed.

Lemma sep_free_last (s : str) :
  sep_free s = true -> ends_with_sep s = false.
Proof.
  unfold ends_with_sep. intros Hf.
  destruct (last s) as [c|] eqn:E; [|done].
  apply last_Some in E as [s' ->].
  unfold sep_free in Hf. rewrite forallb_app in Hf.
  apply andb_prop in Hf as [_ Hf]. cbn in Hf.
  rewrite andb_true_r in Hf. by apply negb_true_iff.
Qed.

(** *** Joining components *)

Lemma join_str_app (a b : list str) :
  a ≠ [] -> b ≠ [] ->
  join_str [SEP] (a ++ b) = join_str [SEP] a ++ SEP :: join_str [SEP] b.
Proof.
  intros Ha Hb. induction a as [|x a IH]; [done|].
  destruct a as [|y a'].
  - cbn [app]. rewrite join_str_cons by done. reflexivity.
  - change ((x :: y :: a') ++ b) with (x :: (y :: a') ++ b).
    rewrite join_str_cons by done. rewrite IH by done.
    rewrite (join_str_cons _ x (y :: a')) by done.
    by rewrite <- !app_assoc.
Qed.

Lemma join_str_snoc (a : list str) (x : str) :
  a ≠ [] ->
  join_str [SEP] (a ++ [x]) = join_str [SEP] a ++ SEP :: x.
Proof. intros Ha. by rewrite join_str_app. Qed.

(** Splitting the joined components gives them back. *)
Lemma split_join (cs : list str) :
  cs ≠ [] -> forallb sep_free cs = true ->
  split_on is_sep (join_str [SEP] cs) = cs.
Proof.
  induction cs as [|c cs IH]; [done|]. intros _ [Hc Hcs]%andb_prop.
  destruct cs as [|c' cs'].
  - cbn. by apply split_on_free.
  - rewrite join_str_cons by done. cbn [app].
    rewrite split_on_app_sep by apply is_sep_SEP.
    rewrite split_on_free by done. rewrite IH by done. reflexivity.
Qed.

Lemma forallb_plain_sep_free (cs : list str) :
  forallb plain cs = true -> forallb sep_free cs = true.
Proof.
  induction cs as [|c cs IH]; [done|]. cbn.
  intros [Hc Hcs]%andb_prop. apply plain_inv in Hc as [_ ->]. by apply IH.
Qed.

Lemma join_plain_head (cs : list str) :
  forallb plain cs = true -> starts_with_sep (join_str [SEP] cs) = false.
Proof.
  destruct cs as [|c cs]; [done|]. cbn [forallb].
  intros [Hc _]%andb_prop. pose proof (plain_head _ Hc) as Hh.
  apply plain_inv in Hc as [Hne _].
  destruct c as [|x c]; [done|]. by destruct cs.
Qed.

Lemma join_plain_last (cs : list str) :
  forallb plain cs = true -> ends_with_sep (join_str [SEP] cs) = false.
Proof.
  induction cs as [|c cs IH]; [done|]. cbn [forallb].
  intros [Hc Hcs]%andb_prop. apply plain_inv in Hc as [Hne Hf].
  destruct cs as [|c' cs'].
  - cbn. by apply sep_free_last.
  - rewrite join_str_cons by done. specialize (IH Hcs).
    unfold ends_with_sep in *. rewrite !last_app.
    destruct (last (join_str [SEP] (c' :: cs'))) eqn:E; [done|].
    apply last_None in E. cbn [forallb] in Hcs.
    apply andb_prop in Hcs as [Hc' _]. apply plain_inv in Hc' as [Hne' _].
    destruct c'; [done|]. by destruct cs'.
Qed.

Lemma join_plain_nonempty (cs : list str) :
  cs ≠ [] -> forallb plain cs = true -> join_str [SEP] cs ≠ [].
Proof.
  destruct cs as [|c cs]; [done|]. cbn [forallb].
  intros _ [Hc _]%andb_prop. apply plain_inv in Hc as [Hne _].
  destruct c; [done|]. by destruct cs.
Qed.

(** *** [os.path.join] *)

Lemma join2_plain (path b : str) :
  path ≠ [] -> ends_with_sep path = false -> starts_with_sep b = false ->
  join2 path b = path ++ SEP :: b.
Proof.
  intros Hp He Hb. unfold join2. rewrite Hb, He.
  by destruct path.
Qed.

Lemma join2_after_sep (path b : str) :
  ends_with_sep path = true -> starts_with_sep b = false ->
  join2 path b = path ++ b.
Proof.
  intros He Hb. unfold join2. rewrite Hb, He. by rewrite orb_true_r.
Qed.

Lemma join2_empty (b : str) : join2 [] b = b.
Proof. unfold join2. by destruct (starts_with_sep b). Qed.

(** *** [normpath] *)

Lemma normpath_step_skip k st : normpath_step k st [] = st.
Proof. reflexivity. Qed.

(** A valid name is pushed. *)
Lemma normpath_step_push k st n :
  valid_name n = true -> normpath_step k st n = n :: st.
Proof.
  intros (Hp & Hd & Hdd)%valid_name_inv. apply plain_inv in Hp as [Hne _].
  unfold normpath_step.
  apply str_eqb_neq in Hne, Hd, Hdd. by rewrite Hne, Hd, Hdd.
Qed.

(** What one step does to the stack: nothing, a push or a pop. *)
Lemma normpath_step_cases k st c :
  normpath_step k st c = st \/
  (normpath_step k st c = c :: st /\ c ≠ []) \/
  (exists x, st = x :: normpath_step k st c).
Proof.
  unfold normpath_step.
  destruct (str_eqb c []) eqn:E1; [by left|].
  destruct (str_eqb c DOT); [by left|]. cbn [orb].
  apply str_eqb_neq in E1.
  match goal with |- context [if ?b then _ else _] => destruct b end.
  - right. by left.
  - destruct st as [|x st']; [by left|]. right. right. by exists x.
Qed.

Lemma fold_normpath_push k (ns : list str) st :
  forallb valid_name ns = true ->
  fold_left (normpath_step k) ns st = rev ns ++ st.
Proof.
  revert st. induction ns as [|n ns IH]; intros st; [done|]. cbn [forallb].
  intros [Hn Hns]%andb_prop. cbn [fold_left rev].
  rewrite normpath_step_push by done. rewrite IH by done.
  by rewrite <- app_assoc.
Qed.

Lemma norm_abs_app_names (cs ns : list str) :
  forallb valid_name ns = true -> norm_abs (cs ++ ns) = norm_abs cs ++ ns.
Proof.
  intros H. unfold norm_abs. rewrite fold_left_app.
  rewrite fold_normpath_push by done. by rewrite rev_app_distr, rev_involutive.
Qed.

(** The stack holds components when the input pieces have no slash. *)
Lemma fold_normpath_plain k (cs : list str) st :
  forallb sep_free cs = true -> forallb plain st = true ->
  forallb plain (fold_left (normpath_step k) cs st) = true.
Proof.
  revert st. induction cs as [|c cs IH]; intros st; [done|]. cbn [forallb].
  intros [Hc Hcs]%andb_prop Hst. cbn [fold_left]. apply IH; [done|].
  destruct (normpath_step_cases k st c) as [->|[[-> Hne]|[x Hx]]]; [done| |].
  - cbn [forallb]. rewrite Hst, andb_true_r. unfold plain. rewrite Hc.
    by destruct c.
  - rewrite Hx in Hst. cbn [forallb] in Hst. by apply andb_prop in Hst as [_ ?].
Qed.

Lemma forallb_rev {A} (f : A -> bool) (l : list A) :
  forallb f (rev l) = forallb f l.
Proof.
  induction l as [|x l IH]; [done|]. cbn [rev forallb].
  rewrite forallb_app, IH. cbn. rewrite andb_true_r. apply andb_comm.
Qed.

Lemma norm_abs_plain (cs : list str) :
  forallb sep_free cs = true -> forallb plain (norm_abs cs) = true.
Proof.
  intros H. unfold norm_abs. rewrite forallb_rev.
  by apply fold_normpath_plain.
Qed.

Lemma initial_slashes_single (q : str) :
  starts_with_sep q = false -> initial_slashes (SEP :: q) = 1%nat.
Proof.
  intros Hq. unfold initial_slashes, starts_with. cbn [starts_with_sep].
  rewrite is_sep_SEP.
  destruct q as [|c q]; [reflexivity|].
  cbn in Hq. apply not_true_iff_false in Hq. rewrite is_sep_true in Hq.
  assert (str_eqb (take (length (py "//")) (SEP :: c :: q)) (py "//") = false)
    as ->; [|done].
  apply str_eqb_neq. intros E. injection E as E. by apply Hq.
Qed.

(** [normpath] on an absolute path with a single leading slash. *)
Lemma normpath_absolute (q : str) :
  starts_with_sep q = false ->
  normpath (SEP :: q) = abs_of (norm_abs (split_on is_sep q)).
Proof.
  intros Hq. unfold normpath.
  replace (str_eqb (SEP :: q) []) with false by done.
  rewrite initial_slashes_single by done.
  rewrite split_on_cons_sep by apply is_sep_SEP.
  cbn [fold_left]. rewrite normpath_step_skip. reflexivity.
Qed.

Lemma normpath_abs_of (cs : list str) :
  forallb plain cs = true -> normpath (abs_of cs) = abs_of (norm_abs cs).
Proof.
  intros H. unfold abs_of at 1.
  rewrite normpath_absolute by (by apply join_plain_head).
  destruct cs as [|c cs]; [reflexivity|].
  rewrite split_join; [done|done|]. by apply forallb_plain_sep_free.
Qed.

(** *** [dirname] and [basename] *)

Lemma rfind_sep_free (x : str) : sep_free x = true -> rfind SEP x = (-1)%Z.
Proof.
  induction x as [|c x IH]; [done|]. intros H.
  pose proof (sep_free_head _ _ H) as Hc.
  unfold sep_free in H. cbn in H. apply andb_prop in H as [_ H].
  cbn [rfind]. rewrite IH by done. cbn. unfold is_sep in Hc. by rewrite Hc.
Qed.

Lemma rfind_last_sep (a x : str) :
  sep_free x = true -> rfind SEP (a ++ SEP :: x) = Z.of_nat (length a).
Proof.
  intros Hx. induction a as [|c a IH].
  - cbn [app rfind length]. rewrite rfind_sep_free by done. reflexivity.
  - cbn [app rfind length]. rewrite IH.
    destruct (0 <=? Z.of_nat (length a))%Z eqn:E; [lia|].
    apply Z.leb_gt in E. lia.
Qed.

Lemma rstrip_snoc (p : N -> bool) (s : str) c :
  p c = true -> rstrip p (s ++ [c]) = rstrip p s.
Proof.
  intros Hc. induction s as [|x s IH]; cbn [app rstrip].
  - by rewrite Hc.
  - by rewrite IH.
Qed.

Lemma abs_of_snoc (l : list str) (x : str) :
  abs_of (l ++ [x]) =
  (match l with [] => [] | _ => abs_of l end) ++ SEP :: x.
Proof.
  destruct l as [|c l]; [reflexivity|].
  unfold abs_of. rewrite join_str_snoc by done. reflexivity.
Qed.

Lemma dirname_abs_of (l : list str) (x : str) :
  forallb plain l = true -> plain x = true ->
  dirname (abs_of (l ++ [x])) = abs_of l.
Proof.
  intros Hl Hx. apply plain_inv in Hx as [_ Hx].
  rewrite abs_of_snoc. unfold dirname.
  rewrite rfind_last_sep by done.
  replace (Z.to_nat (Z.of_nat _ + 1)) with (S (length (match l with [] => [] | _ => abs_of l end))) by lia.
  set (a := match l with [] => [] | _ => abs_of l end).
  replace (take (S (length a)) (a ++ SEP :: x)) with (a ++ [SEP]).
  2:{ change (a ++ SEP :: x) with (a ++ [SEP] ++ x). rewrite app_assoc.
      rewrite take_app_length'; [done|]. rewrite length_app. cbn. lia. }
  destruct l as [|c l]; [reflexivity|]. subst a.
  assert (forallb is_sep (abs_of (c :: l) ++ [SEP]) = false) as ->.
  { unfold abs_of. cbn [app forallb]. rewrite is_sep_SEP. cbn [andb].
    cbn [forallb] in Hl. apply andb_prop in Hl as [Hc _].
    pose proof (plain_head _ Hc) as Hh. apply plain_inv in Hc as [Hne _].
    destruct c as [|y c]; [done|]. cbn in Hh.
    destruct l; cbn; by rewrite Hh. }
  replace (nonempty (abs_of (c :: l) ++ [SEP])) with true by done.
  cbn [andb negb]. rewrite rstrip_snoc by apply is_sep_SEP.
  apply rstrip_free_last.
  pose proof (join_plain_last _ Hl) as He. unfold ends_with_sep in He.
  unfold abs_of.
  destruct (join_str [SEP] (c :: l)) as [|y r] eqn:E.
  - by apply join_plain_nonempty in E.
  - change (SEP :: y :: r) with ([SEP] ++ y :: r). rewrite last_app.
    destruct (last (y :: r)) eqn:EL; [done|]. by apply last_None in EL.
Qed.

Lemma basename_abs_of (l : list str) (x : str) :
  plain x = true -> basename (abs_of (l ++ [x])) = x.
Proof.
  intros Hx. apply plain_inv in Hx as [_ Hx].
  rewrite abs_of_snoc. unfold basename.
  rewrite rfind_last_sep by done.
  set (a := match l with [] => [] | _ => abs_of l end).
  replace (Z.to_nat (Z.of_nat (length a) + 1)) with (length (a ++ [SEP]))
    by (rewrite length_app; cbn; lia).
  change (a ++ SEP :: x) with (a ++ [SEP] ++ x). rewrite app_assoc.
  by rewrite drop_app_length.
Qed.

Lemma dirname_ROOT : dirname ROOT = ROOT.
Proof. reflexivity. Qed.

Lemma basename_ROOT : basename ROOT = [].
Proof. reflexivity. Qed.

(** Components are determined by the path. *)
Lemma abs_of_inj (a b : list str) :
  forallb plain a = true -> forallb plain b = true ->
  abs_of a = abs_of b -> a = b.
Proof.
  intros Ha Hb E. unfold abs_of in E. injection E as E.
  destruct a as [|x a], b as [|y b]; [done| | |].
  - symmetry in E. by apply join_plain_nonempty in E.
  - by apply join_plain_nonempty in E.
  - rewrite <- (split_join (x :: a)), <- (split_join (y :: b));
      [by rewrite E|done|by apply forallb_plain_sep_free
      |done|by apply forallb_plain_sep_free].
Qed.

(** *** Extending a path by names, and [relpath] *)

Lemma eqb_pair_sep c1 c2 :
  str_eqb [c1; c2] (py "//") = is_sep c1 && is_sep c2.
Proof.
  unfold is_sep. destruct (N.eqb_spec c1 SEP) as [->|H1].
  - destruct (N.eqb_spec c2 SEP) as [->|H2]; [reflexivity|].
    apply str_eqb_neq. intros E. injection E as E. done.
  - apply str_eqb_neq. intros E. injection E as E _. done.
Qed.

Lemma eqb_triple_sep c1 c2 c3 :
  str_eqb [c1; c2; c3] (py "///") = is_sep c1 && is_sep c2 && is_sep c3.
Proof.
  unfold is_sep. destruct (N.eqb_spec c1 SEP) as [->|H1].
  - destruct (N.eqb_spec c2 SEP) as [->|H2].
    + destruct (N.eqb_spec c3 SEP) as [->|H3]; [reflexivity|].
      apply str_eqb_neq. intros E. injection E as E. done.
    + apply str_eqb_neq. intros E. injection E as E _. done.
  - apply str_eqb_neq. intros E. injection E as E _ _. done.
Qed.

Lemma str_eqb_length (a b : str) : length a ≠ length b -> str_eqb a b = false.
Proof. intros H. apply str_eqb_neq. intros ->. done. Qed.

(** [initial_slashes] by cases on the first three characters. *)
Lemma initial_slashes_cases (s : str) :
  initial_slashes s =
  match s with
  | [] => 0%nat
  | c1 :: r1 =>
      if is_sep c1 then
        match r1 with
        | [] => 1%nat
        | c2 :: r2 =>
            if is_sep c2 then
              match r2 with
              | [] => 2%nat
              | c3 :: _ => if is_sep c3 then 1%nat else 2%nat
              end
            else 1%nat
        end
      else 0%nat
  end.
Proof.
  unfold initial_slashes, starts_with.
  destruct s as [|c1 [|c2 [|c3 r3]]]; cbn [starts_with_sep].
  - reflexivity.
  - destruct (is_sep c1); [|done].
    change (take (length (py "//")) [c1]) with [c1].
    by rewrite str_eqb_length.
  - destruct (is_sep c1) eqn:E1; [|done].
    change (take (length (py "//")) [c1; c2]) with [c1; c2].
    change (take (length (py "///")) [c1; c2]) with [c1; c2].
    rewrite eqb_pair_sep, E1, (str_eqb_length [c1; c2]) by done.
    by destruct (is_sep c2).
  - destruct (is_sep c1) eqn:E1; [|done].
    change (take (length (py "//")) (c1 :: c2 :: c3 :: r3)) with [c1; c2].
    change (take (length (py "///")) (c1 :: c2 :: c3 :: r3)) with [c1; c2; c3].
    rewrite eqb_pair_sep, eqb_triple_sep, E1.
    by destruct (is_sep c2), (is_sep c3).
Qed.

Lemma ends_with_sep_app (a x : str) :
  x ≠ [] -> ends_with_sep (a ++ x) = ends_with_sep x.
Proof.
  intros Hx. unfold ends_with_sep. rewrite last_app.
  destruct (last x) eqn:E; [done|]. by apply last_None in E.
Qed.

Lemma ends_with_sep_inv (s : str) :
  ends_with_sep s = true -> exists s', s = s' ++ [SEP].
Proof.
  unfold ends_with_sep. destruct (last s) as [c|] eqn:E; [|done].
  intros Hc. apply is_sep_true in Hc as ->. by apply last_Some in E.
Qed.

Lemma valid_name_head n : valid_name n = true -> starts_with_sep n = false.
Proof. intros H. by apply plain_head, valid_name_plain. Qed.

Lemma valid_name_last n : valid_name n = true -> ends_with_sep n = false.
Proof.
  intros H. apply valid_name_plain, plain_inv in H as [_ H].
  by apply sep_free_last.
Qed.

Lemma valid_name_nonempty n : valid_name n = true -> n ≠ [].
Proof. intros H. by apply valid_name_plain, plain_inv in H as [H _]. Qed.

Lemma valid_name_sep_free n : valid_name n = true -> sep_free n = true.
Proof. intros H. by apply valid_name_plain, plain_inv in H as [_ H]. Qed.

(** The two shapes of [join2 p n] for a name [n]. *)
Lemma join2_name (p n : str) :
  valid_name n = true ->
  join2 p n =
  if negb (nonempty p) || ends_with_sep p then p ++ n else p ++ SEP :: n.
Proof. intros H. unfold join2. by rewrite valid_name_head. Qed.

Section Extend.
Variables (p n : str).
Hypothesis Hp : p ≠ [].
Hypothesis Hn : valid_name n = true.

Lemma join2_name_nonempty : join2 p n ≠ [].
Proof.
  rewrite join2_name by done.
  destruct p; [done|]. by destruct (_ || _).
Qed.

Lemma join2_name_head : starts_with_sep (join2 p n) = starts_with_sep p.
Proof.
  rewrite join2_name by done.
  destruct p; [done|]. by destruct (_ || _).
Qed.

Lemma join2_name_last : ends_with_sep (join2 p n) = false.
Proof.
  rewrite join2_name by done. pose proof (valid_name_last _ Hn) as Hl.
  pose proof (valid_name_nonempty _ Hn) as Hne.
  destruct (_ || _).
  - by rewrite ends_with_sep_app.
  - change (p ++ SEP :: n) with (p ++ [SEP] ++ n).
    by rewrite app_assoc, ends_with_sep_app.
Qed.

Lemma join2_name_initial_slashes :
  initial_slashes (join2 p n) = initial_slashes p.
Proof.
  rewrite join2_name by done. rewrite !initial_slashes_cases.
  pose proof (valid_name_head _ Hn) as Hh.
  pose proof (valid_name_nonempty _ Hn) as Hne.
  destruct n as [|n0 n']; [done|]. cbn in Hh.
  destruct p as [|c1 [|c2 [|c3 r3]]]; [done| | |].
  - unfold ends_with_sep. cbn.
    destruct (is_sep c1) eqn:E1; cbn; rewrite ?E1, ?Hh, ?is_sep_SEP; done.
  - unfold ends_with_sep. cbn.
    destruct (is_sep c1) eqn:E1, (is_sep c2) eqn:E2; cbn;
      rewrite ?E1, ?E2, ?Hh, ?is_sep_SEP; done.
  - cbn [nonempty negb orb].
    by destruct (ends_with_sep (c1 :: c2 :: c3 :: r3)).
Qed.

Lemma join2_name_stack k :
  fold_left (normpath_step k) (split_on is_sep (join2 p n)) [] =
  n :: fold_left (normpath_step k) (split_on is_sep p) [].
Proof.
  rewrite join2_name by done.
  pose proof (valid_name_sep_free _ Hn) as Hf.
  destruct p as [|c p']; [done|]. cbn [nonempty negb orb].
  destruct (ends_with_sep (c :: p')) eqn:He.
  - apply ends_with_sep_inv in He as [s' ->].
    rewrite <- app_assoc. cbn [app].
    rewrite !split_on_app_sep by apply is_sep_SEP.
    rewrite (split_on_free is_sep n) by exact Hf.
    rewrite !fold_left_app. cbn [split_on fold_left].
    rewrite normpath_step_skip. by apply normpath_step_push.
  - rewrite split_on_app_sep by apply is_sep_SEP.
    rewrite (split_on_free is_sep n) by exact Hf.
    rewrite fold_left_app. cbn [fold_left]. by apply normpath_step_push.
Qed.
End Extend.

Lemma path_join_names_facts (p : str) (ns : list str) k :
  p ≠ [] -> forallb valid_name ns = true ->
  path_join p ns ≠ [] /\
  starts_with_sep (path_join p ns) = starts_with_sep p /\
  initial_slashes (path_join p ns) = initial_slashes p /\
  fold_left (normpath_step k) (split_on is_sep (path_join p ns)) [] =
  rev ns ++ fold_left (normpath_step k) (split_on is_sep p) [].
Proof.
  revert p. induction ns as [|n ns IH]; intros p Hp Hns; [done|].
  cbn [forallb] in Hns. apply andb_prop in Hns as [Hn Hns].
  unfold path_join. cbn [fold_left]. fold (path_join (join2 p n) ns).
  destruct (IH (join2 p n)) as (H1 & H2 & H3 & H4);
    [by apply join2_name_nonempty|done|].
  rewrite H2, H3, H4.
  rewrite join2_name_head, join2_name_initial_slashes, join2_name_stack by done.
  cbn [rev]. by rewrite <- app_assoc.
Qed.

Lemma path_join_snoc (p : str) (ns : list str) (n : str) :
  path_join p (ns ++ [n]) = join2 (path_join p ns) n.
Proof. unfold path_join. by rewrite fold_left_app. Qed.

(** Joining names gives the names separated by slashes. *)
Lemma path_join_names (n : str) (ns : list str) :
  forallb valid_name (n :: ns) = true ->
  path_join n ns = join_str [SEP] (n :: ns).
Proof.
  induction ns as [|m ns IH] using rev_ind; [done|].
  rewrite app_comm_cons, forallb_app. intros [H1 H2]%andb_prop.
  cbn [forallb] in H2. rewrite andb_true_r in H2.
  rewrite path_join_snoc, IH by done.
  assert (forallb plain (n :: ns) = true) as Hpl.
  { clear -H1. induction (n :: ns) as [|x l IHl]; [done|]. cbn [forallb] in *.
    apply andb_prop in H1 as [Hx Hl]. by rewrite valid_name_plain, IHl. }
  rewrite join2_plain;
    [|by apply join_plain_nonempty|by apply join_plain_last
     |by apply valid_name_head].
  by rewrite join_str_snoc.
Qed.

Lemma forallb_valid_plain (ns : list str) :
  forallb valid_name ns = true -> forallb plain ns = true.
Proof.
  induction ns as [|x l IH]; [done|]. cbn [forallb].
  intros [Hx Hl]%andb_prop. by rewrite valid_name_plain, IH.
Qed.

(** [join2 cwd] commutes with extending a relative path by names. *)
Lemma join2_path_join (cwd p : str) (ns : list str) :
  p ≠ [] -> starts_with_sep p = false -> forallb valid_name ns = true ->
  join2 cwd (path_join p ns) = path_join (join2 cwd p) ns.
Proof.
  intros Hp Hrel. induction ns as [|n ns IH] using rev_ind; [done|].
  rewrite forallb_app. intros [H1 H2]%andb_prop.
  cbn [forallb] in H2. rewrite andb_true_r in H2.
  rewrite !path_join_snoc, <- IH by done.
  destruct (path_join_names_facts p ns 0 Hp H1) as (Hne & Hh & _ & _).
  set (x := path_join p ns) in *. rewrite Hrel in Hh.
  rewrite (join2_name x n) by done.
  assert (nonempty x = true) as -> by (by destruct x).
  cbn [negb orb].
  assert (forall t, starts_with_sep (x ++ t) = false) as Ht.
  { intros t. by destruct x. }
  assert (forall y, starts_with_sep y = false -> y ≠ [] ->
            ends_with_sep (join2 cwd y) = ends_with_sep y /\
            nonempty (join2 cwd y) = true /\
            forall t, join2 cwd (y ++ t) = join2 cwd y ++ t) as Hj.
  { intros y Hy Hyne. unfold join2. rewrite Hy.
    assert (forall t, starts_with_sep (y ++ t) = false) as Hyt
      by (intros; by destruct y).
    destruct (negb (nonempty cwd) || ends_with_sep cwd).
    - split; [by apply ends_with_sep_app|].
      split; [by destruct cwd, y|].
      intros t. by rewrite Hyt, app_assoc.
    - split.
      { change (cwd ++ SEP :: y) with (cwd ++ [SEP] ++ y).
        rewrite app_assoc. by apply ends_with_sep_app. }
      split; [by destruct cwd|].
      intros t. rewrite Hyt. by rewrite <- app_assoc. }
  destruct (Hj x Hh Hne) as (He & Hn & Happ).
  rewrite (join2_name (join2 cwd x) n) by done.
  rewrite Hn, He. cbn [negb orb].
  destruct (ends_with_sep x); by rewrite Happ.
Qed.

Lemma split_slashes_components k (cs : list str) :
  forallb plain cs = true ->
  List.filter nonempty
    (split_on is_sep (replicate k SEP ++ join_str [SEP] cs)) = cs.
Proof.
  intros H. induction k as [|k IH].
  - cbn [replicate app]. destruct cs as [|c cs]; [reflexivity|].
    rewrite split_join; [|done|by apply forallb_plain_sep_free].
    clear -H. induction (c :: cs) as [|x l IHl]; [done|].
    cbn [forallb] in H. apply andb_prop in H as [Hx Hl].
    cbn [List.filter]. apply plain_inv in Hx as [Hx _].
    destruct x; [done|]. cbn [nonempty]. by rewrite IHl.
  - cbn [replicate app]. rewrite split_on_cons_sep by apply is_sep_SEP.
    cbn [List.filter nonempty]. exact IH.
Qed.

Lemma commonprefix_app (a b : list str) : commonprefix a (a ++ b) = a.
Proof.
  induction a as [|x a IH]; [by destruct b|].
  cbn [app commonprefix]. by rewrite str_eqb_refl, IH.
Qed.

Section Relpath.
Variables (cwd top : str).
Hypothesis Hcwd : starts_with_sep cwd = true.
Hypothesis Htop : top ≠ [].

Lemma anchored_nonempty : anchored cwd top ≠ [].
Proof.
  unfold anchored. destruct (starts_with_sep top); [done|].
  unfold path_join, join2. cbn [fold_left].
  destruct (starts_with_sep top); [done|].
  destruct cwd; [done|]. by destruct (_ || _).
Qed.

Lemma anchored_head : starts_with_sep (anchored cwd top) = true.
Proof.
  unfold anchored. destruct (starts_with_sep top) eqn:E; [done|].
  unfold path_join, join2. cbn [fold_left]. rewrite E.
  destruct cwd; [done|]. by destruct (_ || _).
Qed.

Lemma anchored_path_join (ns : list str) :
  forallb valid_name ns = true ->
  anchored cwd (path_join top ns) = path_join (anchored cwd top) ns.
Proof.
  intros Hns. unfold anchored.
  destruct (path_join_names_facts top ns 0 Htop Hns) as (_ & -> & _).
  destruct (starts_with_sep top) eqn:E; [done|].
  change (path_join cwd [path_join top ns])
    with (join2 cwd (path_join top ns)).
  by rewrite join2_path_join.
Qed.

Lemma abspath_components (ns : list str) :
  forallb valid_name ns = true ->
  List.filter nonempty (split_on is_sep (abspath cwd (path_join top ns))) =
  List.filter nonempty (split_on is_sep (abspath cwd top)) ++ ns.
Proof.
  intros Hns.
  assert (forall ms, forallb valid_name ms = true ->
            List.filter nonempty
              (split_on is_sep (abspath cwd (path_join top ms))) =
            rev (fold_left (normpath_step (initial_slashes (anchored cwd top)))
                   (split_on is_sep (anchored cwd top)) []) ++ ms) as H.
  { intros ms Hms. unfold abspath. fold (anchored cwd (path_join top ms)).
    rewrite anchored_path_join by done.
    destruct (path_join_names_facts (anchored cwd top) ms
                (initial_slashes (anchored cwd top)) anchored_nonempty Hms)
      as (Hne & Hh & Hi & Hst).
    unfold normpath. apply str_eqb_neq in Hne. rewrite Hne.
    rewrite Hi, Hst. rewrite rev_app_distr, rev_involutive.
    pose proof anchored_head as Ha.
    assert (exists k, initial_slashes (anchored cwd top) = S k) as [k Hk].
    { rewrite initial_slashes_cases. destruct (anchored cwd top) as [|c1 r1];
        [done|]. cbn in Ha. rewrite Ha.
      destruct r1 as [|c2 [|c3 r3]]; [by eexists| |].
      - destruct (is_sep c2); by eexists.
      - destruct (is_sep c2), (is_sep c3); by eexists. }
    rewrite Hk. cbn [replicate app nonempty].
    change (SEP :: replicate k SEP ++ ?x) with (replicate (S k) SEP ++ x).
    apply split_slashes_components.
    rewrite forallb_app, forallb_rev.
    rewrite fold_normpath_plain; [by apply forallb_valid_plain| |done].
    pose proof (split_on_pieces_free is_sep (anchored cwd top)) as HF.
    apply forallb_forall. rewrite Forall_forall in HF.
    intros x Hx. apply HF. by apply list_elem_of_In. }
  rewrite (H ns Hns). specialize (H [] eq_refl).
  change (path_join top []) with top in H. by rewrite H, app_nil_r.
Qed.

Lemma relpath_names (ns : list str) :
  forallb valid_name ns = true ->
  relpath cwd (path_join top ns) top =
  Some (match ns with [] => DOT | _ => join_str [SEP] ns end).
Proof.
  intros Hns. unfold relpath.
  destruct (path_join_names_facts top ns 0 Htop Hns) as (Hne & _).
  apply str_eqb_neq in Hne. rewrite Hne.
  rewrite abspath_components by done.
  rewrite commonprefix_app, Nat.sub_diag. cbn [replicate app].
  rewrite drop_app_length.
  destruct ns as [|n ns']; [done|]. by rewrite path_join_names.
Qed.
End Relpath.

(** ** The invariant of the index *)

Lemma registered_mono (fs fs' : BookFS) cs :
  directories fs ⊆ directories fs' -> registered fs cs -> registered fs' cs.
Proof. intros Hsub [->|H]; [by left|right; by apply Hsub]. Qed.

Lemma index_inv_empty r :
  index_inv {| root_dir := r; files := ∅; directories := ∅ |}.
Proof.
  split; cbn.
  - intros k Hk. rewrite dom_empty_L in Hk. set_solver.
  - intros d Hd. set_solver.
Qed.

Lemma add_directory_inv (fs : BookFS) (cs : list str) :
  index_inv fs -> forallb plain cs = true ->
  (forall cs' x, cs = cs' ++ [x] -> registered fs cs') ->
  index_inv (add_directory (abs_of cs) fs).
Proof.
  intros [Hf Hd] Hcs Hpar.
  assert (directories fs ⊆ directories (add_directory (abs_of cs) fs)) as Hsub
    by (cbn; set_solver).
  split.
  - intros k Hk. destruct (Hf k Hk) as (cs0 & x & H1 & H2 & H3 & H4).
    exists cs0, x. eauto using registered_mono.
  - intros d Hin. cbn in Hin. apply elem_of_union in Hin as [Hin|Hin].
    + apply elem_of_singleton in Hin as ->. exists cs.
      split; [done|]. split; [done|].
      intros cs' x E. eapply registered_mono; [done|]. by eapply Hpar.
    + destruct (Hd d Hin) as (cs0 & H1 & H2 & H3). exists cs0.
      split; [done|]. split; [done|].
      intros cs' x E. eapply registered_mono; [done|]. by eapply H3.
Qed.

Lemma add_directory_child_inv (fs : BookFS) (cs : list str) (x : str) :
  index_inv fs -> forallb plain cs = true -> plain x = true ->
  registered fs cs -> index_inv (add_directory (abs_of (cs ++ [x])) fs).
Proof.
  intros Hinv Hcs Hx Hreg. apply add_directory_inv; [done| |].
  - rewrite forallb_app, Hcs. cbn. by rewrite Hx.
  - intros cs' y E. apply app_inj_tail in E as [-> _]. done.
Qed.

Lemma set_file_inv (fs : BookFS) (cs : list str) (x v : str) :
  index_inv fs -> forallb plain cs = true -> plain x = true ->
  registered fs cs -> index_inv (set_file (abs_of (cs ++ [x])) v fs).
Proof.
  intros [Hf Hd] Hcs Hx Hreg. split.
  - intros k Hk. cbn in Hk. rewrite dom_insert_L in Hk.
    apply elem_of_union in Hk as [Hk|Hk].
    + apply elem_of_singleton in Hk as ->. by exists cs, x.
    + by apply Hf.
  - intros d Hin. by apply Hd.
Qed.

(** The parent of a stored directory is registered. *)
Lemma registered_parent (fs : BookFS) (cs : list str) (x : str) :
  index_inv fs -> forallb plain (cs ++ [x]) = true ->
  registered fs (cs ++ [x]) -> registered fs cs.
Proof.
  intros [_ Hd] Hpl [E|Hin]; [by destruct cs|].
  destruct (Hd _ Hin) as (cs0 & H1 & H2 & H3).
  apply abs_of_inj in H2; [|done..]. by eapply H3.
Qed.

(** The parent of every entry of the index is the root or a stored
    directory. *)
Lemma index_inv_parent (fs : BookFS) (e : str) :
  index_inv fs -> e ∈ dom (files fs) \/ e ∈ directories fs ->
  dirname e = ROOT \/ dirname e ∈ directories fs.
Proof.
  intros [Hf Hd] [Hk|Hin].
  - destruct (Hf e Hk) as (cs & x & H1 & H2 & -> & H4).
    rewrite dirname_abs_of by done. destruct H4 as [->|H4]; [by left|by right].
  - destruct (Hd e Hin) as (cs & H1 & -> & H3).
    destruct cs as [|c cs _] using rev_ind; [by left|].
    rewrite forallb_app in H1. apply andb_prop in H1 as [H1 H2].
    cbn in H2. rewrite andb_true_r in H2.
    rewrite dirname_abs_of by done.
    destruct (H3 cs c eq_refl) as [->|H4]; [by left|by right].
Qed.

Lemma index_inv_ancestor (fs : BookFS) (k : str) (n : nat) :
  index_inv fs -> k ∈ dom (files fs) -> (0 < n)%nat ->
  ancestor n k = ROOT \/ ancestor n k ∈ directories fs.
Proof.
  intros Hinv Hk Hn. destruct n as [|n]; [lia|]. clear Hn.
  induction n as [|n IH].
  - cbn. apply index_inv_parent; auto.
  - cbn [ancestor] in *. destruct IH as [->|IH]; [by left|].
    apply index_inv_parent; auto.
Qed.

(** *** The prefixes of the virtual book path *)

Lemma norm_abs_snoc_cases (l : list str) (c : str) :
  norm_abs (l ++ [c]) = norm_abs l \/
  (norm_abs (l ++ [c]) = norm_abs l ++ [c] /\ c ≠ []) \/
  (exists x, norm_abs l = norm_abs (l ++ [c]) ++ [x]).
Proof.
  unfold norm_abs. rewrite fold_left_app. cbn [fold_left].
  destruct (normpath_step_cases 1 (fold_left (normpath_step 1) l []) c)
    as [->|[[-> Hne]|[x Hx]]].
  - by left.
  - right. left. done.
  - right. right. exists x. rewrite Hx at 1. reflexivity.
Qed.

Lemma register_prefixes_inv (cs : list str) (fs : BookFS) :
  index_inv fs -> forallb sep_free cs = true ->
  index_inv (register_prefixes cs fs) /\
  directories fs ⊆ directories (register_prefixes cs fs) /\
  files (register_prefixes cs fs) = files fs /\
  registered (register_prefixes cs fs) (norm_abs cs).
Proof.
  intros Hinv Hcs. unfold register_prefixes.
  set (step := fun fs i => add_directory (abs_of (norm_abs (take i cs))) fs).
  assert (forall n, (n <= length cs)%nat ->
            index_inv (fold_left step (seq 1 n) fs) /\
            directories fs ⊆ directories (fold_left step (seq 1 n) fs) /\
            files (fold_left step (seq 1 n) fs) = files fs /\
            registered (fold_left step (seq 1 n) fs) (norm_abs (take n cs)))
    as H.
  { induction n as [|n IH]; intros Hn.
    - cbn. split; [done|]. split; [done|]. split; [done|]. by left.
    - destruct IH as (I1 & I2 & I3 & I4); [lia|].
      rewrite seq_S, fold_left_app. cbn [fold_left Nat.add].
      set (fs' := fold_left step (seq 1 n) fs) in *.
      destruct (lookup_lt_is_Some_2 cs n) as [c Hc]; [lia|].
      assert (take (S n) cs = take n cs ++ [c]) as Etake
        by (by apply take_S_r).
      assert (sep_free c = true) as Hsf.
      { rewrite forallb_forall in Hcs. apply Hcs.
        apply list_elem_of_In. by eapply list_elem_of_lookup_2. }
      assert (forallb sep_free (take n cs) = true) as Hsfn.
      { apply forallb_forall. intros x Hx. rewrite forallb_forall in Hcs.
        apply Hcs. apply list_elem_of_In in Hx. apply list_elem_of_In.
        by eapply subseteq_take. }
      pose proof (norm_abs_plain _ Hsfn) as Hpl.
      assert (index_inv (step fs' (S n)) /\
              registered (step fs' (S n)) (norm_abs (take (S n) cs))) as [J1 J2].
      { unfold step. rewrite Etake.
        destruct (norm_abs_snoc_cases (take n cs) c) as [E|[[E Hne]|[x E]]].
        - rewrite E. split.
          + apply add_directory_inv; [done|done|].
            intros cs' x Ecs. eapply registered_parent; [done| |];
              by rewrite <- Ecs.
          + right. cbn. set_solver.
        - rewrite E. split.
          + apply add_directory_child_inv; [done|done| |done].
            unfold plain. rewrite Hsf. by destruct c.
          + right. cbn. set_solver.
        - assert (registered fs' (norm_abs (take n cs ++ [c]))) as Hreg.
          { eapply registered_parent; [done| |]; by rewrite <- E. }
          rewrite E, forallb_app in Hpl. apply andb_prop in Hpl as [Hpl _].
          split.
          + apply add_directory_inv; [done|done|].
            intros cs' y Ecs. eapply registered_parent; [done| |];
              by rewrite <- Ecs.
          + right. cbn. set_solver. }
      split; [done|]. split; [|split; [|done]].
      + etrans; [exact I2|]. unfold step. cbn. set_solver.
      + unfold step. by cbn. }
  specialize (H (length cs) (le_n _)). by rewrite firstn_all in H.
Qed.

(** *** Directory trees *)

Lemma rtree_nested_ind (P : rtree -> Prop) :
  (forall fs ls subs, Forall (fun s => P (snd s)) subs -> P (RNode fs ls subs)) ->
  forall t, P t.
Proof.
  intros H. fix IH 1. intros [fs ls subs]. apply H.
  induction subs as [|[n sub] l IHl]; constructor; [apply IH|apply IHl].
Qed.

Lemma wf_rtree_inv fs ls subs :
  wf_rtree (RNode fs ls subs) = true ->
  forallb valid_name fs = true /\ forallb valid_name ls = true /\
  nodup_names (map fst subs) = true /\
  Forall (fun s => valid_name (fst s) = true /\ wf_rtree (snd s) = true) subs.
Proof.
  cbn [wf_rtree]. intros [[[H1 H2]%andb_prop H3]%andb_prop H4]%andb_prop.
  repeat (split; [done|]). clear -H4.
  induction subs as [|[n sub] l IH]; constructor.
  - apply andb_prop in H4 as [[? ?]%andb_prop _]. done.
  - apply IH. by apply andb_prop in H4 as [_ ?].
Qed.

Lemma register_tree_unfold stack top ns fs ls subs acc :
  register_tree stack top ns (RNode fs ls subs) acc =
  fold_left (fun acc s => register_tree stack top (ns ++ [fst s]) (snd s) acc)
    subs (register_entry stack top ns (RNode fs ls subs) acc).
Proof.
  cbn [register_tree].
  generalize (register_entry stack top ns (RNode fs ls subs) acc).
  induction subs as [|[n sub] l IH]; intros a; [done|]. cbn [fold_left fst snd].
  apply IH.
Qed.

Lemma walk_unfold top fs ls subs :
  walk top (RNode fs ls subs) =
  (top, RNode fs ls subs) ::
  flat_map (fun s => walk (path_join top [fst s]) (snd s)) subs.
Proof.
  cbn [walk]. f_equal.
  induction subs as [|[n sub] l IH]; [done|]. cbn [flat_map fst snd].
  by rewrite IH.
Qed.

Lemma extends_refl fs : extends fs fs.
Proof. by split. Qed.

Lemma extends_trans a b c : extends a b -> extends b c -> extends a c.
Proof. intros [? ?] [? ?]. split; by etrans. Qed.

Lemma extends_add_directory d fs : extends fs (add_directory d fs).
Proof. split; cbn; set_solver. Qed.

Lemma extends_set_file k v fs : extends fs (set_file k v fs).
Proof. split; cbn; [done|]. rewrite dom_insert_L. set_solver. Qed.

Lemma registered_extends fs fs' cs :
  extends fs fs' -> registered fs cs -> registered fs' cs.
Proof. intros [H _]. by apply registered_mono. Qed.

(** A fold whose steps keep the invariant and extend the index. *)
Lemma fold_inv_extends {A} (f : BookFS -> A -> BookFS) (l : list A) fs :
  index_inv fs ->
  (forall a x, x ∈ l -> index_inv a -> extends fs a ->
     index_inv (f a x) /\ extends a (f a x)) ->
  index_inv (fold_left f l fs) /\ extends fs (fold_left f l fs).
Proof.
  intros Hinv Hstep.
  assert (forall a, index_inv a -> extends fs a ->
            index_inv (fold_left f l a) /\ extends fs (fold_left f l a)) as H.
  { induction l as [|x l IH]; intros a Ha He; [done|]. cbn [fold_left].
    destruct (Hstep a x) as [H1 H2]; [by left|done|done|].
    apply IH; [|done|by eapply extends_trans].
    intros a' y Hy. apply Hstep. by right. }
  apply H; [done|apply extends_refl].
Qed.

Lemma fold_add_directory_keep (g : str -> str) (l : list str) fs p :
  p ∈ directories fs ->
  p ∈ directories (fold_left (fun fs d => add_directory (g d) fs) l fs).
Proof.
  revert fs. induction l as [|y l IH]; intros fs Hp; [done|].
  cbn [fold_left]. apply IH. cbn. set_solver.
Qed.

Lemma fold_add_directory_elem (g : str -> str) (l : list str) fs d :
  d ∈ l ->
  g d ∈ directories (fold_left (fun fs d => add_directory (g d) fs) l fs).
Proof.
  revert fs. induction l as [|y l IH]; intros fs Hd; [by inversion Hd|].
  cbn [fold_left]. apply elem_of_cons in Hd as [->|Hd]; [|by apply IH].
  apply fold_add_directory_keep. cbn. set_solver.
Qed.

Section Register.
Variables (stack : list str) (top : str).
Hypothesis Hstack : forallb plain stack = true.

Lemma plain_path (ns : list str) :
  forallb valid_name ns = true -> forallb plain (stack ++ ns) = true.
Proof. intros H. by rewrite forallb_app, Hstack, forallb_valid_plain. Qed.

Lemma register_entry_inv ns t fs :
  forallb valid_name ns = true ->
  forallb valid_name (rfiles t) = true ->
  forallb valid_name (map fst (rsubs t) ++ rlinks t) = true ->
  index_inv fs -> registered fs (stack ++ ns) ->
  index_inv (register_entry stack top ns t fs) /\
  extends fs (register_entry stack top ns t fs) /\
  forall d, d ∈ map fst (rsubs t) ++ rlinks t ->
    registered (register_entry stack top ns t fs) (stack ++ ns ++ [d]).
Proof.
  intros Hns Hfs Hds Hinv Hreg. unfold register_entry.
  set (fs1 := fold_left _ (rfiles t) fs).
  assert (index_inv fs1 /\ extends fs fs1) as [I1 E1].
  { apply fold_inv_extends; [done|]. intros a f Hf Ia Ea.
    split; [|apply extends_set_file].
    rewrite app_assoc. apply set_file_inv; [done|by apply plain_path| |].
    - apply valid_name_plain. rewrite forallb_forall in Hfs.
      apply Hfs. by apply list_elem_of_In.
    - by eapply registered_extends. }
  set (dirs := map fst (rsubs t) ++ rlinks t) in *.
  set (step := fun fs d => add_directory (abs_of (stack ++ ns ++ [d])) fs).
  assert (index_inv (fold_left step dirs fs1) /\
          extends fs1 (fold_left step dirs fs1)) as [I2 E2].
  { apply fold_inv_extends; [done|]. intros a d Hd Ia Ea.
    split; [|apply extends_add_directory]. unfold step.
    rewrite app_assoc.
    apply add_directory_child_inv; [done|by apply plain_path| |].
    - apply valid_name_plain. rewrite forallb_forall in Hds.
      apply Hds. by apply list_elem_of_In.
    - eapply registered_extends; [|done]. by eapply extends_trans. }
  split; [done|]. split; [by eapply extends_trans|].
  intros d Hd. right.
  by apply (fold_add_directory_elem (fun d => abs_of (stack ++ ns ++ [d]))).
Qed.

Lemma register_tree_inv t :
  wf_rtree t = true ->
  forall ns fs,
    forallb valid_name ns = true -> index_inv fs ->
    registered fs (stack ++ ns) ->
    index_inv (register_tree stack top ns t fs) /\
    extends fs (register_tree stack top ns t fs).
Proof.
  induction t as [fl ls subs IH] using rtree_nested_ind.
  intros Hwf ns fs Hns Hinv Hreg.
  apply wf_rtree_inv in Hwf as (Hfl & Hls & _ & Hsubs).
  rewrite register_tree_unfold.
  assert (forallb valid_name (map fst subs ++ ls) = true) as Hds.
  { rewrite forallb_app, Hls, andb_true_r. apply forallb_forall.
    intros x Hx. apply in_map_iff in Hx as (s & <- & Hs).
    rewrite Forall_forall in Hsubs. apply Hsubs. by apply list_elem_of_In. }
  destruct (register_entry_inv ns (RNode fl ls subs) fs) as (I1 & E1 & R1);
    [done..|].
  set (fs1 := register_entry stack top ns (RNode fl ls subs) fs) in *.
  cbn [rsubs rlinks] in R1.
  assert (index_inv (fold_left
            (fun acc s => register_tree stack top (ns ++ [fst s]) (snd s) acc)
            subs fs1) /\
          extends fs1 (fold_left
            (fun acc s => register_tree stack top (ns ++ [fst s]) (snd s) acc)
            subs fs1)) as [I2 E2].
  { apply fold_inv_extends; [done|]. intros a s Hs Ia Ea.
    rewrite Forall_forall in IH, Hsubs.
    destruct (Hsubs s Hs) as [Hn Hw].
    apply IH; [done|done| |done|].
    - rewrite forallb_app, Hns. cbn. by rewrite Hn.
    - eapply registered_extends; [done|]. apply R1.
      apply elem_of_app. left. apply list_elem_of_fmap. by exists s. }
  split; [done|]. by eapply extends_trans.
Qed.
End Register.

(** *** Resolving paths in the library tree *)

Lemma lookup_sub_wf name subs t :
  Forall (fun s => valid_name (fst s) = true /\ wf_rtree (snd s) = true) subs ->
  lookup_sub name subs = Some t -> wf_rtree t = true.
Proof.
  induction 1 as [|[n sub] l [_ Hw] Hl IH]; [done|]. cbn [lookup_sub].
  destruct (str_eqb n name); [by intros [= <-]|done].
Qed.

Lemma descend_wf t cs t' :
  wf_rtree t = true -> descend t cs = Some t' -> wf_rtree t' = true.
Proof.
  revert t. induction cs as [|c cs IH]; intros t Hw; cbn [descend].
  - by intros [= <-].
  - destruct (lookup_sub c (rsubs t)) as [t1|] eqn:E; [|done].
    apply IH. destruct t as [fl ls subs].
    apply wf_rtree_inv in Hw as (_ & _ & _ & Hs). by eapply lookup_sub_wf.
Qed.

Lemma fs_resolve_wf os p t :
  wf_os os = true -> fs_resolve os p = Some t ->
  wf_rtree t = true /\ p ≠ [].
Proof.
  unfold wf_os, fs_resolve. intros [_ Hw]%andb_prop.
  destruct (str_eqb p []) eqn:Ep; [done|]. apply str_eqb_neq in Ep.
  destruct (eqb _ _); [|done].
  destruct (strip_prefix _ _); [|done]. intros H. split; [|done].
  by eapply descend_wf.
Qed.

Lemma register_book_inv os cs book_dir fs :
  wf_os os = true -> forallb plain cs = true -> index_inv fs ->
  index_inv (register_book os cs book_dir fs) /\
  extends fs (register_book os cs book_dir fs).
Proof.
  intros Hos Hcs Hinv. unfold register_book.
  pose proof (forallb_plain_sep_free _ Hcs) as Hsf.
  destruct (register_prefixes_inv cs fs Hinv Hsf) as (I1 & D1 & F1 & R1).
  assert (extends fs (register_prefixes cs fs)) as E1.
  { split; [done|]. by rewrite F1. }
  destruct (fs_resolve os book_dir) as [t|] eqn:Er; [|done].
  apply fs_resolve_wf in Er as [Hw _]; [|done].
  destruct (register_tree_inv (norm_abs cs) book_dir (norm_abs_plain _ Hsf)
              t Hw [] (register_prefixes cs fs)) as [I2 E2];
    [done|done|by rewrite app_nil_r|].
  split; [done|]. by eapply extends_trans.
Qed.

(** ** The loops of [build_file_structure] *)

Lemma for_each_pure {A} (l : list A) (body : A -> Method unit)
    (f : A -> BookFS -> BookFS) (w : World) :
  (forall x w, x ∈ l ->
     body x w = (Return tt, {| self := f x (self w); logged := logged w |})) ->
  for_each l body w =
  (Return tt, {| self := fold_left (fun s x => f x s) l (self w);
                 logged := logged w |}).
Proof.
  revert w. induction l as [|x l IH]; intros w H.
  - by destruct w.
  - cbn [for_each fold_left]. run_method.
    rewrite H by (by left). rewrite IH; [done|].
    intros y w' Hy. apply H. by right.
Qed.

Lemma for_each_app {A} (l1 l2 : list A) (body : A -> Method unit) (w : World) :
  for_each (l1 ++ l2) body w =
  match for_each l1 body w with
  | (Return _, w') => for_each l2 body w'
  | (Raise e, w') => (Raise e, w')
  end.
Proof.
  revert w. induction l1 as [|x l1 IH]; intros w; [done|].
  cbn [app for_each]. run_method.
  destruct (body x w) as [[[]|e] w']; [apply IH|done].
Qed.

Lemma join_names_not_dot (ns : list str) :
  ns ≠ [] -> forallb valid_name ns = true -> join_str [SEP] ns ≠ DOT.
Proof.
  destruct ns as [|n ns]; [done|]. intros _ H. cbn [forallb] in H.
  apply andb_prop in H as [Hn Hns].
  apply valid_name_inv in Hn as (Hp & Hd & _).
  destruct ns as [|m ns']; [done|].
  rewrite join_str_cons by done. apply plain_inv in Hp as [Hne _].
  destruct n as [|c n']; [done|]. intros E. injection E as _ E.
  by destruct n'.
Qed.

Section Book.
Variables (cs : list str).
Hypothesis Hne : cs ≠ [].
Hypothesis Hcs : forallb plain cs = true.

Lemma abs_of_last : ends_with_sep (abs_of cs) = false.
Proof.
  unfold abs_of. change (SEP :: ?x) with ([SEP] ++ x).
  rewrite ends_with_sep_app by (by apply join_plain_nonempty).
  by apply join_plain_last.
Qed.

(** The virtual path of an entry [x] reached by the names [ns]. *)
Lemma virtual_path (ns : list str) (x : str) :
  forallb valid_name ns = true -> valid_name x = true ->
  normpath (path_join (py "/")
              [join_str [SEP] cs;
               if negb (str_eqb (rel_of ns) DOT)
               then path_join (rel_of ns) [x] else x]) =
  abs_of (norm_abs cs ++ ns ++ [x]).
Proof.
  intros Hns Hx.
  assert ((if negb (str_eqb (rel_of ns) DOT)
           then path_join (rel_of ns) [x] else x) =
          join_str [SEP] (ns ++ [x])) as ->.
  { destruct ns as [|n ns']; [by rewrite str_eqb_refl|].
    unfold rel_of.
    assert (str_eqb (join_str [SEP] (n :: ns')) DOT = false) as ->
      by (by apply str_eqb_neq, join_names_not_dot).
    cbn [negb]. unfold path_join. cbn [fold_left].
    pose proof (forallb_valid_plain _ Hns) as Hpl.
    rewrite join2_plain;
      [|by apply join_plain_nonempty|by apply join_plain_last
       |by apply valid_name_head].
    by rewrite join_str_snoc. }
  assert (forallb plain (ns ++ [x]) = true) as Hpl.
  { rewrite forallb_app, forallb_valid_plain by done. cbn.
    by rewrite valid_name_plain. }
  unfold path_join. cbn [fold_left].
  rewrite (join2_after_sep (py "/")); [|done|by apply join_plain_head].
  change (py "/" ++ join_str [SEP] cs) with (abs_of cs).
  rewrite join2_plain; [|done|apply abs_of_last|by apply join_plain_head].
  assert (abs_of cs ++ SEP :: join_str [SEP] (ns ++ [x]) =
          abs_of (cs ++ ns ++ [x])) as ->.
  { unfold abs_of. rewrite (join_str_app cs) by (done || by destruct ns).
    reflexivity. }
  rewrite normpath_abs_of by (by rewrite forallb_app, Hcs).
  rewrite norm_abs_app_names; [done|].
  rewrite forallb_app, Hns. cbn. by rewrite Hx.
Qed.

Lemma path_components :
  split_on is_sep (strip is_sep (join_str [SEP] cs)) = cs.
Proof.
  unfold strip.
  rewrite rstrip_free_last.
  - rewrite lstrip_free_head.
    + apply split_join; [done|by apply forallb_plain_sep_free].
    + pose proof (join_plain_head _ Hcs) as H.
      by destruct (join_str [SEP] cs).
  - pose proof (join_plain_last _ Hcs) as H. unfold ends_with_sep in H.
    by destruct (last (join_str [SEP] cs)).
Qed.

Lemma prefixes_loop (w : World) :
  for_each (seq 1 (length cs))
    (fun i => modify_self
                (add_directory (normpath (SEP :: join_str [SEP] (take i cs)))))
    w =
  (Return tt, {| self := register_prefixes cs (self w); logged := logged w |}).
Proof.
  unfold register_prefixes.
  rewrite (for_each_pure _ _
             (fun i => add_directory (abs_of (norm_abs (take i cs)))));
    [done|].
  intros i w' _. unfold modify_self. do 3 f_equal.
  change (SEP :: join_str [SEP] (take i cs)) with (abs_of (take i cs)).
  apply normpath_abs_of. apply forallb_forall. intros x Hx.
  rewrite forallb_forall in Hcs. apply Hcs.
  apply list_elem_of_In in Hx. apply list_elem_of_In.
  by eapply subseteq_take.
Qed.

Variables (working_dir top : str).
Hypothesis Hcwd : starts_with_sep working_dir = true.
Hypothesis Htop : top ≠ [].

Lemma walk_body_run (ns : list str) (t : rtree) (w : World) :
  forallb valid_name ns = true ->
  forallb valid_name (rfiles t) = true ->
  forallb valid_name (map fst (rsubs t) ++ rlinks t) = true ->
  map_directory working_dir (join_str [SEP] cs) top
    (walk_view (path_join top ns, t)) w =
  (Return tt, {| self := register_entry (norm_abs cs) top ns t (self w);
                 logged := logged w |}).
Proof.
  intros Hns Hfl Hdl. unfold map_directory, walk_view. cbn [fst snd].
  rewrite relpath_names by done. fold (rel_of ns). run_method.
  rewrite (for_each_pure _ _
             (fun f => set_file (abs_of (norm_abs cs ++ ns ++ [f]))
                                (path_join top (ns ++ [f])))).
  2:{ intros f w' Hf. unfold map_file, modify_self.
      rewrite forallb_forall in Hfl.
      rewrite virtual_path by (done || by apply Hfl, list_elem_of_In).
      by rewrite path_join_snoc. }
  rewrite (for_each_pure _ _
             (fun d => add_directory (abs_of (norm_abs cs ++ ns ++ [d])))).
  2:{ intros d w' Hd. unfold map_subdirectory, modify_self.
      rewrite forallb_forall in Hdl.
      by rewrite virtual_path by (done || by apply Hdl, list_elem_of_In). }
  reflexivity.
Qed.

Lemma walk_loop_run (t : rtree) :
  wf_rtree t = true ->
  forall (ns : list str) (w : World),
    forallb valid_name ns = true ->
    for_each (map walk_view (walk (path_join top ns) t))
      (map_directory working_dir (join_str [SEP] cs) top) w =
    (Return tt, {| self := register_tree (norm_abs cs) top ns t (self w);
                   logged := logged w |}).
Proof.
  induction t as [fl ls subs IH] using rtree_nested_ind.
  intros Hwf ns w Hns.
  pose proof Hwf as (Hfl & Hls & _ & Hsubs)%wf_rtree_inv.
  rewrite walk_unfold, register_tree_unfold. cbn [map for_each].
  run_method. rewrite walk_body_run; [|done|done|].
  2:{ cbn [rsubs rlinks]. rewrite forallb_app, Hls, andb_true_r.
      apply forallb_forall. intros x Hx. apply in_map_iff in Hx as (s & <- & Hs).
      rewrite Forall_forall in Hsubs. apply Hsubs. by apply list_elem_of_In. }
  set (w1 := {| self := register_entry (norm_abs cs) top ns (RNode fl ls subs) (self w);
                logged := logged w |}).
  change (register_entry (norm_abs cs) top ns (RNode fl ls subs) (self w))
    with (self w1).
  change (logged w) with (logged w1). clearbody w1.
  revert w1. induction subs as [|[n sub] l IHl]; intros w1.
  - by destruct w1.
  - apply Forall_cons in IH as [IH1 IH2].
    apply Forall_cons in Hsubs as [[Hn Hw] Hsubs]. cbn [fst snd] in Hn, Hw.
    cbn [flat_map fst snd fold_left]. rewrite map_app, for_each_app.
    change (path_join (path_join top ns) [n])
      with (join2 (path_join top ns) n).
    rewrite <- path_join_snoc.
    cbn [snd] in IH1. rewrite IH1; [|done|].
    2:{ rewrite forallb_app, Hns. cbn. by rewrite Hn. }
    rewrite IHl; [done|done| |done].
    cbn [wf_rtree] in Hwf |- *.
    apply andb_prop in Hwf as [[[H1 H2]%andb_prop H3]%andb_prop H4].
    rewrite H1, H2. cbn [map fst nodup_names] in H3.
    apply andb_prop in H3 as [_ ->].
    apply andb_prop in H4 as [_ ->]. done.
Qed.
End Book.

(** ** Records and virtual book paths *)

Lemma path_join_plain (n : str) (ns : list str) :
  forallb plain (n :: ns) = true ->
  path_join n ns = join_str [SEP] (n :: ns).
Proof.
  induction ns as [|m ns IH] using rev_ind; [done|].
  rewrite app_comm_cons, forallb_app. intros [H1 H2]%andb_prop.
  cbn [forallb] in H2. rewrite andb_true_r in H2.
  rewrite path_join_snoc, IH by done.
  rewrite join2_plain;
    [|by apply join_plain_nonempty|by apply join_plain_last
     |by apply plain_head].
  by rewrite join_str_snoc.
Qed.

(** Joining a possibly empty first part with components. *)
Lemma path_join_components (a : str) (l : list str) :
  sep_free a = true -> l ≠ [] -> forallb plain l = true ->
  exists cs, cs ≠ [] /\ forallb plain cs = true /\
             path_join a l = join_str [SEP] cs.
Proof.
  intros Ha Hl Hpl. destruct a as [|c a'].
  - destruct l as [|x l']; [done|]. exists (x :: l').
    split; [done|]. split; [done|].
    unfold path_join. cbn [fold_left]. rewrite join2_empty.
    by apply path_join_plain.
  - exists ((c :: a') :: l). split; [done|].
    assert (forallb plain ((c :: a') :: l) = true) as H.
    { cbn [forallb]. rewrite Hpl, andb_true_r. unfold plain. by rewrite Ha. }
    split; [done|]. by apply path_join_plain.
Qed.

Lemma sep_free_app (a b : str) :
  sep_free (a ++ b) = sep_free a && sep_free b.
Proof. unfold sep_free. apply forallb_app. Qed.

Lemma sep_free_uint (d : Decimal.uint) :
  sep_free (py (NilEmpty.string_of_uint d)) = true.
Proof. induction d; [reflexivity|exact IHd..]. Qed.

Lemma py_cons (a : ascii) (s : string) : py (String a s) = N_of_ascii a :: py s.
Proof. reflexivity. Qed.

Lemma sep_free_str_of_int (n : Z) : sep_free (str_of_int n) = true.
Proof.
  assert (forall d, sep_free (py (NilZero.string_of_uint d)) = true) as H.
  { intros d. unfold NilZero.string_of_uint.
    destruct d; first [reflexivity | apply sep_free_uint]. }
  unfold str_of_int, NilZero.string_of_int.
  destruct (Z.to_int n) as [d|d]; [apply H|].
  rewrite py_cons. change (?c :: ?s) with ([c] ++ s).
  by rewrite sep_free_app, H.
Qed.

Lemma Return_inj {A} (a b : A) : Return a = Return b -> a = b.
Proof. by intros [= ->]. Qed.

Section Records.
Variable db : UnicodeDB.

Lemma keep_char_not_sep c : keep_char db c = true -> is_sep c = false.
Proof.
  intros H. destruct (is_sep c) eqn:E; [|done].
  apply is_sep_true in E as ->. discriminate H.
Qed.

Lemma sanitize_name_sep_free (s : str) : sep_free (sanitize_name db s) = true.
Proof.
  pose proof (sanitize_name_kept db s) as H.
  unfold sep_free. apply forallb_forall. intros c Hc.
  rewrite Forall_forall in H. apply negb_true_iff, keep_char_not_sep, H.
  by apply list_elem_of_In.
Qed.

(** [parse_metadata] reads and logs; it does not touch the object. *)
Lemma parse_metadata_frame os m w :
  self (world_after (parse_metadata db os m) w) = self w.
Proof.
  unfold world_after, parse_metadata, call_sanitize_name.
  destruct (et_parse os m) as [root|msg|errno msg|e]; [|reflexivity..].
  destruct (text_or (find_tag root DC_NS (py "creator")) _); [|reflexivity].
  destruct (text_or (find_tag root DC_NS (py "title")) _); [|reflexivity].
  destruct (content_of (find_meta root (py "calibre:series"))) as [[|c s]|]; reflexivity.
Qed.

Lemma parse_metadata_result os m w w' :
  result_of (parse_metadata db os m) w = result_of (parse_metadata db os m) w'.
Proof.
  unfold result_of, parse_metadata, call_sanitize_name.
  destruct (et_parse os m) as [root|msg|errno msg|e]; [|reflexivity..].
  destruct (text_or (find_tag root DC_NS (py "creator")) _); [|reflexivity].
  destruct (text_or (find_tag root DC_NS (py "title")) _); [|reflexivity].
  destruct (content_of (find_meta root (py "calibre:series"))) as [[|c s]|]; reflexivity.
Qed.

Lemma parse_metadata_fields os m w md :
  result_of (parse_metadata db os m) w = Return md -> fields_ok md.
Proof.
  unfold result_of, parse_metadata, call_sanitize_name.
  destruct (et_parse os m) as [root|msg|errno msg|e];
    [| |by run_method..].
  - destruct (text_or (find_tag root DC_NS (py "creator")) _) as [a|];
      [|by run_method].
    destruct (text_or (find_tag root DC_NS (py "title")) _) as [t|];
      [|by run_method].
    destruct (content_of (find_meta root (py "calibre:series"))) as [[|c s]|]; run_method;
      intros [= <-]; (split; [apply sanitize_name_sep_free|]);
      (split; [apply sanitize_name_sep_free|]); cbn; try done.
    intros _. eexists. split; [done|]. apply sanitize_name_sep_free.
  - run_method. intros [= <-]. by repeat split.
Qed.

Lemma get_book_path_frame md w :
  self (world_after (get_book_path db md) w) = self w.
Proof.
  unfold world_after, get_book_path.
  destruct (truthy (series md)); [|reflexivity]. run_method.
  destruct (py_float db (series_index md)) as [x|e].
  - destruct (py_int x) as [n|e]; [reflexivity|]. by destruct e.
  - by destruct e.
Qed.

Lemma get_book_path_result md w w' :
  result_of (get_book_path db md) w = result_of (get_book_path db md) w'.
Proof.
  unfold result_of, get_book_path.
  destruct (truthy (series md)); [|reflexivity]. run_method.
  destruct (py_float db (series_index md)) as [x|e].
  - destruct (py_int x) as [n|e]; [reflexivity|]. by destruct e.
  - by destruct e.
Qed.

Lemma or_else_plain (s d : str) :
  sep_free s = true -> plain d = true -> plain (or_else s d) = true.
Proof.
  intros Hs Hd. unfold or_else. destruct s as [|c s']; [done|].
  cbn [nonempty]. unfold plain. by rewrite Hs.
Qed.

(** The virtual book path is a non-empty sequence of components
    separated by slashes. *)
Lemma get_book_path_components md w p :
  fields_ok md -> result_of (get_book_path db md) w = Return p ->
  exists cs, cs ≠ [] /\ forallb plain cs = true /\ p = join_str [SEP] cs.
Proof.
  intros (Ha & Ht & Hs). unfold result_of, get_book_path.
  assert (plain (or_else (book_title md) (py "Unknown Book")) = true) as Hbd
    by (by apply or_else_plain).
  destruct (truthy (series md)) eqn:Etr.
  - destruct (Hs eq_refl) as (s & Es & Hsf). rewrite Es in *.
    cbn [format_opt]. assert (plain s = true) as Hps.
    { unfold plain. rewrite Hsf. by destruct s. }
    assert (forall bd, plain bd = true ->
              exists cs, cs ≠ [] /\ forallb plain cs = true /\
                         path_join (author md) [s; bd] = join_str [SEP] cs)
      as Hshape.
    { intros bd Hp. apply path_join_components; [done|done|].
      cbn. by rewrite Hps, Hp. }
    run_method.
    destruct (py_float db (series_index md)) as [x|e].
    + destruct (py_int x) as [n|e].
      * intros <-%Return_inj. apply Hshape. unfold plain.
        rewrite sep_free_app, sep_free_str_of_int. reflexivity.
      * destruct e; try done; intros <-%Return_inj; by apply Hshape.
    + destruct e; try done; intros <-%Return_inj; by apply Hshape.
  - intros <-%Return_inj. apply path_join_components; [done|done|].
    cbn. by rewrite Hbd.
Qed.
End Records.

(** ** [index_book] and [build_file_structure] *)

Section Build.
Variables (db : UnicodeDB) (os : OS).
Hypothesis Hos : wf_os os = true.

Lemma cwd_absolute : starts_with_sep (cwd os) = true.
Proof. unfold wf_os in Hos. by apply andb_prop in Hos as [? _]. Qed.

Lemma book_path_of_run m w md w1 p w2 :
  parse_metadata db os m w = (Return md, w1) ->
  get_book_path db md w1 = (Return p, w2) ->
  book_path_of db os m = Some p.
Proof.
  intros Ep Eg. unfold book_path_of.
  set (w0 := serving _).
  pose proof (parse_metadata_result db os m w0 w) as Hr.
  unfold result_of in Hr. rewrite Ep in Hr. cbn [fst] in Hr.
  destruct (parse_metadata db os m w0) as [r w0']. cbn [fst] in Hr. subst r.
  pose proof (get_book_path_result db md w0' w1) as Hg.
  unfold result_of in Hg. rewrite Eg in Hg. cbn [fst] in Hg.
  destruct (get_book_path db md w0') as [r w0'']. cbn [fst] in Hg. by subst r.
Qed.

(** One round of the outer loop registers the book. *)
Lemma index_book_run m w w' :
  index_book db os m w = (Return tt, w') ->
  exists p cs,
    book_path_of db os m = Some p /\ p = join_str [SEP] cs /\
    cs ≠ [] /\ forallb plain cs = true /\
    self w' = register_book os cs (dirname m) (self w).
Proof.
  unfold index_book. run_method.
  destruct (parse_metadata db os m w) as [[md|e] w1] eqn:Ep; [|done].
  destruct (get_book_path db md w1) as [[p|e] w2] eqn:Eg; [|done].
  assert (fields_ok md) as Hf.
  { apply (parse_metadata_fields db os m w). unfold result_of. by rewrite Ep. }
  destruct (get_book_path_components db md w1 p Hf) as (cs & Hne & Hcs & ->).
  { unfold result_of. by rewrite Eg. }
  assert (self w2 = self w) as Hself.
  { pose proof (parse_metadata_frame db os m w) as H1.
    pose proof (get_book_path_frame db md w1) as H2.
    unfold world_after in H1, H2. rewrite Ep in H1. rewrite Eg in H2.
    cbn [snd] in H1, H2. congruence. }
  rewrite path_components by done. rewrite prefixes_loop by done.
  intros H. exists (join_str [SEP] cs), cs.
  split; [by eapply book_path_of_run|]. do 3 (split; [done|]).
  unfold register_book. rewrite <- Hself.
  unfold os_walk in H.
  destruct (fs_resolve os (dirname m)) as [t|] eqn:Er.
  - apply fs_resolve_wf in Er as [Hw Htop]; [|done].
    pose proof (walk_loop_run cs Hne Hcs (cwd os) (dirname m) cwd_absolute
                  Htop t Hw []) as Hrun.
    change (path_join (dirname m) []) with (dirname m) in Hrun.
    change (map _ (walk (dirname m) t))
      with (map walk_view (walk (dirname m) t)) in H.
    rewrite Hrun in H by done. by injection H as <-.
  - cbn [for_each] in H. unfold mret, method_ret, ret in H.
    by injection H as <-.
Qed.

Lemma books_loop_inv (l : list str) w w' :
  for_each l (index_book db os) w = (Return tt, w') ->
  index_inv (self w) ->
  index_inv (self w') /\ extends (self w) (self w').
Proof.
  revert w. induction l as [|m l IH]; intros w.
  - cbn [for_each]. unfold mret, method_ret, ret. intros [= <-] Hinv.
    split; [done|apply extends_refl].
  - cbn [for_each]. run_method.
    destruct (index_book db os m w) as [[[]|e] w1] eqn:E; [|done].
    intros Hl Hinv.
    apply index_book_run in E as (p & cs & _ & _ & _ & Hcs & Hself).
    destruct (register_book_inv os cs (dirname m) (self w) Hos Hcs Hinv)
      as [I1 E1].
    rewrite <- Hself in I1, E1.
    destruct (IH w1 Hl I1) as [I2 E2].
    split; [done|]. by eapply extends_trans.
Qed.

Lemma build_file_structure_run w w' :
  build_file_structure db os w = (Return tt, w') ->
  for_each (discovered os (root_dir (self w))) (index_book db os) w =
  (Return tt, w').
Proof. unfold build_file_structure, find_metadata_files. by run_method. Qed.

Lemma new_BookFS_run root fs :
  new_BookFS db os root = Return fs ->
  exists w',
    for_each (discovered os root) (index_book db os) (world0 root) =
    (Return tt, w') /\ self w' = fs.
Proof.
  unfold new_BookFS. fold (world0 root).
  destruct (build_file_structure db os (world0 root)) as [[[]|e] w'] eqn:E;
    [|done].
  intros [= <-]. exists w'. split; [|done].
  by apply build_file_structure_run in E.
Qed.

(** The index [__init__] builds satisfies the invariant. *)
Lemma new_BookFS_inv root fs :
  new_BookFS db os root = Return fs -> index_inv fs.
Proof.
  intros (w' & Hrun & <-)%new_BookFS_run.
  apply books_loop_inv in Hrun as [H _]; [done|]. apply index_inv_empty.
Qed.
End Build.

(** ** [readdir] *)

Lemma fold_add_child (p : str) (l : list str) (E0 : gset str) (x : str) :
  x ∈ fold_left (add_child p) l E0 <->
  x ∈ E0 \/ exists e, e ∈ l /\ dirname e = p /\ basename e = x.
Proof.
  revert E0. induction l as [|e l IH]; intros E0; cbn [fold_left].
  - split; [by left|]. intros [H|(e & He & _)]; [done|by inversion He].
  - rewrite IH. unfold add_child.
    destruct (str_eqb (dirname e) p) eqn:E.
    + apply str_eqb_eq in E. rewrite elem_of_union, elem_of_singleton.
      split.
      * intros [[->|H]|(e' & He' & Hd & Hb)]; [|by left|].
        -- right. exists e. split; [by left|done].
        -- right. exists e'. split; [by right|done].
      * intros [H|(e' & He' & Hd & Hb)]; [left; by right|].
        apply elem_of_cons in He' as [->|He']; [left; left; done|].
        right. by exists e'.
    + apply str_eqb_neq in E. split.
      * intros [H|(e' & He' & Hd & Hb)]; [by left|].
        right. exists e'. split; [by right|done].
      * intros [H|(e' & He' & Hd & Hb)]; [by left|].
        apply elem_of_cons in He' as [->|He']; [done|].
        right. by exists e'.
Qed.

(** [readdir] returns [.], [..] and, once each, the children of the
    listed path. *)
Lemma readdir_children (path : str) (fh : Z) (w : World) :
  exists es,
    readdir path fh w = (Return ([py "."; py ".."] ++ es), w) /\
    NoDup es /\
    forall x, x ∈ es <-> is_child (self w) (listed_path path) x.
Proof.
  unfold readdir. run_method. fold (listed_path path).
  eexists. split; [reflexivity|]. split; [apply NoDup_elements|].
  intros x. rewrite elem_of_elements, !fold_add_child. unfold is_child.
  split.
  - intros [[H|(e & He & Hd & Hb)]|(e & He & Hd & Hb)]; [set_solver| |].
    + exists e. split; [|done]. left. by apply elem_of_elements in He.
    + exists e. split; [|done]. right.
      apply list_elem_of_fmap in He as ([k v] & -> & Hkv).
      apply elem_of_map_to_list in Hkv. apply elem_of_dom. by exists v.
  - intros (e & [He|He] & Hd & Hb).
    + left. right. exists e. split; [|done]. by apply elem_of_elements.
    + right. exists e. split; [|done].
      apply elem_of_dom in He as [v Hv].
      apply list_elem_of_fmap. exists (e, v). split; [done|].
      by apply elem_of_map_to_list.
Qed.

(** In an index that satisfies the invariant only the root and the
    stored directories have children. *)
Lemma readdir_not_a_directory (fs : BookFS) (path : str) (fh : Z) :
  index_inv fs ->
  listed_path path ≠ ROOT -> listed_path path ∉ directories fs ->
  result_of (readdir path fh) (serving fs) = Return [py "."; py ".."].
Proof.
  intros Hinv Hr Hd.
  destruct (readdir_children path fh (serving fs)) as (es & Hrun & _ & Hes).
  unfold result_of. rewrite Hrun. cbn [fst].
  destruct es as [|x es]; [done|]. exfalso.
  destruct (proj1 (Hes x)) as (e & He & Hp & _); [by left|].
  cbn [serving self] in He.
  destruct (index_inv_parent fs e Hinv) as [H|H]; [tauto| |]; congruence.
Qed.

(** ** The descriptor in the virtual tree *)

(** *** Walking and resolving agree *)

Lemma lookup_sub_elem (n : str) (sub : rtree) (subs : list (str * rtree)) :
  nodup_names (map fst subs) = true -> (n, sub) ∈ subs ->
  lookup_sub n subs = Some sub.
Proof.
  induction subs as [|[m t] l IH]; [by inversion 2|].
  cbn [map fst nodup_names lookup_sub]. intros [Hm Hl]%andb_prop Hin.
  apply elem_of_cons in Hin as [[= -> ->]|Hin].
  - by rewrite str_eqb_refl.
  - destruct (str_eqb m n) eqn:E; [|by apply IH].
    apply str_eqb_eq in E as ->. apply negb_true_iff in Hm.
    assert (str_in n (map fst l) = true) as Hc; [|congruence].
    unfold str_in. apply existsb_exists. exists n.
    split; [|apply str_eqb_refl].
    apply in_map_iff. exists (n, sub). split; [done|].
    by apply list_elem_of_In.
Qed.

Lemma descend_app (t : rtree) (a b : list str) :
  descend t (a ++ b) =
  match descend t a with Some t' => descend t' b | None => None end.
Proof.
  revert t. induction a as [|x a IH]; intros t; [done|].
  cbn [app descend]. destruct (lookup_sub x (rsubs t)); [apply IH|done].
Qed.

(** Every walked directory is reached from the top by valid names. *)
Lemma walk_entries (t : rtree) :
  wf_rtree t = true ->
  forall top e, e ∈ walk top t ->
    exists ns, forallb valid_name ns = true /\
               fst e = path_join top ns /\ descend t ns = Some (snd e).
Proof.
  induction t as [fl ls subs IH] using rtree_nested_ind.
  intros Hwf top e. rewrite walk_unfold.
  apply wf_rtree_inv in Hwf as (_ & _ & Hnd & Hsubs).
  intros [->|Hin]%elem_of_cons; [by exists []|].
  apply list_elem_of_In, in_flat_map in Hin as ([n sub] & Hs & He).
  apply list_elem_of_In in Hs, He. cbn [fst snd] in He.
  rewrite Forall_forall in IH, Hsubs.
  destruct (Hsubs _ Hs) as [Hn Hw]. cbn [fst snd] in Hn, Hw.
  destruct (IH _ Hs Hw _ _ He) as (ns & Hns & Hp & Hd).
  exists (n :: ns). split; [by cbn; rewrite Hn|]. split; [done|].
  cbn [descend rsubs]. by rewrite (lookup_sub_elem n sub).
Qed.

Lemma strip_prefix_app (pre l rest ns : list str) :
  strip_prefix pre l = Some rest ->
  strip_prefix pre (l ++ ns) = Some (rest ++ ns).
Proof.
  revert l. induction pre as [|x pre IH]; intros l.
  - cbn. by intros [= ->].
  - destruct l as [|y l]; [done|]. cbn [app strip_prefix].
    destruct (str_eqb x y); [apply IH|done].
Qed.

Lemma path_comps_app_sep (a b : str) :
  path_comps (a ++ SEP :: b) = path_comps a ++ path_comps b.
Proof.
  unfold path_comps. rewrite split_on_app_sep by apply is_sep_SEP.
  apply List.filter_app.
Qed.

Lemma path_comps_name (n : str) : valid_name n = true -> path_comps n = [n].
Proof.
  intros H. unfold path_comps.
  rewrite split_on_free by (by apply valid_name_sep_free).
  apply valid_name_inv in H as (Hp & Hd & _). apply plain_inv in Hp as [Hne _].
  cbn [List.filter]. apply str_eqb_neq in Hd. rewrite Hd.
  by destruct n.
Qed.

Lemma path_comps_join2 (p n : str) :
  p ≠ [] -> valid_name n = true ->
  path_comps (join2 p n) = path_comps p ++ [n].
Proof.
  intros Hp Hn. rewrite join2_name by done.
  destruct p as [|c p']; [done|]. cbn [nonempty negb orb].
  destruct (ends_with_sep (c :: p')) eqn:He.
  - apply ends_with_sep_inv in He as [s' ->].
    rewrite <- app_assoc. cbn [app]. rewrite !path_comps_app_sep.
    rewrite (path_comps_name n) by done.
    change (path_comps []) with (@nil str). by rewrite app_nil_r.
  - by rewrite path_comps_app_sep, (path_comps_name n).
Qed.

Lemma path_comps_path_join (p : str) (ns : list str) :
  p ≠ [] -> forallb valid_name ns = true ->
  path_comps (path_join p ns) = path_comps p ++ ns.
Proof.
  intros Hp. induction ns as [|n ns IH] using rev_ind.
  - intros _. by rewrite app_nil_r.
  - rewrite forallb_app. intros [H1 H2]%andb_prop.
    cbn [forallb] in H2. rewrite andb_true_r in H2.
    destruct (path_join_names_facts p ns 0 Hp H1) as [Hne _].
    rewrite path_join_snoc, path_comps_join2 by done.
    by rewrite IH, app_assoc.
Qed.

(** A walked directory resolves to itself. *)
Lemma fs_resolve_walked os root t0 e :
  wf_os os = true -> fs_resolve os root = Some t0 -> e ∈ walk root t0 ->
  fs_resolve os (fst e) = Some (snd e) /\ fst e ≠ [].
Proof.
  intros Hos Hr He.
  destruct (fs_resolve_wf os root t0 Hos Hr) as [Hw Hne].
  destruct (walk_entries t0 Hw root e He) as (ns & Hns & -> & Hd).
  destruct (path_join_names_facts root ns 0 Hne Hns) as (Hne' & Hh & _).
  split; [|done]. unfold fs_resolve in *.
  apply str_eqb_neq in Hne, Hne'. rewrite Hne in Hr. rewrite Hne', Hh.
  destruct (eqb _ _); [|done].
  apply str_eqb_neq in Hne. rewrite path_comps_path_join by done.
  destruct (strip_prefix _ (path_comps root)) as [rest|] eqn:Es; [|done].
  rewrite (strip_prefix_app _ _ rest) by done.
  by rewrite descend_app, Hr.
Qed.

(** *** The directory of a descriptor *)

Lemma rstrip_decompose (p : N -> bool) (s : str) :
  exists t, s = rstrip p s ++ t /\ forallb p t = true.
Proof.
  induction s as [|c s (t & Hs & Ht)]; [by exists []|].
  cbn [rstrip]. destruct (rstrip p s) as [|r rs] eqn:E.
  - cbn [app] in Hs. subst t. destruct (p c) eqn:Hc.
    + exists (c :: s). split; [done|]. cbn [forallb]. by rewrite Hc, Ht.
    + by exists s.
  - exists t. split; [|done]. rewrite Hs at 1. reflexivity.
Qed.

Lemma path_comps_seps (t : str) :
  forallb is_sep t = true -> path_comps t = [].
Proof.
  induction t as [|c t IH]; [done|]. cbn [forallb].
  intros [Hc Ht]%andb_prop. apply is_sep_true in Hc as ->.
  change (SEP :: t) with ([] ++ SEP :: t). rewrite path_comps_app_sep.
  rewrite IH by done. reflexivity.
Qed.

Lemma path_comps_trailing (s t : str) :
  forallb is_sep t = true -> path_comps (s ++ t) = path_comps s.
Proof.
  intros Ht. destruct t as [|c t']; [by rewrite app_nil_r|].
  cbn [forallb] in Ht. apply andb_prop in Ht as [Hc Ht].
  apply is_sep_true in Hc as ->. rewrite path_comps_app_sep.
  rewrite (path_comps_seps t') by done. apply app_nil_r.
Qed.

(** Paths that differ in trailing slashes name the same directory. *)
Lemma fs_resolve_rstrip os (d : str) :
  rstrip is_sep d ≠ [] ->
  fs_resolve os (rstrip is_sep d) = fs_resolve os d.
Proof.
  intros Hne. destruct (rstrip_decompose is_sep d) as (t & Hd & Ht).
  unfold fs_resolve.
  assert (d ≠ []) as Hdne by (intros ->; done).
  apply str_eqb_neq in Hne, Hdne. rewrite Hne, Hdne.
  assert (starts_with_sep (rstrip is_sep d) = starts_with_sep d) as ->.
  { rewrite Hd at 2. apply str_eqb_neq in Hne.
    by destruct (rstrip is_sep d). }
  assert (path_comps (rstrip is_sep d) = path_comps d) as ->; [|done].
  rewrite Hd at 2. by rewrite path_comps_trailing.
Qed.

Lemma dirname_descriptor (d : str) :
  d ≠ [] ->
  dirname (path_join d [METADATA_OPF]) = d \/
  (dirname (path_join d [METADATA_OPF]) = rstrip is_sep d /\
   rstrip is_sep d ≠ []).
Proof.
  intros Hd. unfold path_join. cbn [fold_left].
  assert (valid_name METADATA_OPF = true) as Hv by reflexivity.
  rewrite join2_name by done.
  assert (nonempty d = true) as -> by (by destruct d). cbn [negb orb].
  assert (exists a, (if ends_with_sep d then d ++ METADATA_OPF
                     else d ++ SEP :: METADATA_OPF) = a ++ SEP :: METADATA_OPF /\
                    (d = a ++ [SEP] \/ (d = a /\ ends_with_sep a = false)))
    as (a & -> & Ha).
  { destruct (ends_with_sep d) eqn:He.
    - apply ends_with_sep_inv in He as [a ->]. exists a.
      split; [by rewrite <- app_assoc|by left].
    - exists d. split; [done|]. right. done. }
  unfold dirname. rewrite rfind_last_sep by reflexivity.
  replace (Z.to_nat (Z.of_nat (length a) + 1)) with (length (a ++ [SEP]))
    by (rewrite length_app; cbn; lia).
  change (a ++ SEP :: METADATA_OPF) with (a ++ [SEP] ++ METADATA_OPF).
  rewrite app_assoc, take_app_length.
  assert (nonempty (a ++ [SEP]) = true) as -> by (by destruct a).
  cbn [andb].
  destruct (forallb is_sep (a ++ [SEP])) eqn:Hall; cbn [negb].
  - left. destruct Ha as [->|[-> He]]; [done|].
    rewrite forallb_app in Hall. apply andb_prop in Hall as [Hall _].
    destruct (last a) as [c|] eqn:El.
    + apply last_Some in El as [a' ->]. unfold ends_with_sep in He.
      rewrite last_snoc in He. rewrite forallb_app in Hall.
      apply andb_prop in Hall as [_ Hc]. cbn in Hc. rewrite andb_true_r in Hc.
      congruence.
    + apply last_None in El. by subst a.
  - right. rewrite rstrip_snoc by apply is_sep_SEP.
    assert (rstrip is_sep a ≠ []) as Hne.
    { intros E. destruct (rstrip_decompose is_sep a) as (t & Hs & Ht).
      rewrite E in Hs. cbn [app] in Hs. subst t.
      rewrite forallb_app, Ht in Hall. done. }
    destruct Ha as [->|[-> _]]; [|done].
    by rewrite rstrip_snoc by apply is_sep_SEP.
Qed.

Lemma fs_resolve_descriptor os (d : str) :
  d ≠ [] ->
  fs_resolve os (dirname (path_join d [METADATA_OPF])) = fs_resolve os d.
Proof.
  intros Hd. destruct (dirname_descriptor d Hd) as [->|[-> Hne]]; [done|].
  by apply fs_resolve_rstrip.
Qed.

(** The directory of a discovered descriptor is a directory of the
    library that holds a file [metadata.opf]. *)
Lemma discovered_resolves os root m :
  wf_os os = true -> m ∈ discovered os root ->
  exists t, fs_resolve os (dirname m) = Some t /\
            METADATA_OPF ∈ rfiles t.
Proof.
  intros Hos Hm. unfold discovered, os_walk in Hm.
  destruct (fs_resolve os root) as [t0|] eqn:Er; [|by inversion Hm].
  apply list_elem_of_In, in_flat_map in Hm as ([[dirpath dirs] fl] & He & Hm).
  apply in_map_iff in He as (e & [= <- <- <-] & He).
  apply list_elem_of_In in He.
  destruct (fs_resolve_walked os root t0 e Hos Er He) as [Hres Hne].
  destruct (str_in METADATA_OPF (rfiles (snd e))) eqn:Ein; [|by inversion Hm].
  destruct Hm as [<-|[]]. exists (snd e). split.
  - by rewrite fs_resolve_descriptor.
  - unfold str_in in Ein. apply existsb_exists in Ein as (x & Hx & E).
    apply str_eqb_eq in E as ->. by apply list_elem_of_In.
Qed.

(** *** The descriptor's entry *)

Lemma fold_set_file_lookup (g h : str -> str) (l : list str) fs x :
  x ∈ l -> (forall f, f ∈ l -> g f = g x -> h f = h x) ->
  files (fold_left (fun fs f => set_file (g f) (h f) fs) l fs) !! g x =
  Some (h x).
Proof.
  induction l as [|f l IH] using rev_ind; [by inversion 1|].
  intros Hx Hsame. rewrite fold_left_app. cbn [fold_left set_file files].
  destruct (decide (g f = g x)) as [E|E].
  - rewrite E, lookup_insert_eq. f_equal. apply Hsame; [|done].
    apply elem_of_app. right. by left.
  - rewrite lookup_insert_ne by done. apply IH.
    + apply elem_of_app in Hx as [Hx|Hx]; [done|].
      apply list_elem_of_singleton in Hx. by subst.
    + intros f' Hf'. apply Hsame. apply elem_of_app. by left.
Qed.

Lemma fold_set_file_other (g h : str -> str) (l : list str) fs k :
  (forall f, f ∈ l -> g f ≠ k) ->
  files (fold_left (fun fs f => set_file (g f) (h f) fs) l fs) !! k =
  files fs !! k.
Proof.
  induction l as [|f l IH] using rev_ind; [done|].
  intros Hk. rewrite fold_left_app. cbn [fold_left set_file files].
  rewrite lookup_insert_ne.
  - apply IH. intros f' Hf'. apply Hk. apply elem_of_app. by left.
  - apply Hk. apply elem_of_app. right. by left.
Qed.

Lemma fold_add_directory_files (g : str -> str) (l : list str) fs :
  files (fold_left (fun fs d => add_directory (g d) fs) l fs) = files fs.
Proof.
  revert fs. induction l as [|d l IH]; intros fs; [done|].
  cbn [fold_left]. by rewrite IH.
Qed.

Section Descriptor.
Variables (stack : list str) (top : str).
Hypothesis Hstack : forallb plain stack = true.

Lemma abs_of_path_inj (a b : list str) :
  forallb valid_name a = true -> forallb valid_name b = true ->
  abs_of (stack ++ a) = abs_of (stack ++ b) -> a = b.
Proof.
  intros Ha Hb E. apply abs_of_inj in E; [|by apply plain_path..].
  by apply app_inv_head in E.
Qed.

(** A key outside the directory being visited is left alone. *)
Lemma register_tree_files_other (k : str) (t : rtree) :
  wf_rtree t = true ->
  forall ns fs,
    (forall ms x, forallb valid_name ms = true -> valid_name x = true ->
       k ≠ abs_of (stack ++ ns ++ ms ++ [x])) ->
    files (register_tree stack top ns t fs) !! k = files fs !! k.
Proof.
  induction t as [fl ls subs IH] using rtree_nested_ind.
  intros Hwf ns fs Hk.
  apply wf_rtree_inv in Hwf as (Hfl & _ & _ & Hsubs).
  rewrite register_tree_unfold.
  assert (files (register_entry stack top ns (RNode fl ls subs) fs) !! k =
          files fs !! k) as <-.
  { unfold register_entry. rewrite fold_add_directory_files.
    apply (fold_set_file_other
             (fun f => abs_of (stack ++ ns ++ [f]))
             (fun f => path_join top (ns ++ [f]))).
    intros f Hf E. apply (Hk [] f); [done| |done].
    rewrite forallb_forall in Hfl. by apply Hfl, list_elem_of_In. }
  generalize (register_entry stack top ns (RNode fl ls subs) fs).
  induction subs as [|[n sub] l IHl]; intros a; [done|].
  apply Forall_cons in IH as [IH1 IH2].
  apply Forall_cons in Hsubs as [[Hn Hw] Hsubs]. cbn [fst snd] in *.
  cbn [fold_left fst snd]. rewrite IHl by done.
  apply IH1; [done|]. intros ms x Hms Hx E.
  apply (Hk (n :: ms) x); [by cbn; rewrite Hn|done|].
  by rewrite E, <- !app_assoc.
Qed.

Lemma register_tree_descriptor (t : rtree) fs :
  wf_rtree t = true -> METADATA_OPF ∈ rfiles t ->
  files (register_tree stack top [] t fs) !! abs_of (stack ++ [METADATA_OPF])
  = Some (path_join top [METADATA_OPF]).
Proof.
  destruct t as [fl ls subs]. intros Hwf Hin. cbn [rfiles] in Hin.
  pose proof Hwf as (Hfl & _ & _ & Hsubs)%wf_rtree_inv.
  rewrite register_tree_unfold.
  assert (files (register_entry stack top [] (RNode fl ls subs) fs)
            !! abs_of (stack ++ [METADATA_OPF]) =
          Some (path_join top [METADATA_OPF])) as <-.
  { unfold register_entry. rewrite fold_add_directory_files. cbn [rfiles].
    apply (fold_set_file_lookup
             (fun f => abs_of (stack ++ [] ++ [f]))
             (fun f => path_join top ([] ++ [f])) fl fs METADATA_OPF Hin).
    intros f Hf E. cbn [app] in *.
    apply abs_of_path_inj in E; [by injection E as ->| |done].
    cbn. rewrite forallb_forall in Hfl.
    rewrite Hfl by (by apply list_elem_of_In). done. }
  generalize (register_entry stack top [] (RNode fl ls subs) fs).
  clear Hwf. induction subs as [|[n sub] l IHl]; intros a; [done|].
  apply Forall_cons in Hsubs as [[Hn Hw] Hsubs]. cbn [fst snd] in *.
  cbn [fold_left fst snd app]. rewrite IHl by done.
  apply register_tree_files_other; [done|].
  intros ms x Hms Hx E.
  apply (abs_of_path_inj [METADATA_OPF] ([n] ++ ms ++ [x])) in E.
  - injection E as _ E. by destruct ms.
  - done.
  - cbn [app forallb]. rewrite Hn, forallb_app, Hms. cbn. by rewrite Hx.
Qed.
End Descriptor.

Lemma descriptor_key_components (cs : list str) :
  cs ≠ [] -> forallb plain cs = true ->
  descriptor_key (join_str [SEP] cs) = abs_of (norm_abs cs ++ [METADATA_OPF]).
Proof.
  intros Hne Hcs. unfold descriptor_key.
  pose proof (virtual_path cs Hne Hcs [] METADATA_OPF eq_refl eq_refl) as H.
  exact H.
Qed.

Lemma register_book_descriptor os (cs : list str) (book_dir : str) fs t :
  wf_os os = true -> cs ≠ [] -> forallb plain cs = true ->
  fs_resolve os book_dir = Some t -> METADATA_OPF ∈ rfiles t ->
  files (register_book os cs book_dir fs) !! descriptor_key (join_str [SEP] cs)
  = Some (path_join book_dir [METADATA_OPF]).
Proof.
  intros Hos Hne Hcs Hr Hin. unfold register_book. rewrite Hr.
  rewrite descriptor_key_components by done.
  apply fs_resolve_wf in Hr as [Hw _]; [|done].
  apply register_tree_descriptor; [|done|done].
  by apply norm_abs_plain, forallb_plain_sep_free.
Qed.

Section Descriptors.
Variables (db : UnicodeDB) (os : OS).
Hypothesis Hos : wf_os os = true.

(** Right after a book is indexed its descriptor is in the index,
    under the book's virtual path; the key stays in the index. *)
Lemma descriptor_indexed (l1 l2 : list str) (m : str) (w w' : World) :
  index_inv (self w) ->
  for_each (l1 ++ m :: l2) (index_book db os) w = (Return tt, w') ->
  m ∈ discovered os (root_dir (self w)) ->
  exists p w1,
    book_path_of db os m = Some p /\
    for_each (l1 ++ [m]) (index_book db os) w = (Return tt, w1) /\
    files (self w1) !! descriptor_key p = Some (descriptor_path m) /\
    for_each l2 (index_book db os) w1 = (Return tt, w') /\
    descriptor_key p ∈ dom (files (self w')).
Proof.
  intros Hinv Hrun Hm.
  destruct (discovered_resolves os _ m Hos Hm) as (t & Hr & Hin).
  rewrite for_each_app in Hrun.
  destruct (for_each l1 (index_book db os) w) as [[[]|e] wa] eqn:E1; [|done].
  destruct (books_loop_inv db os Hos l1 w wa E1 Hinv) as [Ia _].
  cbn [for_each] in Hrun. revert Hrun. run_method.
  destruct (index_book db os m wa) as [[[]|e] w1] eqn:Em; [|done].
  intros Hrun.
  pose proof Em as (p & cs & Hp & -> & Hne & Hcs & Hself)%index_book_run;
    [|done].
  exists (join_str [SEP] cs), w1. split; [done|].
  assert (files (self w1) !! descriptor_key (join_str [SEP] cs) =
          Some (descriptor_path m)) as Hlook.
  { rewrite Hself. by eapply register_book_descriptor. }
  split.
  { rewrite for_each_app, E1. cbn [for_each]. run_method. by rewrite Em. }
  split; [done|]. split; [done|].
  destruct (register_book_inv os cs (dirname m) (self wa) Hos Hcs Ia)
    as [I1 _]. rewrite <- Hself in I1.
  destruct (books_loop_inv db os Hos l2 w1 w' Hrun I1) as [_ [_ Hdom]].
  apply Hdom. apply elem_of_dom. by eexists.
Qed.
End Descriptors.

(** * The operations that answer queries *)

Section Queries.
Variable os : OS.

Lemma open_absent w path flags :
  files (self w) !! normpath path = None ->
  open os path flags w =
  (Raise (OSError ENOENT (py "File not found: " ++ normpath path)),
   {| self := self w;
      logged := logged w ++
        [LogError (py "File not found in open: " ++ normpath path)] |}).
Proof. intros Hf. unfold open. run_method. by rewrite Hf. Qed.

Lemma open_indexed w path flags actual :
  files (self w) !! normpath path = Some actual ->
  (INT_MIN <= flags <= INT_MAX)%Z ->
  match os_open os actual flags with
  | Ok _ => open os path flags w = (Return 0%Z, w)
  | Fails _ _ => fails_with (open os path flags) w AccessDenied
  end.
Proof.
  intros Hf Hr. unfold fails_with, result_of, open. run_method. rewrite Hf.
  assert ((flags <? INT_MIN)%Z || (INT_MAX <? flags)%Z = false) as -> by lia.
  destruct (os_open os actual flags); [by destruct w|].
  run_method. eauto.
Qed.

Lemma open_overflow w path flags actual :
  files (self w) !! normpath path = Some actual ->
  (flags < INT_MIN)%Z \/ (INT_MAX < flags)%Z ->
  open os path flags w = (Raise OverflowError, w).
Proof.
  intros Hf Hr. unfold open. run_method. rewrite Hf.
  assert ((flags <? INT_MIN)%Z || (INT_MAX <? flags)%Z = true) as -> by lia.
  by destruct w.
Qed.

Lemma open_not_found_iff w path flags :
  fails_with (open os path flags) w NotFound <->
  files (self w) !! normpath path = None.
Proof.
  split.
  - intros (e & He & Hk).
    destruct (files (self w) !! normpath path) as [actual|] eqn:Hf; [|done].
    unfold result_of in He.
    destruct (decide (INT_MIN <= flags <= INT_MAX)%Z) as [Hr|Hr].
    + pose proof (open_indexed w path flags actual Hf Hr) as H.
      destruct (os_open os actual flags).
      * rewrite H in He. done.
      * destruct H as (e' & He' & Hk'). unfold result_of in He'. congruence.
    + rewrite (open_overflow w path flags actual Hf) in He by lia.
      cbn [fst] in He. injection He as <-. done.
  - intros Hf. exists (OSError ENOENT (py "File not found: " ++ normpath path)).
    unfold result_of. by rewrite open_absent.
Qed.
End Queries.

Section ReadOnly.
Variable os : OS.

Lemma getattr_read_only path fh : read_only (getattr os path fh).
Proof.
  intros w. unfold world_after, result_of, getattr. run_method.
  destruct (str_eqb (normpath path) ROOT); [by destruct w|].
  destruct (files (self w) !! normpath path) as [actual|].
  - destruct (getsize os actual); [by destruct w|]. run_method. by split.
  - destruct (bool_decide _); [by destruct w|]. run_method. by split.
Qed.

Lemma readdir_read_only path fh : read_only (readdir path fh).
Proof. intros w. unfold world_after, result_of, readdir. run_method. by destruct w. Qed.

Lemma read_read_only path size offset fh :
  read_only (read os path size offset fh).
Proof.
  intros w. unfold world_after, result_of, read. run_method.
  destruct (files (self w) !! normpath path) as [actual|].
  - destruct (match open_rb os actual with
              | Ok content => seek_read os actual content size offset
              | Fails errno msg => ReadOSError errno msg
              end); run_method; [by destruct w|by split|by split].
  - run_method. by split.
Qed.

Lemma open_read_only path flags : read_only (open os path flags).
Proof.
  intros w. unfold world_after, result_of, open. run_method.
  destruct (files (self w) !! normpath path) as [actual|].
  - destruct ((flags <? INT_MIN)%Z || (INT_MAX <? flags)%Z);
      [run_method; by split|].
    destruct (os_open os actual flags); run_method; [by destruct w|by split].
  - run_method. by split.
Qed.

Lemma getattr_file_inv w path fh st :
  result_of (getattr os path fh) w = Return st -> st_nlink st = 1%Z ->
  exists actual, files (self w) !! normpath path = Some actual.
Proof.
  unfold result_of, getattr. run_method.
  destruct (str_eqb (normpath path) ROOT); [by intros [= <-]|].
  destruct (files (self w) !! normpath path) as [actual|]; [by eauto|].
  destruct (bool_decide _); [by intros [= <-]|done].
Qed.

Lemma getattr_dir_inv w path fh st :
  result_of (getattr os path fh) w = Return st -> st_nlink st = 2%Z ->
  normpath path = ROOT \/
  (files (self w) !! normpath path = None /\
   normpath path ∈ directories (self w)).
Proof.
  unfold result_of, getattr. run_method.
  destruct (str_eqb (normpath path) ROOT) eqn:E;
    [apply str_eqb_eq in E; by left|].
  destruct (files (self w) !! normpath path) as [actual|].
  - destruct (getsize os actual); [by intros [= <-]|done].
  - destruct (bool_decide _) eqn:Ed; [|done].
    apply bool_decide_eq_true_1 in Ed. intros _ _. by right.
Qed.

Lemma read_data w path size offset fh data :
  result_of (read os path size offset fh) w = Return data ->
  exists actual content,
    files (self w) !! normpath path = Some actual /\
    open_rb os actual = Ok content /\
    seek_read os actual content size offset = ReadData data.
Proof.
  unfold result_of, read. run_method.
  destruct (files (self w) !! normpath path) as [actual|] eqn:Hf; [|done].
  destruct (open_rb os actual) as [content|] eqn:Ho; [|done].
  destruct (seek_read os actual content size offset) eqn:E; [|done|done].
  intros [= <-]. by exists actual, content.
Qed.

Lemma read_run w path size offset fh actual content data :
  files (self w) !! normpath path = Some actual ->
  open_rb os actual = Ok content ->
  seek_read os actual content size offset = ReadData data ->
  result_of (read os path size offset fh) w = Return data.
Proof.
  intros Hf Ho Hs. unfold result_of, read. run_method.
  by rewrite Hf, Ho, Hs.
Qed.
End ReadOnly.

Lemma read_raises (os : OS) w path size offset fh actual content e :
  files (self w) !! normpath path = Some actual ->
  open_rb os actual = Ok content ->
  seek_read os actual content size offset = ReadRaises e ->
  result_of (read os path size offset fh) w = Raise e.
Proof.
  intros Hf Ho Hs. unfold result_of, read. run_method.
  by rewrite Hf, Ho, Hs.
Qed.

(** The exceptions of [seek] and [read] that are not [OSError]s. *)
Lemma seek_read_offset_type (os : OS) actual content size offset :
  (offset < - SSIZE_MAX - 1)%Z \/ (SSIZE_MAX < offset)%Z ->
  seek_read os actual content size offset = ReadRaises ValueError.
Proof.
  intros H. unfold seek_read.
  assert ((offset <? - SSIZE_MAX - 1)%Z || (SSIZE_MAX <? offset)%Z = true)
    as -> by lia.
  reflexivity.
Qed.

Lemma seek_read_size (os : OS) actual content size offset :
  (0 <= offset <= SSIZE_MAX)%Z -> (offset <= lseek_max os actual)%Z ->
  seek_read os actual content size offset =
  if (size <? - SSIZE_MAX - 1)%Z || (SSIZE_MAX <? size)%Z
  then ReadRaises OverflowError
  else if (size <? -1)%Z then ReadRaises ValueError
  else if (size =? 0)%Z then ReadData []
  else
    match bytes_alloc os
            (if (size =? -1)%Z
             then readall_bufsize (Z.of_nat (length content)) offset
             else size) with
    | Some f => ReadRaises (alloc_exc f)
    | None =>
        ReadData (if (size =? -1)%Z then drop (Z.to_nat offset) content
                  else take (Z.to_nat size) (drop (Z.to_nat offset) content))
    end.
Proof.
  intros Ho Hm. unfold seek_read.
  assert (0 < SSIZE_MAX)%Z by reflexivity.
  assert ((offset <? - SSIZE_MAX - 1)%Z = false) as -> by lia.
  assert ((SSIZE_MAX <? offset)%Z = false) as -> by lia.
  assert ((offset <? 0)%Z = false) as -> by lia.
  assert ((lseek_max os actual <? offset)%Z = false) as -> by lia.
  reflexivity.
Qed.

(** * What a directory tree contributes to the index *)

Lemma fold_add_directory_dirs {A} (g : A -> str) (l : list A) fs d :
  d ∈ directories (fold_left (fun fs a => add_directory (g a) fs) l fs) <->
  d ∈ directories fs \/ exists a, a ∈ l /\ d = g a.
Proof.
  revert fs. induction l as [|a l IH]; intros fs; cbn [fold_left].
  - split; [by left|]. intros [H|(a & Ha & _)]; [done|by inversion Ha].
  - rewrite IH. cbn [add_directory directories].
    rewrite elem_of_union, elem_of_singleton. split.
    + intros [[->|H]|(b & Hb & ->)].
      * right. exists a. split; [by left|done].
      * by left.
      * right. exists b. split; [by right|done].
    + intros [H|(b & Hb & ->)]; [left; by right|].
      apply elem_of_cons in Hb as [->|Hb]; [left; by left|].
      right. by exists b.
Qed.

Lemma fold_add_directory_same_files {A} (g : A -> str) (l : list A) fs :
  files (fold_left (fun fs a => add_directory (g a) fs) l fs) = files fs.
Proof.
  revert fs. induction l as [|a l IH]; intros fs; [done|].
  cbn [fold_left]. by rewrite IH.
Qed.

Lemma fold_set_file_same_dirs {A} (g h : A -> str) (l : list A) fs :
  directories (fold_left (fun fs a => set_file (g a) (h a) fs) l fs) =
  directories fs.
Proof.
  revert fs. induction l as [|a l IH]; intros fs; [done|].
  cbn [fold_left]. by rewrite IH.
Qed.

Lemma fold_set_file_sound {A} (g h : A -> str) (l : list A) fs k v :
  files (fold_left (fun fs a => set_file (g a) (h a) fs) l fs) !! k = Some v ->
  files fs !! k = Some v \/ exists a, a ∈ l /\ k = g a /\ v = h a.
Proof.
  revert fs. induction l as [|a l IH]; intros fs; cbn [fold_left]; [by left|].
  intros [H|(b & Hb & -> & ->)]%IH.
  - cbn [set_file files] in H.
    destruct (decide (g a = k)) as [<-|E].
    + rewrite lookup_insert_eq in H. injection H as <-.
      right. exists a. split; [by left|done].
    + rewrite lookup_insert_ne in H by done. by left.
  - right. exists b. split; [by right|done].
Qed.

Lemma lookup_sub_In (n : str) (subs : list (str * rtree)) (sub : rtree) :
  lookup_sub n subs = Some sub -> (n, sub) ∈ subs.
Proof.
  induction subs as [|[n' t'] l IH]; [done|]. cbn [lookup_sub].
  destruct (str_eqb n' n) eqn:E.
  - apply str_eqb_eq in E as ->. intros [= ->]. by left.
  - intros H. right. by apply IH.
Qed.

Lemma wf_rtree_names (t : rtree) :
  wf_rtree t = true ->
  forallb valid_name (rfiles t) = true /\
  forallb valid_name (map fst (rsubs t) ++ rlinks t) = true.
Proof.
  destruct t as [fl ls subs].
  intros (Hfl & Hls & _ & Hsubs)%wf_rtree_inv. split; [done|].
  cbn [rsubs rlinks]. rewrite forallb_app, Hls, andb_true_r.
  apply forallb_forall. intros x Hx. apply in_map_iff in Hx as (s & <- & Hs).
  rewrite Forall_forall in Hsubs. apply Hsubs. by apply list_elem_of_In.
Qed.

Lemma forallb_elem {A} (f : A -> bool) (l : list A) (x : A) :
  forallb f l = true -> x ∈ l -> f x = true.
Proof.
  intros H Hx. rewrite forallb_forall in H. by apply H, list_elem_of_In.
Qed.

(** The names on the way to a directory of a well-formed tree are
    names. *)
Lemma descend_valid (t : rtree) (ms : list str) (t' : rtree) :
  wf_rtree t = true -> descend t ms = Some t' ->
  forallb valid_name ms = true /\ wf_rtree t' = true.
Proof.
  revert t. induction ms as [|m ms IH]; intros t Hwf.
  - by intros [= <-].
  - cbn [descend]. destruct (lookup_sub m (rsubs t)) as [sub|] eqn:E; [|done].
    intros H. apply lookup_sub_In in E.
    destruct t as [fl ls subs]. cbn [rsubs] in E.
    apply wf_rtree_inv in Hwf as (_ & _ & _ & Hsubs).
    rewrite Forall_forall in Hsubs. destruct (Hsubs _ E) as [Hm Hw].
    cbn [fst snd] in Hm, Hw. destruct (IH sub Hw H) as [H1 H2].
    split; [|done]. cbn [forallb]. by rewrite Hm, H1.
Qed.

Lemma tree_file_valid (t : rtree) (ms : list str) (x : str) :
  wf_rtree t = true -> tree_file t ms x ->
  forallb valid_name ms = true /\ valid_name x = true.
Proof.
  intros Hwf (t' & Hd & Hx). destruct (descend_valid t ms t' Hwf Hd) as [H1 H2].
  split; [done|]. apply wf_rtree_names in H2 as [H2 _].
  by eapply forallb_elem.
Qed.

Lemma tree_dir_valid (t : rtree) (ms : list str) (n : str) :
  wf_rtree t = true -> tree_dir t ms n ->
  forallb valid_name ms = true /\ valid_name n = true.
Proof.
  intros Hwf (t' & Hd & Hx). destruct (descend_valid t ms t' Hwf Hd) as [H1 H2].
  split; [done|]. apply wf_rtree_names in H2 as [_ H2].
  by eapply forallb_elem.
Qed.

Lemma tree_file_sub fl ls subs n sub ms x :
  nodup_names (map fst subs) = true -> (n, sub) ∈ subs ->
  tree_file sub ms x -> tree_file (RNode fl ls subs) (n :: ms) x.
Proof.
  intros Hnd Hin (t' & Hd & Hx). exists t'. split; [|done].
  cbn [descend rsubs]. by rewrite (lookup_sub_elem n sub subs).
Qed.

Lemma tree_dir_sub fl ls subs n sub ms x :
  nodup_names (map fst subs) = true -> (n, sub) ∈ subs ->
  tree_dir sub ms x -> tree_dir (RNode fl ls subs) (n :: ms) x.
Proof.
  intros Hnd Hin (t' & Hd & Hx). exists t'. split; [|done].
  cbn [descend rsubs]. by rewrite (lookup_sub_elem n sub subs).
Qed.

Lemma tree_file_inv fl ls subs ms x :
  tree_file (RNode fl ls subs) ms x ->
  (ms = [] /\ x ∈ fl) \/
  exists n ms' sub, ms = n :: ms' /\ (n, sub) ∈ subs /\ tree_file sub ms' x.
Proof.
  intros (t' & Hd & Hx). destruct ms as [|n ms'].
  - injection Hd as <-. by left.
  - right. cbn [descend rsubs] in Hd.
    destruct (lookup_sub n subs) as [sub|] eqn:E; [|done].
    exists n, ms', sub. split; [done|]. split; [by apply lookup_sub_In|].
    by exists t'.
Qed.

Lemma tree_dir_inv fl ls subs ms x :
  tree_dir (RNode fl ls subs) ms x ->
  (ms = [] /\ x ∈ map fst subs ++ ls) \/
  exists n ms' sub, ms = n :: ms' /\ (n, sub) ∈ subs /\ tree_dir sub ms' x.
Proof.
  intros (t' & Hd & Hx). destruct ms as [|n ms'].
  - injection Hd as <-. by left.
  - right. cbn [descend rsubs] in Hd.
    destruct (lookup_sub n subs) as [sub|] eqn:E; [|done].
    exists n, ms', sub. split; [done|]. split; [by apply lookup_sub_In|].
    by exists t'.
Qed.

Section TreeIndex.
Variables (stack : list str) (top : str).

Lemma register_entry_dirs ns t fs d :
  d ∈ directories (register_entry stack top ns t fs) <->
  d ∈ directories fs \/
  exists n, n ∈ map fst (rsubs t) ++ rlinks t /\
            d = abs_of (stack ++ ns ++ [n]).
Proof.
  unfold register_entry.
  rewrite (fold_add_directory_dirs (fun n => abs_of (stack ++ ns ++ [n]))).
  by rewrite (fold_set_file_same_dirs
                (fun f => abs_of (stack ++ ns ++ [f]))
                (fun f => path_join top (ns ++ [f]))).
Qed.

Lemma register_entry_sound ns t fs k v :
  files (register_entry stack top ns t fs) !! k = Some v ->
  files fs !! k = Some v \/
  exists x, x ∈ rfiles t /\ k = abs_of (stack ++ ns ++ [x]) /\
            v = path_join top (ns ++ [x]).
Proof.
  unfold register_entry.
  rewrite (fold_add_directory_same_files
             (fun n => abs_of (stack ++ ns ++ [n]))).
  apply (fold_set_file_sound (fun f => abs_of (stack ++ ns ++ [f]))
           (fun f => path_join top (ns ++ [f]))).
Qed.

(** The directories a tree adds are its subdirectories and links. *)
Lemma register_tree_dirs (t : rtree) :
  wf_rtree t = true ->
  forall ns fs d,
    d ∈ directories (register_tree stack top ns t fs) <->
    d ∈ directories fs \/
    exists ms n, tree_dir t ms n /\ d = abs_of (stack ++ ns ++ ms ++ [n]).
Proof.
  induction t as [fl ls subs IH] using rtree_nested_ind.
  intros Hwf ns fs d.
  apply wf_rtree_inv in Hwf as (_ & _ & Hnd & Hsubs).
  rewrite register_tree_unfold.
  assert (forall l a,
    l ⊆ subs ->
    d ∈ directories (fold_left
           (fun acc s => register_tree stack top (ns ++ [fst s]) (snd s) acc)
           l a) <->
    d ∈ directories a \/
    exists s ms n, s ∈ l /\ tree_dir (snd s) ms n /\
                   d = abs_of (stack ++ ns ++ (fst s :: ms) ++ [n])) as Hfold.
  { induction l as [|s l IHl]; intros a Hl; cbn [fold_left].
    - split; [by left|]. intros [H|(s & ? & ? & Hs & _)]; [done|by inversion Hs].
    - rewrite IHl by (intros y Hy; apply Hl; by right).
      assert (s ∈ subs) as Hs by (apply Hl; by left).
      rewrite Forall_forall in IH, Hsubs.
      destruct (Hsubs s Hs) as [_ Hw].
      rewrite (IH s Hs Hw). split.
      + intros [[H|(ms & n & Ht & ->)]|(s' & ms & n & Hs' & Ht & ->)].
        * by left.
        * right. exists s, ms, n. split; [by left|]. split; [done|].
          by rewrite <- !app_assoc.
        * right. exists s', ms, n. split; [by right|done].
      + intros [H|(s' & ms & n & Hs' & Ht & ->)]; [left; by left|].
        apply elem_of_cons in Hs' as [->|Hs'].
        * left. right. exists ms, n. split; [done|].
          by rewrite <- !app_assoc.
        * right. by exists s', ms, n. }
  rewrite Hfold by done. rewrite register_entry_dirs. cbn [rsubs rlinks].
  split.
  - intros [[H|(n & Hn & ->)]|(s & ms & n & Hs & Ht & ->)].
    + by left.
    + right. exists [], n. split; [|done]. by eexists.
    + right. exists (fst s :: ms), n. split; [|done].
      destruct s as [m sub]. by eapply tree_dir_sub.
  - intros [H|(ms & n & Ht & ->)]; [left; by left|].
    apply tree_dir_inv in Ht as [[-> Hn]|(m & ms' & sub & -> & Hs & Ht)].
    + left. right. by exists n.
    + right. by exists (m, sub), ms', n.
Qed.

(** A value the walk of a tree leaves in the index is the real path
    of a file of the tree, under the key of that file. *)
Lemma register_tree_sound (t : rtree) :
  wf_rtree t = true ->
  forall ns fs k v,
    files (register_tree stack top ns t fs) !! k = Some v ->
    files fs !! k = Some v \/
    exists ms x, tree_file t ms x /\
                 k = abs_of (stack ++ ns ++ ms ++ [x]) /\
                 v = path_join top (ns ++ ms ++ [x]).
Proof.
  induction t as [fl ls subs IH] using rtree_nested_ind.
  intros Hwf ns fs k v.
  apply wf_rtree_inv in Hwf as (_ & _ & Hnd & Hsubs).
  rewrite register_tree_unfold.
  assert (forall l a,
    l ⊆ subs ->
    files (fold_left
           (fun acc s => register_tree stack top (ns ++ [fst s]) (snd s) acc)
           l a) !! k = Some v ->
    files a !! k = Some v \/
    exists s ms x, s ∈ l /\ tree_file (snd s) ms x /\
                   k = abs_of (stack ++ ns ++ (fst s :: ms) ++ [x]) /\
                   v = path_join top (ns ++ (fst s :: ms) ++ [x])) as Hfold.
  { induction l as [|s l IHl]; intros a Hl; cbn [fold_left]; [by left|].
    assert (s ∈ subs) as Hs by (apply Hl; by left).
    rewrite Forall_forall in IH, Hsubs.
    destruct (Hsubs s Hs) as [_ Hw].
    intros [H|(s' & ms & x & Hs' & Ht & -> & ->)]%IHl;
      [|right|intros y Hy; apply Hl; by right].
    - apply (IH s Hs Hw) in H as [H|(ms & x & Ht & -> & ->)]; [by left|].
      right. exists s, ms, x. split; [by left|]. split; [done|].
      by rewrite <- !app_assoc.
    - exists s', ms, x. split; [by right|done]. }
  intros [H|(s & ms & x & Hs & Ht & -> & ->)]%Hfold; [|right|done].
  - apply register_entry_sound in H as [H|(x & Hx & -> & ->)]; [by left|].
    right. exists [], x. split; [|done]. by eexists.
  - exists (fst s :: ms), x. split; [|done].
    destruct s as [m sub]. by eapply tree_file_sub.
Qed.
End TreeIndex.

Lemma str_in_elem (x : str) (l : list str) : x ∈ l -> str_in x l = true.
Proof.
  unfold str_in. induction l as [|y l IH]; [by inversion 1|].
  cbn [existsb]. intros [<-|H]%elem_of_cons.
  - by rewrite str_eqb_refl.
  - rewrite IH by done. apply orb_true_r.
Qed.

Lemma nodup_names_later (l1 l2 : list (str * rtree)) n sub :
  nodup_names (map fst (l1 ++ (n, sub) :: l2)) = true ->
  forall s, s ∈ l2 -> fst s ≠ n.
Proof.
  intros Hnd s Hs E. induction l1 as [|s1 l1 IH]; cbn [app map nodup_names fst] in Hnd.
  - apply andb_prop in Hnd as [Hnd _]. apply negb_true_iff in Hnd.
    rewrite str_in_elem in Hnd; [done|].
    apply list_elem_of_fmap. by exists s.
  - apply andb_prop in Hnd as [_ Hnd]. by apply IH.
Qed.

Section TreeComplete.
Variables (stack : list str) (top : str).
Hypothesis Hstack : forallb plain stack = true.

Lemma register_entry_file ns t fs x :
  forallb valid_name ns = true -> forallb valid_name (rfiles t) = true ->
  x ∈ rfiles t ->
  files (register_entry stack top ns t fs) !! abs_of (stack ++ ns ++ [x]) =
  Some (path_join top (ns ++ [x])).
Proof.
  intros Hns Hfl Hx. unfold register_entry.
  rewrite (fold_add_directory_same_files
             (fun n => abs_of (stack ++ ns ++ [n]))).
  apply (fold_set_file_lookup
           (fun f => abs_of (stack ++ ns ++ [f]))
           (fun f => path_join top (ns ++ [f])) (rfiles t) fs x Hx).
  intros f Hf E.
  apply (abs_of_path_inj stack Hstack) in E.
  - apply app_inv_head in E. by injection E as ->.
  - rewrite forallb_app, Hns. cbn. by rewrite (forallb_elem _ _ f Hfl Hf).
  - rewrite forallb_app, Hns. cbn. by rewrite (forallb_elem _ _ x Hfl Hx).
Qed.

(** Every file of the tree is in the index after the walk, with its
    real path. *)
Lemma register_tree_complete (t : rtree) :
  wf_rtree t = true ->
  forall ns fs ms x,
    forallb valid_name ns = true -> tree_file t ms x ->
    files (register_tree stack top ns t fs)
      !! abs_of (stack ++ ns ++ ms ++ [x]) =
    Some (path_join top (ns ++ ms ++ [x])).
Proof.
  induction t as [fl ls subs IH] using rtree_nested_ind.
  intros Hwf ns fs ms x Hns Ht.
  destruct (tree_file_valid _ _ _ Hwf Ht) as [Hms Hx].
  pose proof Hwf as (Hfl & _ & Hnd & Hsubs)%wf_rtree_inv.
  rewrite register_tree_unfold.
  set (step := fun acc s =>
                 register_tree stack top (ns ++ [fst s]) (snd s) acc).
  (* the subtrees whose name is not the first of [ms] leave the key *)
  assert (forall l a,
    l ⊆ subs -> (forall s, s ∈ l -> [fst s] ≠ take 1 ms) ->
    files (fold_left step l a) !! abs_of (stack ++ ns ++ ms ++ [x]) =
    files a !! abs_of (stack ++ ns ++ ms ++ [x])) as Hother.
  { induction l as [|s l IHl]; intros a Hl Hne; cbn [fold_left]; [done|].
    rewrite IHl; [|intros y Hy; apply Hl; by right
                  |intros s' Hs'; apply Hne; by right].
    assert (s ∈ subs) as Hs by (apply Hl; by left).
    rewrite Forall_forall in Hsubs. destruct (Hsubs s Hs) as [Hn Hw].
    unfold step. apply register_tree_files_other; [done|].
    intros ms' x' Hms' Hx' E.
    apply (abs_of_path_inj stack Hstack) in E.
    - rewrite <- app_assoc in E. apply app_inv_head in E.
      apply (Hne s); [by left|].
      destruct ms as [|m ms0]; cbn in E; injection E as E1 E2.
      * by destruct ms'.
      * by rewrite E1.
    - rewrite !forallb_app, Hns, Hms. cbn. by rewrite Hx.
    - rewrite !forallb_app, Hns, Hms'. cbn. by rewrite Hn, Hx'. }
  apply tree_file_inv in Ht as [[-> Hin]|(n & ms' & sub & -> & Hs & Ht)].
  - rewrite Hother; [|done|by intros s _].
    by apply register_entry_file.
  - clear Hother.
    apply list_elem_of_split in Hs as (l1 & l2 & ->).
    rewrite fold_left_app. cbn [fold_left].
    generalize (fold_left step l1
                  (register_entry stack top ns (RNode fl ls (l1 ++ (n, sub) :: l2)) fs)).
    intros a.
    assert (forall l b,
      (forall s, s ∈ l -> fst s ≠ n) ->
      Forall (fun s => valid_name (fst s) = true /\ wf_rtree (snd s) = true) l ->
      files (fold_left step l b) !! abs_of (stack ++ ns ++ (n :: ms') ++ [x]) =
      files b !! abs_of (stack ++ ns ++ (n :: ms') ++ [x])) as Hrest.
    { induction l as [|s l IHl]; intros b Hne Hall; cbn [fold_left]; [done|].
      apply Forall_cons in Hall as [[Hn Hw] Hall].
      rewrite IHl; [|intros s' Hs'; apply Hne; by right|done].
      unfold step. apply register_tree_files_other; [done|].
      intros ms2 x2 Hms2 Hx2 E.
      apply (abs_of_path_inj stack Hstack) in E.
      - rewrite <- app_assoc in E. apply app_inv_head in E.
        apply (Hne s); [by left|]. by injection E.
      - rewrite !forallb_app, Hns, Hms. cbn. by rewrite Hx.
      - rewrite !forallb_app, Hns, Hms2. cbn. by rewrite Hn, Hx2. }
    rewrite Hrest.
    + unfold step. cbn [fst snd].
      rewrite Forall_forall in IH, Hsubs.
      assert ((n, sub) ∈ l1 ++ (n, sub) :: l2) as Hin
        by (apply elem_of_app; right; by left).
      destruct (Hsubs _ Hin) as [Hn Hw]. cbn [fst snd] in Hn, Hw.
      specialize (IH _ Hin Hw (ns ++ [n]) a ms' x). cbn [snd] in IH.
      rewrite <- !app_assoc in IH. cbn [app] in IH. cbn [app].
      apply IH; [|done]. rewrite forallb_app, Hns. cbn. by rewrite Hn.
    + by apply (nodup_names_later l1 l2 n sub).
    + apply Forall_forall. intros s Hs. rewrite Forall_forall in Hsubs.
      apply Hsubs. apply elem_of_app. right. by right.
Qed.
End TreeComplete.

(** * What a book contributes to the index *)

Lemma normpath_step_valid (st : list str) (c : str) :
  sep_free c = true -> forallb valid_name st = true ->
  forallb valid_name (normpath_step 1 st c) = true.
Proof.
  intros Hc Hst. unfold normpath_step.
  destruct (str_eqb c []) eqn:E1; [done|].
  destruct (str_eqb c DOT) eqn:E2; [done|]. cbn [orb].
  destruct (str_eqb c DOTDOT) eqn:E3; cbn [negb orb Nat.eqb andb].
  - destruct st as [|x st']; [done|].
    cbn [forallb] in Hst. apply andb_prop in Hst as [Hx Hst'].
    apply valid_name_inv in Hx as (_ & _ & Hx). apply str_eqb_neq in Hx.
    by rewrite Hx.
  - cbn [forallb]. rewrite Hst, andb_true_r.
    unfold valid_name, plain. rewrite Hc, E2, E3.
    apply str_eqb_neq in E1. by destruct c.
Qed.

Lemma norm_abs_valid (cs : list str) :
  forallb sep_free cs = true -> forallb valid_name (norm_abs cs) = true.
Proof.
  intros Hcs. unfold norm_abs. rewrite forallb_rev.
  assert (forall st, forallb valid_name st = true ->
            forallb valid_name (fold_left (normpath_step 1) cs st) = true) as H.
  { induction cs as [|c cs IH]; intros st Hst; [done|].
    cbn [forallb] in Hcs. apply andb_prop in Hcs as [Hc Hcs].
    cbn [fold_left]. apply IH; [done|]. by apply normpath_step_valid. }
  by apply H.
Qed.

Lemma norm_abs_names (ns : list str) :
  forallb valid_name ns = true -> norm_abs ns = ns.
Proof.
  intros H. unfold norm_abs. rewrite fold_normpath_push by done.
  by rewrite app_nil_r, rev_involutive.
Qed.

Lemma forallb_take {A} (f : A -> bool) (l : list A) (i : nat) :
  forallb f l = true -> forallb f (take i l) = true.
Proof.
  revert i. induction l as [|x l IH]; intros [|i]; try done.
  cbn [forallb take]. intros [Hx Hl]%andb_prop. by rewrite Hx, IH.
Qed.

Lemma register_prefixes_dirs (cs : list str) (fs : BookFS) (d : str) :
  d ∈ directories (register_prefixes cs fs) <->
  d ∈ directories fs \/
  exists i, (1 <= i <= length cs)%nat /\ d = abs_of (norm_abs (take i cs)).
Proof.
  unfold register_prefixes.
  rewrite (fold_add_directory_dirs (fun i => abs_of (norm_abs (take i cs)))).
  split; (intros [H|(i & Hi & ->)]; [by left|right; exists i; split; [|done]]).
  - apply elem_of_seq in Hi. lia.
  - apply elem_of_seq. lia.
Qed.

Lemma register_prefixes_files (cs : list str) (fs : BookFS) :
  files (register_prefixes cs fs) = files fs.
Proof.
  unfold register_prefixes.
  apply (fold_add_directory_same_files (fun i => abs_of (norm_abs (take i cs)))).
Qed.

Section BookIndex.
Variable os : OS.
Hypothesis Hos : wf_os os = true.

Lemma register_book_dirs cs book_dir fs d :
  d ∈ directories (register_book os cs book_dir fs) <->
  d ∈ directories fs \/ book_directory os cs book_dir d.
Proof.
  unfold register_book, book_directory, dir_below.
  destruct (fs_resolve os book_dir) as [t|] eqn:Er.
  - pose proof Er as [Hw _]%fs_resolve_wf; [|done].
    rewrite register_tree_dirs by done. rewrite register_prefixes_dirs.
    cbn [app]. split.
    + intros [[H|H]|(ms & n & Ht & ->)]; [by left|right; by left|].
      right. right. exists ms, n. split; [|done]. by exists t.
    + intros [H|[H|(ms & n & (t' & [= <-] & Ht) & ->)]];
        [left; by left|left; by right|].
      right. by exists ms, n.
  - rewrite register_prefixes_dirs. split.
    + intros [H|H]; [by left|right; by left].
    + intros [H|[H|(ms & n & (t' & [=] & _) & _)]]; [by left|by right].
Qed.

Lemma register_book_sound cs book_dir fs k v :
  files (register_book os cs book_dir fs) !! k = Some v ->
  files fs !! k = Some v \/ book_file os cs book_dir k v.
Proof.
  unfold register_book, book_file, file_below.
  destruct (fs_resolve os book_dir) as [t|] eqn:Er.
  - pose proof Er as [Hw _]%fs_resolve_wf; [|done].
    intros [H|(ms & x & Ht & -> & ->)]%register_tree_sound; [|right|done].
    + left. by rewrite register_prefixes_files in H.
    + exists ms, x. split; [by exists t|done].
  - rewrite register_prefixes_files. by left.
Qed.

Lemma register_book_complete cs book_dir fs k v :
  forallb plain cs = true -> book_file os cs book_dir k v ->
  files (register_book os cs book_dir fs) !! k = Some v.
Proof.
  intros Hcs (ms & x & (t & Er & Ht) & -> & ->). unfold register_book.
  rewrite Er. pose proof Er as [Hw _]%fs_resolve_wf; [|done].
  apply (register_tree_complete (norm_abs cs) book_dir
           (norm_abs_plain cs (forallb_plain_sep_free cs Hcs))
           t Hw [] (register_prefixes cs fs) ms x eq_refl Ht).
Qed.
End BookIndex.

(** * The index of a library *)

Lemma fold_left_extends {A} (f : BookFS -> A -> BookFS) (l : list A) fs :
  (forall a x, x ∈ l -> extends a (f a x)) -> extends fs (fold_left f l fs).
Proof.
  revert fs. induction l as [|x l IH]; intros fs H; [apply extends_refl|].
  cbn [fold_left]. eapply extends_trans; [apply H; by left|].
  apply IH. intros a y Hy. apply H. by right.
Qed.

Lemma register_tree_extends stack top (t : rtree) :
  forall ns fs, extends fs (register_tree stack top ns t fs).
Proof.
  induction t as [fl ls subs IH] using rtree_nested_ind. intros ns fs.
  rewrite register_tree_unfold.
  apply (extends_trans _ (register_entry stack top ns (RNode fl ls subs) fs)).
  - unfold register_entry. cbv zeta.
    eapply extends_trans; [|apply fold_left_extends; intros a x _;
                             apply extends_add_directory].
    apply fold_left_extends. intros a x _. apply extends_set_file.
  - apply fold_left_extends.
    intros a s Hs. rewrite Forall_forall in IH. by apply IH.
Qed.

Lemma register_book_extends os cs book_dir fs :
  extends fs (register_book os cs book_dir fs).
Proof.
  unfold register_book.
  assert (extends fs (register_prefixes cs fs)) as H.
  { apply fold_left_extends. intros a x _. apply extends_add_directory. }
  destruct (fs_resolve os book_dir); [|done].
  eapply extends_trans; [done|apply register_tree_extends].
Qed.

Section Library.
Variables (db : UnicodeDB) (os : OS).
Hypothesis Hos : wf_os os = true.

Lemma book_at_components m cs :
  book_at db os m cs -> book_components db os m = cs.
Proof.
  intros (Hp & Hne & Hcs). unfold book_components. rewrite Hp.
  by apply path_components.
Qed.

Lemma books_loop_run (l : list str) w w' :
  for_each l (index_book db os) w = (Return tt, w') ->
  self w' = index_books db os l (self w) /\
  Forall (fun m => exists cs, book_at db os m cs) l.
Proof.
  revert w. induction l as [|m l IH]; intros w.
  - cbn [for_each]. unfold mret, method_ret, ret. by intros [= <-].
  - cbn [for_each]. run_method.
    destruct (index_book db os m w) as [[[]|e] w1] eqn:E; [|done].
    intros Hl.
    apply (index_book_run db os Hos) in E
      as (p & cs & Hp & -> & Hne & Hcs & Hself).
    destruct (IH w1 Hl) as [H1 H2].
    assert (book_at db os m cs) as Hb by done.
    split.
    + unfold index_books. cbn [fold_left].
      rewrite (book_at_components m cs Hb), <- Hself. exact H1.
    + apply Forall_cons. split; [by exists cs|done].
Qed.

(** Once the descriptor gives a virtual book path, the round of the
    loop for it completes. *)
Lemma index_book_total m w p :
  book_path_of db os m = Some p ->
  exists w', index_book db os m w = (Return tt, w').
Proof.
  unfold book_path_of. set (w0 := serving _).
  destruct (parse_metadata db os m w0) as [[md|e] w0'] eqn:Ep0; [|done].
  destruct (get_book_path db md w0') as [[p'|e] w0''] eqn:Eg0; [|done].
  intros [= ->].
  pose proof (parse_metadata_result db os m w w0) as Hr.
  unfold result_of in Hr. rewrite Ep0 in Hr. cbn [fst] in Hr.
  destruct (parse_metadata db os m w) as [r w1] eqn:Ep. cbn [fst] in Hr.
  subst r.
  pose proof (get_book_path_result db md w1 w0') as Hg.
  unfold result_of in Hg. rewrite Eg0 in Hg. cbn [fst] in Hg.
  destruct (get_book_path db md w1) as [r w2] eqn:Eg. cbn [fst] in Hg.
  subst r.
  assert (fields_ok md) as Hf.
  { apply (parse_metadata_fields db os m w). unfold result_of. by rewrite Ep. }
  destruct (get_book_path_components db md w1 p Hf) as (cs & Hne & Hcs & ->).
  { unfold result_of. by rewrite Eg. }
  unfold index_book. run_method. rewrite Ep, Eg.
  rewrite path_components by done. rewrite prefixes_loop by done.
  unfold os_walk.
  destruct (fs_resolve os (dirname m)) as [t|] eqn:Er.
  - apply fs_resolve_wf in Er as [Hw Htop]; [|done].
    pose proof (walk_loop_run cs Hne Hcs (cwd os) (dirname m)
                  (cwd_absolute os Hos) Htop t Hw []) as Hrun.
    change (path_join (dirname m) []) with (dirname m) in Hrun.
    change (map _ (walk (dirname m) t))
      with (map walk_view (walk (dirname m) t)).
    rewrite Hrun by done. by eexists.
  - cbn [for_each]. by eexists.
Qed.

Lemma books_loop_total (l : list str) w :
  (forall m, m ∈ l -> exists p, book_path_of db os m = Some p) ->
  exists w', for_each l (index_book db os) w = (Return tt, w').
Proof.
  revert w. induction l as [|m l IH]; intros w H.
  - by eexists.
  - destruct (H m) as [p Hp]; [by left|].
    destruct (index_book_total m w p Hp) as [w1 E].
    destruct (IH w1) as [w' E']; [intros m' Hm'; apply H; by right|].
    exists w'. cbn [for_each]. run_method. by rewrite E.
Qed.

Lemma new_BookFS_index root fs :
  new_BookFS db os root = Return fs ->
  fs = index_books db os (discovered os root)
         {| root_dir := root; files := ∅; directories := ∅ |} /\
  Forall (fun m => exists cs, book_at db os m cs) (discovered os root).
Proof.
  intros (w' & Hrun & <-)%new_BookFS_run. by apply books_loop_run in Hrun.
Qed.

(** The index after the rounds for the books [l]. *)
Lemma index_books_dirs (l : list str) fs d :
  d ∈ directories (index_books db os l fs) <->
  d ∈ directories fs \/
  exists m, m ∈ l /\
    book_directory os (book_components db os m) (dirname m) d.
Proof.
  revert fs. unfold index_books.
  induction l as [|m l IH]; intros fs; cbn [fold_left].
  - split; [by left|]. intros [H|(m & Hm & _)]; [done|by inversion Hm].
  - rewrite IH, (register_book_dirs os Hos). split.
    + intros [[H|H]|(m' & Hm' & H)].
      * by left.
      * right. exists m. split; [by left|done].
      * right. exists m'. split; [by right|done].
    + intros [H|(m' & Hm' & H)]; [left; by left|].
      apply elem_of_cons in Hm' as [->|Hm']; [left; by right|].
      right. by exists m'.
Qed.

Lemma index_books_sound (l : list str) fs k v :
  files (index_books db os l fs) !! k = Some v ->
  files fs !! k = Some v \/
  exists m, m ∈ l /\
    book_file os (book_components db os m) (dirname m) k v.
Proof.
  revert fs. unfold index_books.
  induction l as [|m l IH]; intros fs; cbn [fold_left]; [by left|].
  intros H. apply IH in H as [H|(m' & Hm' & H)].
  - apply (register_book_sound os Hos) in H as [H|H]; [by left|].
    right. exists m. split; [by left|done].
  - right. exists m'. split; [by right|done].
Qed.

Lemma index_books_complete (l : list str) fs m k v :
  Forall (fun m => exists cs, book_at db os m cs) l ->
  m ∈ l -> book_file os (book_components db os m) (dirname m) k v ->
  k ∈ dom (files (index_books db os l fs)).
Proof.
  intros Hall Hm Hk. apply list_elem_of_split in Hm as (l1 & l2 & ->).
  unfold index_books. rewrite fold_left_app. cbn [fold_left].
  set (fs1 := fold_left _ l1 fs).
  assert (files (register_book os (book_components db os m) (dirname m) fs1)
            !! k = Some v) as Hlook.
  { apply (register_book_complete os Hos); [|done].
    apply Forall_app in Hall as [_ Hall].
    apply Forall_cons in Hall as [(cs & Hb) _].
    rewrite (book_at_components m cs Hb). by destruct Hb as (_ & _ & ?). }
  assert (extends
            (register_book os (book_components db os m) (dirname m) fs1)
            (fold_left
               (fun fs m =>
                  register_book os (book_components db os m) (dirname m) fs)
               l2
               (register_book os (book_components db os m) (dirname m) fs1)))
    as [_ Hdom].
  { apply fold_left_extends. intros a x _. apply register_book_extends. }
  apply Hdom. apply elem_of_dom. by eexists.
Qed.

Lemma index_books_last (l : list str) fs m k v :
  Forall (fun m => exists cs, book_at db os m cs) (l ++ [m]) ->
  book_file os (book_components db os m) (dirname m) k v ->
  files (index_books db os (l ++ [m]) fs) !! k = Some v.
Proof.
  intros Hall Hk. unfold index_books. rewrite fold_left_app. cbn [fold_left].
  apply (register_book_complete os Hos); [|done].
  apply Forall_app in Hall as [_ Hall].
  apply Forall_cons in Hall as [(cs & Hb) _].
  rewrite (book_at_components m cs Hb). by destruct Hb as (_ & _ & ?).
Qed.
End Library.

(** * The index in terms of the paths the code computes *)

Lemma virtual_entry_components (cs ms : list str) (x : str) :
  cs ≠ [] -> forallb plain cs = true ->
  forallb valid_name ms = true -> valid_name x = true ->
  virtual_entry (join_str [SEP] cs) ms x = abs_of (norm_abs cs ++ ms ++ [x]).
Proof. intros Hne Hcs Hms Hx. by apply virtual_path. Qed.

Lemma prefix_dir_components (cs : list str) (i : nat) :
  cs ≠ [] -> forallb plain cs = true ->
  prefix_dir (join_str [SEP] cs) i = abs_of (norm_abs (take i cs)).
Proof.
  intros Hne Hcs. unfold prefix_dir. rewrite path_components by done.
  apply (normpath_abs_of (take i cs)). by apply forallb_take.
Qed.

Section Bridge.
Variables (db : UnicodeDB) (os : OS).
Hypothesis Hos : wf_os os = true.

Lemma file_below_valid d ms x :
  file_below os d ms x ->
  forallb valid_name ms = true /\ valid_name x = true /\ d ≠ [].
Proof.
  intros (t & Er & Ht). apply fs_resolve_wf in Er as [Hw Hd]; [|done].
  destruct (tree_file_valid t ms x Hw Ht). by repeat split.
Qed.

Lemma dir_below_valid d ms n :
  dir_below os d ms n ->
  forallb valid_name ms = true /\ valid_name n = true.
Proof.
  intros (t & Er & Ht). apply fs_resolve_wf in Er as [Hw Hd]; [|done].
  by apply (tree_dir_valid t ms n Hw Ht).
Qed.

(** A file of the index, as the code computes its key and value. *)
Lemma book_file_paths m cs k v :
  book_at db os m cs ->
  book_file os cs (dirname m) k v <->
  exists ms x, file_below os (dirname m) ms x /\
               k = virtual_entry (join_str [SEP] cs) ms x /\
               v = path_join (dirname m) (ms ++ [x]).
Proof.
  intros (_ & Hne & Hcs). unfold book_file.
  split; intros (ms & x & Hb & -> & ->); exists ms, x;
    (split; [done|]); (split; [|done]);
    destruct (file_below_valid _ _ _ Hb) as (Hms & Hx & _);
    by rewrite virtual_entry_components.
Qed.

Lemma book_directory_paths m cs d :
  book_at db os m cs ->
  book_directory os cs (dirname m) d <->
  (exists i, (1 <= i <= length cs)%nat /\
             d = prefix_dir (join_str [SEP] cs) i) \/
  (exists ms n, dir_below os (dirname m) ms n /\
                d = virtual_entry (join_str [SEP] cs) ms n).
Proof.
  intros (_ & Hne & Hcs). unfold book_directory.
  split; (intros [(i & Hi & ->)|(ms & n & Hb & ->)];
          [left; exists i; split; [done|]|
           right; exists ms, n; split; [done|]]);
    try (by rewrite prefix_dir_components);
    destruct (dir_below_valid _ _ _ Hb) as (Hms & Hx);
    by rewrite virtual_entry_components.
Qed.

(** Every path of the index is made of names. *)
Lemma book_file_names cs d k v :
  forallb plain cs = true -> book_file os cs d k v ->
  exists ns x, forallb valid_name ns = true /\ valid_name x = true /\
               k = abs_of (ns ++ [x]) /\
               exists d', d' ≠ [] /\ v = join2 d' x.
Proof.
  intros Hcs (ms & x & Hb & -> & ->).
  destruct (file_below_valid _ _ _ Hb) as (Hms & Hx & Hd).
  exists (norm_abs cs ++ ms), x. split.
  { rewrite forallb_app, Hms, andb_true_r.
    by apply norm_abs_valid, forallb_plain_sep_free. }
  split; [done|]. split; [by rewrite <- app_assoc|].
  exists (path_join d ms). split.
  - by apply (path_join_names_facts d ms 1).
  - apply path_join_snoc.
Qed.

Lemma book_directory_names cs bd d :
  forallb plain cs = true -> book_directory os cs bd d ->
  exists ns, forallb valid_name ns = true /\ d = abs_of ns.
Proof.
  intros Hcs [(i & Hi & ->)|(ms & n & Hb & ->)].
  - exists (norm_abs (take i cs)). split; [|done].
    by apply norm_abs_valid, forallb_take, forallb_plain_sep_free.
  - destruct (dir_below_valid _ _ _ Hb) as (Hms & Hn).
    exists (norm_abs cs ++ ms ++ [n]). split; [|done].
    rewrite !forallb_app, Hms. cbn. rewrite Hn.
    rewrite norm_abs_valid; [done|]. by apply forallb_plain_sep_free.
Qed.

Lemma built_file_names root fs k v :
  new_BookFS db os root = Return fs -> files fs !! k = Some v ->
  exists ns x, forallb valid_name ns = true /\ valid_name x = true /\
               k = abs_of (ns ++ [x]) /\
               exists d', d' ≠ [] /\ v = join2 d' x.
Proof.
  intros [-> Hall]%new_BookFS_index Hk; [|done].
  apply index_books_sound in Hk as [Hk|(m & Hm & Hk)]; [done| |done].
  rewrite Forall_forall in Hall. destruct (Hall m Hm) as (cs & Hb).
  rewrite (book_at_components db os m cs Hb) in Hk.
  eapply book_file_names; [|done]. by destruct Hb as (_ & _ & ?).
Qed.

Lemma built_directory_names root fs d :
  new_BookFS db os root = Return fs -> d ∈ directories fs ->
  exists ns, forallb valid_name ns = true /\ d = abs_of ns.
Proof.
  intros [-> Hall]%new_BookFS_index Hd; [|done].
  apply index_books_dirs in Hd as [Hd|(m & Hm & Hd)]; [done| |done].
  rewrite Forall_forall in Hall. destruct (Hall m Hm) as (cs & Hb).
  rewrite (book_at_components db os m cs Hb) in Hd.
  eapply book_directory_names; [|done]. by destruct Hb as (_ & _ & ?).
Qed.
End Bridge.

Lemma normpath_names (ns : list str) :
  forallb valid_name ns = true -> normpath (abs_of ns) = abs_of ns.
Proof.
  intros H. rewrite normpath_abs_of by (by apply forallb_valid_plain).
  by rewrite norm_abs_names.
Qed.

Lemma basename_join2 (d x : str) :
  valid_name x = true -> basename (join2 d x) = x.
Proof.
  intros Hx. pose proof (valid_name_sep_free x Hx) as Hf.
  rewrite join2_name by done.
  destruct (negb (nonempty d) || ends_with_sep d) eqn:E.
  - destruct d as [|c d'].
    + cbn [app]. unfold basename. by rewrite rfind_sep_free.
    + cbn [nonempty negb orb] in E. apply ends_with_sep_inv in E as [d0 ->].
      rewrite <- app_assoc. cbn [app]. unfold basename.
      rewrite rfind_last_sep by done.
      replace (Z.to_nat (Z.of_nat (length d0) + 1)) with (S (length d0)) by lia.
      change (d0 ++ SEP :: x) with (d0 ++ [SEP] ++ x).
      rewrite app_assoc. rewrite drop_app_length'; [done|].
      rewrite length_app. cbn. lia.
  - unfold basename. rewrite rfind_last_sep by done.
    replace (Z.to_nat (Z.of_nat (length d) + 1)) with (S (length d)) by lia.
    change (d ++ SEP :: x) with (d ++ [SEP] ++ x).
    rewrite app_assoc. rewrite drop_app_length'; [done|].
    rewrite length_app. cbn. lia.
Qed.

Lemma join2_abs_of (ns : list str) (x : str) :
  valid_name x = true -> forallb valid_name ns = true ->
  path_join (abs_of ns) [x] = abs_of (ns ++ [x]).
Proof.
  intros Hx Hns. change (path_join (abs_of ns) [x]) with (join2 (abs_of ns) x).
  rewrite join2_name by done. rewrite abs_of_snoc.
  destruct ns as [|n ns']; [reflexivity|].
  rewrite (abs_of_last (n :: ns')); [done|done|by apply forallb_valid_plain].
Qed.

(** * When the metadata functions raise *)

Section Raises.
Variable db : UnicodeDB.

Lemma call_sanitize_name_run (name : option str) w :
  call_sanitize_name db name w =
  match name with
  | Some s => (Return (sanitize_name db s), w)
  | None => (Raise TypeError, w)
  end.
Proof. by destruct name. Qed.

Lemma parse_metadata_cases os file_path w :
  result_of (parse_metadata db os file_path) w =
  match et_parse os file_path with
  | Parsed root =>
      match text_or (find_tag root DC_NS (py "creator")) (py "Unknown Author"),
            text_or (find_tag root DC_NS (py "title")) (py "Unknown Title")
      with
      | Some a, Some t =>
          Return {| author := sanitize_name db a;
                    book_title := sanitize_name db t;
                    series := series_of db root;
                    series_index :=
                      content_of (find_meta root (py "calibre:series_index")) |}
      | _, _ => Raise TypeError
      end
  | ParseError _ => Return default_metadata
  | ParseOSError errno msg => Raise (OSError errno msg)
  | ParseRaises e => Raise e
  end.
Proof.
  destruct (et_parse os file_path) as [root|msg|errno msg|e] eqn:E.
  - destruct (text_or (find_tag root DC_NS (py "creator")) (py "Unknown Author"))
      as [a|] eqn:Ea.
    + destruct (text_or (find_tag root DC_NS (py "title")) (py "Unknown Title"))
        as [t|] eqn:Et.
      * unfold result_of.
        by rewrite (parse_metadata_parsed db os file_path root a t).
      * unfold result_of, parse_metadata. rewrite E, Ea, Et.
        unfold call_sanitize_name. by run_method.
    + unfold result_of, parse_metadata. rewrite E, Ea.
      unfold call_sanitize_name. by run_method.
  - unfold result_of, parse_metadata. by rewrite E.
  - unfold result_of, parse_metadata. by rewrite E.
  - unfold result_of, parse_metadata. by rewrite E.
Qed.

Lemma text_or_none (elem : option Element) (fallback : str) :
  text_or elem fallback = None <->
  exists e, elem = Some e /\ elem_text e = None.
Proof.
  destruct elem as [e|]; cbn [text_or].
  - split; [by exists e|]. by intros (e' & [= <-] & H).
  - split; [done|]. by intros (e' & [=] & _).
Qed.

Lemma get_book_path_cases md w :
  result_of (get_book_path db md) w =
  if truthy (series md) then
    match py_float db (series_index md) with
    | Return (Inf _) => Raise OverflowError
    | Return x =>
        match py_int x with
        | Return n =>
            Return (path_join (author md)
                      [format_opt (series md); py "Book " ++ str_of_int n])
        | Raise _ =>
            Return (path_join (author md)
                      [format_opt (series md);
                       or_else (book_title md) (py "Unknown Book")])
        end
    | Raise _ =>
        Return (path_join (author md)
                  [format_opt (series md);
                   or_else (book_title md) (py "Unknown Book")])
    end
  else Return (path_join (author md)
                 [or_else (book_title md) (py "Unknown Book")]).
Proof.
  unfold result_of, get_book_path.
  destruct (truthy (series md)); [|done]. run_method.
  destruct (series_index md) as [s|]; cbn [py_float]; [|done].
  destruct (float_of_str db s) as [[neg m e|neg|]|]; done.
Qed.
End Raises.

(** * The directories [os.walk] visits *)

Lemma walk_head (top : str) (t : rtree) : (top, t) ∈ walk top t.
Proof. destruct t. rewrite walk_unfold. by left. Qed.

Lemma walk_complete (ns : list str) :
  forall t top t',
    descend t ns = Some t' -> (path_join top ns, t') ∈ walk top t.
Proof.
  induction ns as [|n ns IH]; intros t top t'.
  - intros [= <-]. apply walk_head.
  - cbn [descend].
    destruct (lookup_sub n (rsubs t)) as [sub|] eqn:E; [|done].
    intros H. apply lookup_sub_In in E. destruct t as [fl ls subs].
    cbn [rsubs] in E. rewrite walk_unfold. right.
    apply list_elem_of_In, in_flat_map. exists (n, sub).
    split; [by apply list_elem_of_In|]. apply list_elem_of_In.
    change (path_join top (n :: ns)) with (path_join (path_join top [n]) ns).
    by apply IH.
Qed.

Lemma str_in_iff (x : str) (l : list str) : str_in x l = true <-> x ∈ l.
Proof.
  split; [|apply str_in_elem]. unfold str_in.
  intros (y & Hy & E)%existsb_exists. apply str_eqb_eq in E as ->.
  by apply list_elem_of_In.
Qed.

Lemma discovered_iff os root m :
  wf_os os = true ->
  m ∈ discovered os root <->
  exists ms, file_below os root ms METADATA_OPF /\
             m = path_join root (ms ++ [METADATA_OPF]).
Proof.
  intros Hos. unfold discovered, os_walk, file_below.
  destruct (fs_resolve os root) as [t|] eqn:Er.
  - pose proof Er as [Hw _]%fs_resolve_wf; [|done]. split.
    + intros H. apply list_elem_of_In, in_flat_map in H as ([[dp dn] fn] & He & Hm).
      apply in_map_iff in He as (e & [= <- <- <-] & He).
      destruct (str_in METADATA_OPF (rfiles (snd e))) eqn:Ein; [|done].
      apply list_elem_of_In, list_elem_of_singleton in Hm as ->.
      apply list_elem_of_In in He.
      destruct (walk_entries t Hw root e He) as (ns & Hns & Hp & Hd).
      exists ns. split.
      * exists t. split; [done|]. exists (snd e). split; [done|].
        by apply str_in_iff.
      * rewrite Hp. by rewrite path_join_snoc.
    + intros (ms & (t0 & [= <-] & t' & Hd & Hin) & ->).
      apply list_elem_of_In, in_flat_map.
      exists (path_join root ms, map fst (rsubs t') ++ rlinks t', rfiles t').
      split.
      * apply in_map_iff. exists (path_join root ms, t'). split; [done|].
        apply list_elem_of_In. by apply walk_complete.
      * rewrite (str_in_elem _ _ Hin). rewrite path_join_snoc. by left.
  - split; [by inversion 1|]. by intros (ms & (t0 & [=] & _) & _).
Qed.

(** * More on [sanitize_name] *)

Lemma ascii_alnum_not_space (c : N) :
  ascii_isalnum c = true -> isspace c = false.
Proof. unfold ascii_isalnum, isspace. lia. Qed.

Lemma latin1_alnum_not_space (c : N) :
  latin1_isalnum c = true -> isspace c = false.
Proof. unfold latin1_isalnum, isspace. lia. Qed.

Lemma safe_space (c : N) :
  str_contains c safe_chars = true -> isspace c = true -> c = SPACE.
Proof.
  unfold str_contains, safe_chars.
  change (py "-_.() ") with [45; 95; 46; 40; 41; 32].
  cbn [existsb]. unfold isspace, SPACE. lia.
Qed.

Lemma split_ws_nil (t : str) :
  split_ws t = [] <-> forallb isspace t = true.
Proof.
  induction t as [|c t IH]; [done|].
  cbn [forallb]. destruct (isspace c) eqn:E.
  - by rewrite split_ws_cons_space.
  - cbn [andb]. split; [|done]. intros H.
    pose proof (join_words_cons c t E) as J. rewrite H in J.
    destruct t as [|c' t']; [done|]. by destruct (isspace c').
Qed.

Lemma join_words_length (t : str) :
  (length (join_str [SPACE] (split_ws t)) <= length t)%nat /\
  match t with
  | c :: _ =>
      isspace c = true ->
      (S (length (join_str [SPACE] (split_ws t))) <= length t)%nat
  | [] => True
  end.
Proof.
  induction t as [|c t [IH1 IH2]]; [done|].
  destruct (isspace c) eqn:E.
  - rewrite split_ws_cons_space by done. cbn [length]. split; [lia|].
    intros _. lia.
  - split; [|done]. rewrite join_words_cons by done.
    destruct t as [|c' t']; [done|].
    destruct (isspace c') eqn:E'.
    + specialize (IH2 eq_refl).
      destruct (join_str [SPACE] (split_ws (c' :: t'))); cbn [length] in *; lia.
    + cbn [length] in *. lia.
Qed.

Section SanitizeMore.
Variable db : UnicodeDB.

Lemma sanitize_name_length (s : str) :
  (length (sanitize_name db s) <= length s)%nat.
Proof.
  rewrite sanitize_name_words.
  destruct (join_words_length (map (replace_unsafe db) s)) as [H _].
  by rewrite length_map in H.
Qed.

Lemma sanitize_name_trimmed (s : str) :
  strip isspace (sanitize_name db s) = sanitize_name db s.
Proof.
  rewrite sanitize_name_words. apply strip_join_good, split_ws_good.
Qed.

Lemma sanitize_name_nil (s : str) :
  sanitize_name db s = [] <->
  forallb isspace (map (replace_unsafe db) s) = true.
Proof.
  rewrite sanitize_name_words, <- split_ws_nil. split.
  - apply join_good_nil, split_ws_good.
  - by intros ->.
Qed.

Hypothesis Hdb : forall c, 128 <= c -> uni_isalnum db c = true ->
                           isspace c = false.

Lemma alnum_not_space (c : N) : isalnum db c = true -> isspace c = false.
Proof.
  unfold isalnum. destruct (c <? 128) eqn:E.
  - apply ascii_alnum_not_space.
  - apply Hdb. apply N.ltb_ge in E. lia.
Qed.

Lemma replace_unsafe_space (c : N) :
  isspace (replace_unsafe db c) = true <-> c = SPACE.
Proof.
  split.
  - unfold replace_unsafe. destruct (keep_char db c) eqn:E; [|done].
    unfold keep_char in E. apply orb_prop in E as [E|E].
    + apply alnum_not_space in E. congruence.
    + by apply safe_space.
  - intros ->. unfold replace_unsafe. by rewrite keep_SPACE.
Qed.

Lemma sanitize_name_blank (s : str) :
  sanitize_name db s = [] <-> Forall (fun c => c = SPACE) s.
Proof.
  rewrite sanitize_name_nil. rewrite forallb_forall, Forall_forall.
  split.
  - intros H c Hc. apply replace_unsafe_space. apply H.
    apply in_map. by apply list_elem_of_In.
  - intros H c' (c & <- & Hc)%in_map_iff. apply replace_unsafe_space.
    apply H. by apply list_elem_of_In.
Qed.
End SanitizeMore.

(** * Shape of the virtual book path, and failures of the build *)

Lemma path_join_components_length (a : str) (l : list str) :
  sep_free a = true -> l ≠ [] -> forallb plain l = true ->
  exists cs, forallb plain cs = true /\ path_join a l = join_str [SEP] cs /\
             (length l <= length cs <= S (length l))%nat.
Proof.
  intros Ha Hl Hpl. destruct a as [|c a'].
  - destruct l as [|x l']; [done|]. exists (x :: l').
    split; [done|]. split; [|lia].
    unfold path_join. cbn [fold_left]. rewrite join2_empty.
    by apply path_join_plain.
  - exists ((c :: a') :: l).
    assert (forallb plain ((c :: a') :: l) = true) as H.
    { cbn [forallb]. rewrite Hpl, andb_true_r. unfold plain. by rewrite Ha. }
    split; [done|]. split; [by apply path_join_plain|cbn [length]; lia].
Qed.

Section Shape.
Variable db : UnicodeDB.

Lemma get_book_path_shape md w p :
  fields_ok md -> result_of (get_book_path db md) w = Return p ->
  exists cs, forallb plain cs = true /\ p = join_str [SEP] cs /\
             (1 <= length cs <= 3)%nat /\
             (truthy (series md) = false -> (length cs <= 2)%nat) /\
             (truthy (series md) = true -> (2 <= length cs)%nat).
Proof.
  intros (Ha & Ht & Hs). rewrite get_book_path_cases.
  assert (plain (or_else (book_title md) (py "Unknown Book")) = true) as Hbd
    by (by apply or_else_plain).
  destruct (truthy (series md)) eqn:Etr.
  - destruct (Hs eq_refl) as (s & Es & Hsf). rewrite Es.
    cbn [format_opt]. assert (plain s = true) as Hps.
    { unfold plain. rewrite Hsf. rewrite Es in Etr. by destruct s. }
    assert (forall bd, plain bd = true ->
              exists cs, forallb plain cs = true /\
                path_join (author md) [s; bd] = join_str [SEP] cs /\
                (1 <= length cs <= 3)%nat /\
                (true = false -> (length cs <= 2)%nat) /\
                (true = true -> (2 <= length cs)%nat)) as Hshape.
    { intros bd Hp.
      destruct (path_join_components_length (author md) [s; bd])
        as (cs & H1 & H2 & H3); [done|done|by cbn; rewrite Hps, Hp|].
      exists cs. cbn [length] in H3. repeat split; try done; lia. }
    destruct (py_float db (series_index md)) as [[neg m e|neg|]|e];
      [| done | |].
    + destruct (py_int (Finite neg m e)) as [n|e'].
      * intros <-%Return_inj. apply Hshape. unfold plain.
        rewrite sep_free_app, sep_free_str_of_int. reflexivity.
      * intros <-%Return_inj. by apply Hshape.
    + cbn [py_int]. intros <-%Return_inj. by apply Hshape.
    + intros <-%Return_inj. by apply Hshape.
  - intros <-%Return_inj.
    destruct (path_join_components_length (author md)
                [or_else (book_title md) (py "Unknown Book")])
      as (cs & H1 & H2 & H3); [done|done|by cbn; rewrite Hbd|].
    exists cs. cbn [length] in H3. repeat split; try done; lia.
Qed.

Lemma book_path_of_inv os m p :
  book_path_of db os m = Some p ->
  exists md w, fields_ok md /\
    result_of (parse_metadata db os m) w = Return md /\
    result_of (get_book_path db md) w = Return p.
Proof.
  unfold book_path_of. set (w0 := serving _).
  destruct (parse_metadata db os m w0) as [[md|e] w0'] eqn:Ep; [|done].
  destruct (get_book_path db md w0') as [[p'|e] w0''] eqn:Eg; [|done].
  intros [= ->]. exists md, w0.
  assert (result_of (parse_metadata db os m) w0 = Return md) as Hp
    by (unfold result_of; by rewrite Ep).
  split; [by eapply parse_metadata_fields|]. split; [done|].
  rewrite (get_book_path_result db md w0 w0'). unfold result_of.
  by rewrite Eg.
Qed.
End Shape.

Section Failure.
Variables (db : UnicodeDB) (os : OS).
Hypothesis Hos : wf_os os = true.

Lemma index_book_raises m w e w' :
  index_book db os m w = (Raise e, w') ->
  result_of (parse_metadata db os m) w = Raise e \/
  exists md, result_of (parse_metadata db os m) w = Return md /\
             result_of (get_book_path db md) w = Raise e.
Proof.
  intros H.
  destruct (parse_metadata db os m w) as [[md|e1] w1] eqn:Ep.
  - right. exists md. unfold result_of at 1. rewrite Ep. split; [done|].
    rewrite (get_book_path_result db md w w1).
    destruct (get_book_path db md w1) as [[p|e2] w2] eqn:Eg.
    + destruct (index_book_total db os Hos m w p) as [w'' E];
        [by eapply book_path_of_run|]. congruence.
    + unfold result_of. rewrite Eg. cbn [fst].
      revert H. unfold index_book. run_method. rewrite Ep, Eg.
      by intros [= <- _].
  - left. unfold result_of. rewrite Ep. cbn [fst].
    revert H. unfold index_book. run_method. rewrite Ep.
    by intros [= <- _].
Qed.

Lemma books_loop_raises (l : list str) w e w' :
  for_each l (index_book db os) w = (Raise e, w') ->
  exists m w1 w2, m ∈ l /\ index_book db os m w1 = (Raise e, w2).
Proof.
  revert w. induction l as [|m l IH]; intros w; [done|].
  cbn [for_each]. run_method.
  destruct (index_book db os m w) as [[[]|e1] w1] eqn:E.
  - intros (m' & wa & wb & Hm & H)%IH. exists m', wa, wb.
    split; [by right|done].
  - intros [= <- <-]. exists m, w, w1. split; [by left|done].
Qed.

Lemma new_BookFS_unfold root :
  new_BookFS db os root =
  match for_each (discovered os root) (index_book db os) (world0 root) with
  | (Return _, w) => Return (self w)
  | (Raise e, _) => Raise e
  end.
Proof. reflexivity. Qed.
End Failure.

(** * Listings of a built index *)

Section Listing.
Variables (db : UnicodeDB) (os : OS).
Hypothesis Hos : wf_os os = true.

Lemma built_entry_names root fs e :
  new_BookFS db os root = Return fs ->
  e ∈ dom (files fs) \/ e ∈ directories fs ->
  exists ns, forallb valid_name ns = true /\ e = abs_of ns.
Proof.
  intros Hnew [[v Hv]%elem_of_dom|Hdir].
  - destruct (built_file_names db os Hos root fs e v Hnew Hv)
      as (ns & y & Hns & Hy & E & _).
    exists (ns ++ [y]). split; [|done].
    rewrite forallb_app, Hns. cbn. by rewrite Hy.
  - by apply (built_directory_names db os Hos root fs e Hnew).
Qed.

Lemma parent_join (ns : list str) :
  forallb valid_name ns = true ->
  path_join (dirname (abs_of ns)) [basename (abs_of ns)] = abs_of ns.
Proof.
  intros Hns. destruct ns as [|n ns'] using rev_ind; [reflexivity|].
  rewrite forallb_app in Hns. apply andb_prop in Hns as [H1 H2].
  cbn [forallb] in H2. rewrite andb_true_r in H2.
  rewrite dirname_abs_of, basename_abs_of;
    [|by apply valid_name_plain|by apply forallb_valid_plain
     |by apply valid_name_plain].
  by apply join2_abs_of.
Qed.

Lemma listed_entry_resolves root fs path fh es x :
  new_BookFS db os root = Return fs ->
  result_of (readdir path fh) (serving fs) =
    Return ([py "."; py ".."] ++ es) ->
  x ∈ es ->
  exists ns, forallb valid_name ns = true /\
    path_join (listed_path path) [x] = abs_of ns /\
    (abs_of ns ∈ dom (files fs) \/ abs_of ns ∈ directories fs).
Proof.
  intros Hnew Hrun Hx.
  destruct (readdir_children path fh (serving fs)) as (es' & Hrun' & _ & Hes).
  unfold result_of in Hrun. rewrite Hrun' in Hrun. cbn [fst] in Hrun.
  apply Return_inj, app_inv_head in Hrun as ->.
  apply Hes in Hx as (e & He & Hd & Hb). cbn [serving self] in He.
  destruct (built_entry_names root fs e Hnew) as (ns & Hns & ->); [tauto|].
  exists ns. split; [done|]. split; [|tauto].
  rewrite <- Hd, <- Hb. by apply parent_join.
Qed.
End Listing.

(** * Integer series indexes *)

Lemma uint_digits (d : Decimal.uint) :
  forallb is_digit (py (NilEmpty.string_of_uint d)) = true.
Proof. induction d; [reflexivity|exact IHd..]. Qed.

Lemma uint_value_acc (d : Decimal.uint) (acc : positive) :
  fold_left (fun acc c => (10 * acc + Z.of_N (c - 48))%Z)
    (py (NilEmpty.string_of_uint d)) (Z.pos acc) =
  Z.pos (Pos.of_uint_acc d acc).
Proof.
  revert acc. induction d; intros acc; [reflexivity|..];
    cbn [NilEmpty.string_of_uint Pos.of_uint_acc]; rewrite py_cons;
    cbn [fold_left]; rewrite <- IHd; f_equal;
    match goal with
    | |- context [N_of_ascii ?a] =>
        let v := eval vm_compute in (Z.of_N (N_of_ascii a - 48)) in
        change (Z.of_N (N_of_ascii a - 48)) with v
    end; lia.
Qed.

Lemma uint_value (d : Decimal.uint) :
  digits_value (py (NilEmpty.string_of_uint d)) = Z.of_uint d.
Proof.
  unfold digits_value, Z.of_uint.
  induction d; [reflexivity|..];
    cbn [NilEmpty.string_of_uint Pos.of_uint]; rewrite py_cons;
    cbn [fold_left]; first [exact IHd | apply uint_value_acc].
Qed.

(** [str(n)] for a natural number [n] is a string of digits with the
    value [n]. *)
Lemma str_of_int_digits (n : Z) :
  (0 <= n)%Z ->
  digit_string (str_of_int n) /\ digits_value (str_of_int n) = n.
Proof.
  intros Hn. unfold str_of_int.
  pose proof (DecimalZ.of_to n) as E.
  destruct (Z.to_int n) as [d|d] eqn:Ed.
  - cbn [NilZero.string_of_int Z.of_int] in *. unfold NilZero.string_of_uint.
    destruct d; try (split; [split; [done|apply uint_digits]
                            |rewrite uint_value; exact E]).
    rewrite <- E. by split.
  - by destruct n.
Qed.

Lemma digit_facts (c : N) :
  is_digit c = true ->
  (c <? 128) = true /\ (c =? UNDERSCORE) = false /\
  py_isspace_ascii c = false /\ (c =? 45) = false /\ (c =? 43) = false /\
  (c =? 46) = false.
Proof. unfold is_digit, py_isspace_ascii, UNDERSCORE. lia. Qed.

Lemma span_digits_all (s : str) :
  forallb is_digit s = true -> span_digits s = (s, []).
Proof.
  induction s as [|c s IH]; [done|]. cbn [forallb span_digits].
  intros [Hc Hs]%andb_prop. by rewrite Hc, IH.
Qed.

Lemma rstrip_digits (s : str) :
  forallb is_digit s = true -> rstrip py_isspace_ascii s = s.
Proof.
  induction s as [|c s IH]; [done|]. cbn [forallb].
  intros [Hc Hs]%andb_prop.
  rewrite rstrip_cons_keep by (by apply digit_facts). by rewrite IH.
Qed.

Lemma parse_decimal_digits (s : str) :
  digit_string s ->
  parse_decimal s = Some (decimal_to_double false (digits_value s) 0).
Proof.
  intros [Hne Hd]. unfold parse_decimal.
  assert (parse_sign s = (false, s)) as ->.
  { destruct s as [|c s']; [done|]. cbn [forallb] in Hd.
    apply andb_prop in Hd as [Hc _].
    destruct (digit_facts c Hc) as (_ & _ & _ & H1 & H2 & _).
    cbn [parse_sign]. by rewrite H1, H2. }
  rewrite span_digits_all by done. rewrite app_nil_r.
  by destruct s.
Qed.

Lemma float_of_digits (db : UnicodeDB) (s : str) :
  digit_string s ->
  float_of_str db s = Some (decimal_to_double false (digits_value s) 0).
Proof.
  intros [Hne Hd]. unfold float_of_str.
  assert (to_ascii_number db s = s) as ->.
  { unfold to_ascii_number.
    assert (forallb (fun c => c <? 128) s = true) as ->; [|done].
    apply forallb_forall. intros c Hc. rewrite forallb_forall in Hd.
    by apply digit_facts, Hd. }
  assert (without_underscores s = Some s) as ->.
  { unfold without_underscores, str_contains.
    assert (existsb (N.eqb UNDERSCORE) s = false) as ->; [|done].
    apply not_true_is_false. intros (c & Hc & E)%existsb_exists.
    rewrite forallb_forall in Hd. apply Hd in Hc.
    apply digit_facts in Hc as (_ & H & _). apply N.eqb_eq in E. subst c.
    done. }
  destruct s as [|c rest]; [done|]. cbn [forallb] in Hd.
  apply andb_prop in Hd as [Hc Hrest].
  rewrite lstrip_free_head by (by apply digit_facts).
  rewrite rstrip_digits by done.
  assert (digit_string (c :: rest)) as Hs
    by (split; [done|]; cbn [forallb]; by rewrite Hc).
  pose proof (parse_decimal_digits (c :: rest) Hs) as H.
  destruct rest; by rewrite H.
Qed.

Lemma round_half_even_one (n : Z) : round_half_even n 1 = n.
Proof.
  unfold round_half_even. rewrite Z.mod_1_r, Z.div_1_r. reflexivity.
Qed.

(** A natural number below 2^53 is a double, and [int] gives it
    back. *)
Lemma to_double_exact (n : Z) :
  (0 < n < 2 ^ 53)%Z ->
  exists m e, to_double false n 1 = Finite false m e /\
              py_int (Finite false m e) = Return n.
Proof.
  intros [Hpos Hlt].
  pose proof (Z.log2_spec n Hpos) as [Hlo Hhi].
  pose proof (Z.log2_nonneg n) as Hk0.
  assert (Z.log2 n < 53)%Z as Hk by (by apply Z.log2_lt_pow2).
  unfold to_double. change (Z.log2 1) with 0%Z. rewrite Z.sub_0_r.
  set (k := Z.log2 n) in *.
  assert ((0 <=? k)%Z = true) as -> by lia.
  rewrite Z.mul_1_l.
  assert ((n <? 2 ^ k)%Z = false) as -> by lia.
  assert (Z.max (k - 52) (-1074) = k - 52)%Z as -> by lia.
  destruct (0 <=? k - 52)%Z eqn:E.
  - assert (k = 52)%Z as -> by lia. change (52 - 52)%Z with 0%Z.
    change (1 * 2 ^ 0)%Z with 1%Z. rewrite round_half_even_one.
    assert (2 ^ 53 < 2 ^ 1024)%Z as Hbig by (vm_compute; reflexivity).
    change (2 ^ 0)%Z with 1%Z. rewrite Z.mul_1_r.
    assert ((2 ^ 1024 <=? n)%Z = false) as -> by lia.
    cbn [andb]. eexists _, _. split; [reflexivity|].
    cbn [py_int]. change (0 <=? 0)%Z with true. cbv iota.
    change (2 ^ 0)%Z with 1%Z. by rewrite Z.mul_1_r.
  - cbn [andb]. rewrite round_half_even_one.
    eexists _, _. split; [reflexivity|].
    cbn [py_int]. rewrite E. f_equal.
    apply Z.div_mul. apply Z.pow_nonzero; lia.
Qed.

Section RoundTrip.
Variable db : UnicodeDB.

Lemma int_float_str (n : Z) :
  (0 <= n < 2 ^ 53)%Z ->
  exists x, py_float db (Some (str_of_int n)) = Return x /\
            py_int x = Return n.
Proof.
  intros [H0 Hlt]. destruct (str_of_int_digits n H0) as [Hd Hv].
  cbn [py_float]. rewrite float_of_digits by done. rewrite Hv.
  unfold decimal_to_double. destruct (n =? 0)%Z eqn:E.
  - apply Z.eqb_eq in E as ->. by eexists.
  - change (0 <=? 0)%Z with true. cbv iota.
    change (10 ^ 0)%Z with 1%Z. rewrite Z.mul_1_r.
    destruct (to_double_exact n) as (m & e & -> & Hi); [lia|].
    by eexists.
Qed.
End RoundTrip.

(** * The claims *)

Ltac by_compute :=
  first [ vm_compute; reflexivity
        | apply bool_decide_eq_true_1; vm_compute; reflexivity ].

(** ** C1: the metadata parser *)

(** C1, as stated, fails: a descriptor whose title element holds a
    blank text is parsed into a record with an empty title. *)
Lemma parse_metadata_blank_title :
  parse_metadata latin1_db blank_title (py "/lib/1/metadata.opf")
    (world0 (py "/lib")) =
  (Return {| author := py "Jane"; book_title := [];
             series := None; series_index := None |},
   world0 (py "/lib")).
Proof. by_compute. Qed.

(** C1, amended.  A descriptor that is not well-formed markup yields the
    all-default record.  A well-formed descriptor whose creator and
    title elements, where present, carry text yields a record whose
    author and title are the sanitized texts, the fallback literals
    standing for an absent element; the author (the title) is not empty
    when the element is absent or its text has a character that is not
    whitespace; and, with a character database in which no alphanumeric
    character is whitespace, it is empty exactly when the text consists
    of spaces only. *)
Theorem parse_metadata_returns (db : UnicodeDB) (os : OS) (file_path : str)
    (w : World) :
  (forall msg, et_parse os file_path = ParseError msg ->
     result_of (parse_metadata db os file_path) w = Return default_metadata) /\
  (forall root a t,
     et_parse os file_path = Parsed root ->
     text_or (find_tag root DC_NS (py "creator")) (py "Unknown Author") = Some a ->
     text_or (find_tag root DC_NS (py "title")) (py "Unknown Title") = Some t ->
     exists m,
       result_of (parse_metadata db os file_path) w = Return m /\
       author m = sanitize_name db a /\
       book_title m = sanitize_name db t /\
       (find_tag root DC_NS (py "creator") = None ->
        author m = py "Unknown Author") /\
       (find_tag root DC_NS (py "title") = None ->
        book_title m = py "Unknown Title") /\
       (existsb (fun c => negb (isspace c)) a = true -> author m ≠ []) /\
       (existsb (fun c => negb (isspace c)) t = true -> book_title m ≠ []) /\
       ((forall c, 128 <= c -> uni_isalnum db c = true -> isspace c = false) ->
        (author m = [] <-> Forall (fun c => c = SPACE) a) /\
        (book_title m = [] <-> Forall (fun c => c = SPACE) t))).
Proof.
  split.
  - intros msg H. by eapply parse_metadata_unparsable.
  - intros root a t Hp Ha Ht. eexists. split.
    { unfold result_of. by rewrite (parse_metadata_parsed db os _ root a t). }
    cbn [author book_title]. split; [done|]. split; [done|].
    split; [|split; [|split]].
    + intros E. rewrite E in Ha. cbn in Ha. injection Ha as <-.
      apply sanitize_unknown_author.
    + intros E. rewrite E in Ht. cbn in Ht. injection Ht as <-.
      apply sanitize_unknown_title.
    + apply sanitize_name_nonempty.
    + split; [apply sanitize_name_nonempty|].
      intros Hdb. split; by apply sanitize_name_blank.
Qed.

(** ** C2: the path deriver *)

(** C2 at the series index ["inf"]: [float] accepts it, [int] raises
    [OverflowError], and [get_book_path] lets the exception through
    instead of falling back to the title. *)
Theorem get_book_path_infinite_index (db : UnicodeDB) (w : World) :
  get_book_path db
    {| author := py "A"; book_title := py "T";
       series := Some (py "S"); series_index := Some (py "inf") |} w =
  (Raise OverflowError, w).
Proof.
  eapply get_book_path_overflow; [reflexivity|done|apply float_inf].
Qed.

(** ** C3: attributes *)

(** C3, as stated, fails: in the index built from a library where a
    file of one book and the directory of another share a virtual path,
    that path is a stored directory and [getattr] answers with the
    attributes of a regular file. *)
Lemma getattr_file_shadows_directory :
  new_BookFS latin1_db overlap (py "/lib") =
    Return (built latin1_db overlap (py "/lib")) /\
  py "/A/B/C" ∈ directories (built latin1_db overlap (py "/lib")) /\
  result_of (getattr overlap (py "/A/B/C") None)
    (serving (built latin1_db overlap (py "/lib"))) = Return (file_stat 3).
Proof. repeat split; by_compute. Qed.

(** C3, amended.  With [p] the normalized path: the root has directory
    attributes; otherwise a path of [files] has the attributes of a
    regular file with the live size, or fails with [NotFound] when the
    size lookup fails; otherwise a stored directory has directory
    attributes; a path in neither fails with [NotFound]. *)
Theorem getattr_spec (os : OS) (w : World) (path : str) (fh : option Z) :
  let p := normpath path in
  let fs := self w in
  (p = ROOT -> result_of (getattr os path fh) w = Return dir_stat) /\
  (p ≠ ROOT -> forall actual, files fs !! p = Some actual ->
     match getsize os actual with
     | Ok size => result_of (getattr os path fh) w = Return (file_stat size)
     | Fails _ _ => fails_with (getattr os path fh) w NotFound
     end) /\
  (p ≠ ROOT -> files fs !! p = None -> p ∈ directories fs ->
     result_of (getattr os path fh) w = Return dir_stat) /\
  (p ≠ ROOT -> files fs !! p = None -> p ∉ directories fs ->
     fails_with (getattr os path fh) w NotFound) /\
  (Z.land (st_mode dir_stat) S_IFDIR = S_IFDIR /\ st_nlink dir_stat = 2%Z) /\
  (forall size, Z.land (st_mode (file_stat size)) S_IFREG = S_IFREG /\
                st_size (file_stat size) = Some size /\
                st_nlink (file_stat size) = 1%Z).
Proof.
  cbv zeta. split; [apply getattr_root|].
  split; [intros; by apply getattr_file|].
  split; [apply getattr_directory|].
  split; [apply getattr_absent|]. by repeat split.
Qed.

(** ** C4: read *)




(** ** C5: mutations *)

(** C5.  [create], [write], [mkdir], [rmdir] and [unlink] fail with
    [AccessDenied] whatever their arguments, and leave [files] and
    [directories] as they were. *)
Theorem mutations_denied (path : str) (mode offset fh : Z) (fi : option Z)
    (data : list Init.Byte.byte) :
  denied (create path mode fi) /\
  denied (write path data offset fh) /\
  denied (mkdir path mode) /\
  denied (rmdir path) /\
  denied (unlink path).
Proof. repeat split; apply denied_permission_denied. Qed.

(** ** C6: ancestors *)

(** C6 at a library with one book whose author is written [.]:
    [sanitize_name] lets the name through, the first prefix of the
    virtual book path normalizes to the root, and the root is stored in
    [directories], where the claim has it never stored. *)
Theorem root_directory_stored :
  new_BookFS latin1_db dot_author (py "/lib") =
    Return (built latin1_db dot_author (py "/lib")) /\
  ROOT ∈ directories (built latin1_db dot_author (py "/lib")).
Proof. split; by_compute. Qed.

(** ** C7: what the sanitizer keeps *)

(** C7, as stated, fails: [é] (U+00E9) is outside the class
    [[A-Za-z0-9\-_.() ]] and is kept, where a sanitizer keeping exactly
    that class would return [_]. *)
Lemma sanitize_name_keeps_e_acute :
  sanitize_name latin1_db [233] = [233] /\
  ascii_class 233 = false /\
  ascii_sanitize [233] = [UNDERSCORE].
Proof. repeat split; by_compute. Qed.

(** C7, amended.  [sanitize_name] keeps the characters that are
    alphanumeric ([str.isalnum]) or among [-_.() ], replaces every other
    character by [_], collapses each run of whitespace to one space and
    trims; on ASCII characters the kept class is exactly
    [[A-Za-z0-9\-_.() ]], so that on ASCII input it is the sanitizer
    that keeps exactly that class. *)
Theorem sanitize_name_spec (db : UnicodeDB) (name : str) :
  sanitize_name db name = spec_sanitize db name /\
  (forall c, c < 128 -> spec_keeps db c = ascii_class c) /\
  (Forall (fun c => c < 128) name ->
   sanitize_name db name = ascii_sanitize name).
Proof.
  split; [apply sanitize_name_refines|]. split.
  - intros c Hc. rewrite <- keep_char_spec_keeps. by apply keep_char_ascii.
  - apply sanitize_name_ascii.
Qed.

(** ** C8: idempotence *)

(** C8.  [sanitize_name] is idempotent. *)
Theorem sanitize_name_idempotent (db : UnicodeDB) (x : str) :
  sanitize_name db (sanitize_name db x) = sanitize_name db x.
Proof. apply sanitize_name_idem. Qed.

(** ** C9: listings *)

(** C9, as stated, fails: in the index built from a library where a
    file of one book and the directory of another share a virtual path,
    that path is a file and its listing has an entry. *)
Lemma readdir_file_with_children :
  new_BookFS latin1_db overlap (py "/lib") =
    Return (built latin1_db overlap (py "/lib")) /\
  files (built latin1_db overlap (py "/lib")) !! py "/A/B/C" =
    Some (py "/lib/1/C") /\
  result_of (readdir (py "/A/B/C") 0)
    (serving (built latin1_db overlap (py "/lib"))) =
  Return [py "."; py ".."; py "metadata.opf"].
Proof. repeat split; by_compute. Qed.

(** C9, amended.  [readdir] never raises; it returns [.] and [..]
    followed by, once each and in no particular order, the basenames of
    the entries of the index whose parent is the listed path (the
    normalized query, [.] standing for the root).  In an index that
    [build_file_structure] has built, a listed path that is neither the
    root nor a stored directory gives just [.] and [..].  On the index
    built from two author directories the listing of [/] is [.], [..]
    and the two author names. *)
Theorem readdir_spec :
  (forall (path : str) (fh : Z) (w : World),
     exists es,
       readdir path fh w = (Return ([py "."; py ".."] ++ es), w) /\
       NoDup es /\
       forall x, x ∈ es <-> is_child (self w) (listed_path path) x) /\
  (forall (db : UnicodeDB) (os : OS) (root : str) (fs : BookFS)
          (path : str) (fh : Z),
     wf_os os = true -> new_BookFS db os root = Return fs ->
     listed_path path ≠ ROOT -> listed_path path ∉ directories fs ->
     result_of (readdir path fh) (serving fs) = Return [py "."; py ".."]) /\
  (exists es,
     result_of (readdir (py "/") 0)
       (serving (built latin1_db two_authors (py "/lib"))) =
     Return ([py "."; py ".."] ++ es) /\
     es ≡ₚ [py "Isaac Asimov"; py "Jane Austen"]).
Proof.
  split; [apply readdir_children|]. split.
  - intros db os root fs path fh Hos Hnew Hr Hd.
    apply readdir_not_a_directory; [|done|done]. by eapply new_BookFS_inv.
  - exists [py "Isaac Asimov"; py "Jane Austen"]. split; [by_compute|done].
Qed.

(** ** C10: the descriptor in the virtual tree *)

(** C10, as stated, fails: of two copies of one book the first one's
    descriptor is not in the index; the key it would have maps to the
    descriptor of the second. *)
Lemma descriptor_overwritten :
  new_BookFS latin1_db duplicate (py "/lib") =
    Return (built latin1_db duplicate (py "/lib")) /\
  discovered duplicate (py "/lib") =
    [py "/lib/1/metadata.opf"; py "/lib/2/metadata.opf"] /\
  book_path_of latin1_db duplicate (py "/lib/1/metadata.opf") = Some (py "A/B") /\
  files (built latin1_db duplicate (py "/lib")) !! py "/A/B/metadata.opf" =
    Some (py "/lib/2/metadata.opf").
Proof. repeat split; by_compute. Qed.

(** C10, amended.  After the build the index has, for every discovered
    book, the key [normpath('/' + virtual book path + '/metadata.opf')].
    Right after the book is indexed the key maps to the real path of the
    book's descriptor; a book indexed later that maps a file to the same
    virtual path replaces it, so that at the end the key maps to the
    book's own descriptor for the book indexed last. *)
Theorem descriptor_exposed (db : UnicodeDB) (os : OS) (root : str)
    (fs : BookFS) (m : str) :
  wf_os os = true ->
  new_BookFS db os root = Return fs ->
  m ∈ discovered os root ->
  exists p,
    book_path_of db os m = Some p /\
    descriptor_key p ∈ dom (files fs) /\
    (forall l1 l2, discovered os root = l1 ++ m :: l2 ->
       exists w1,
         for_each (l1 ++ [m]) (index_book db os) (world0 root) =
           (Return tt, w1) /\
         files (self w1) !! descriptor_key p = Some (descriptor_path m)) /\
    (forall l1, discovered os root = l1 ++ [m] ->
       files fs !! descriptor_key p = Some (descriptor_path m)).
Proof.
  intros Hos (w' & Hrun & <-)%new_BookFS_run Hm.
  assert (forall l1 l2, discovered os root = l1 ++ m :: l2 ->
            exists p w1,
              book_path_of db os m = Some p /\
              for_each (l1 ++ [m]) (index_book db os) (world0 root) =
                (Return tt, w1) /\
              files (self w1) !! descriptor_key p = Some (descriptor_path m) /\
              for_each l2 (index_book db os) w1 = (Return tt, w') /\
              descriptor_key p ∈ dom (files (self w'))) as Hall.
  { intros l1 l2 E. rewrite E in Hrun.
    eapply descriptor_indexed; [done|apply index_inv_empty|done|done]. }
  destruct (list_elem_of_split _ _ Hm) as (l1 & l2 & E).
  destruct (Hall l1 l2 E) as (p & w1 & Hp & _ & _ & _ & Hdom).
  exists p. split; [done|]. split; [done|]. split.
  - intros k1 k2 E'. destruct (Hall k1 k2 E') as (p' & w2 & Hp' & H1 & H2 & _).
    rewrite Hp in Hp'. injection Hp' as <-. by exists w2.
  - intros k1 E'. destruct (Hall k1 [] E') as (p' & w2 & Hp' & _ & H2 & H3 & _).
    rewrite Hp in Hp'. injection Hp' as <-.
    cbn [for_each] in H3. unfold mret, method_ret, ret in H3.
    by injection H3 as <-.
Qed.

Lemma descriptor_exposed_witness :
  wf_os two_authors = true /\
  new_BookFS latin1_db two_authors (py "/lib") =
    Return (built latin1_db two_authors (py "/lib")) /\
  py "/lib/2/metadata.opf" ∈ discovered two_authors (py "/lib") /\
  exists p,
    book_path_of latin1_db two_authors (py "/lib/2/metadata.opf") = Some p /\
    descriptor_key p ∈ dom (files (built latin1_db two_authors (py "/lib"))).
Proof.
  assert (wf_os two_authors = true) as H1 by by_compute.
  assert (new_BookFS latin1_db two_authors (py "/lib") =
          Return (built latin1_db two_authors (py "/lib"))) as H2 by by_compute.
  assert (py "/lib/2/metadata.opf" ∈ discovered two_authors (py "/lib")) as H3.
  { replace (discovered two_authors (py "/lib"))
      with [py "/lib/1/metadata.opf"; py "/lib/2/metadata.opf"] by by_compute.
    apply list_elem_of_further, list_elem_of_here. }
  repeat (split; [assumption|]).
  destruct (descriptor_exposed latin1_db two_authors (py "/lib") _ _ H1 H2 H3)
    as (p & Hp & Hdom & _).
  exists p. exact (conj Hp Hdom).
Defined.

(** * Further properties of the module *)

(** ** The operations that answer queries *)

(** X1.  [open] fails with [NotFound] exactly when the normalized path
    is not a key of [files].  For a key and flags that fit a C [int],
    it returns 0 when the operating system opens the real file with the
    flags, and fails with [AccessDenied] when it does not; for flags
    that do not fit, [os.open] raises [OverflowError], which [open]
    does not catch. *)
Theorem open_spec (os : OS) (w : World) (path : str) (flags : Z) :
  (fails_with (open os path flags) w NotFound <->
   files (self w) !! normpath path = None) /\
  (forall actual,
     files (self w) !! normpath path = Some actual ->
     (INT_MIN <= flags <= INT_MAX)%Z ->
     match os_open os actual flags with
     | Ok _ => result_of (open os path flags) w = Return 0%Z
     | Fails _ _ => fails_with (open os path flags) w AccessDenied
     end) /\
  (forall actual,
     files (self w) !! normpath path = Some actual ->
     (flags < INT_MIN)%Z \/ (INT_MAX < flags)%Z ->
     result_of (open os path flags) w = Raise OverflowError).
Proof.
  split; [apply open_not_found_iff|]. split.
  - intros actual Hf Hr.
    pose proof (open_indexed os w path flags actual Hf Hr) as H.
    destruct (os_open os actual flags); [|done].
    unfold result_of. by rewrite H.
  - intros actual Hf Hr. unfold result_of.
    by rewrite (open_overflow os w path flags actual Hf Hr).
Qed.

(** X2.  [getattr], [readdir], [read] and [open] leave the object as it
    was, whatever their arguments and whether they return or raise, and
    log nothing when they return. *)
Theorem queries_read_only (os : OS) (path : str) (fh : option Z)
    (fh' size offset flags : Z) :
  read_only (getattr os path fh) /\
  read_only (readdir path fh') /\
  read_only (read os path size offset fh') /\
  read_only (open os path flags).
Proof.
  split; [apply getattr_read_only|]. split; [apply readdir_read_only|].
  split; [apply read_read_only|apply open_read_only].
Qed.

(** X3.  [getattr], [read] and [open] agree on what is a file: when
    [getattr] answers with the attributes of a regular file (link count
    1), neither [read] nor [open] fails with [NotFound]; when it answers
    with the attributes of a directory (link count 2) for a path other
    than the root, both fail with [NotFound]. *)
Theorem attributes_agree (os : OS) (w : World) (path : str) (fh : option Z)
    (fh' size offset flags : Z) (st : Stat) :
  result_of (getattr os path fh) w = Return st ->
  (st_nlink st = 1%Z ->
   ~ fails_with (read os path size offset fh') w NotFound /\
   ~ fails_with (open os path flags) w NotFound) /\
  (st_nlink st = 2%Z -> normpath path ≠ ROOT ->
   fails_with (read os path size offset fh') w NotFound /\
   fails_with (open os path flags) w NotFound).
Proof.
  intros Hst. split.
  - intros H1. destruct (getattr_file_inv os w path fh st Hst H1) as [a Ha].
    rewrite read_not_found_iff, open_not_found_iff. rewrite Ha. by split.
  - intros H2 Hr.
    destruct (getattr_dir_inv os w path fh st Hst H2) as [H|[Hf _]]; [done|].
    by rewrite read_not_found_iff, open_not_found_iff.
Qed.

Lemma attributes_agree_witness :
  result_of (getattr two_authors (py "/A/B/b.txt") None) one_file =
    Return (file_stat 3) /\
  ~ fails_with (read two_authors (py "/A/B/b.txt") 2 0 0) one_file NotFound /\
  ~ fails_with (open two_authors (py "/A/B/b.txt") 0) one_file NotFound.
Proof.
  assert (result_of (getattr two_authors (py "/A/B/b.txt") None) one_file =
          Return (file_stat 3)) as H by (vm_compute; reflexivity).
  split; [exact H|].
  exact (proj1 (attributes_agree two_authors one_file (py "/A/B/b.txt") None
                  0 2 0 0 (file_stat 3) H) eq_refl).
Defined.

(** X4.  Consecutive reads compose: when reading [a] bytes at [offset]
    and then [b] bytes at [offset + a] both return, and the buffer for
    [a + b] bytes can be allocated, reading [a + b] bytes at [offset]
    returns the two pieces one after the other. *)
Theorem read_consecutive (os : OS) (w : World) (path : str)
    (a b offset fh : Z) (d1 d2 : list Init.Byte.byte) :
  (0 <= a)%Z -> (0 <= b)%Z -> (a + b <= SSIZE_MAX)%Z ->
  (a + b = 0)%Z \/ bytes_alloc os (a + b) = None ->
  result_of (read os path a offset fh) w = Return d1 ->
  result_of (read os path b (offset + a) fh) w = Return d2 ->
  result_of (read os path (a + b) offset fh) w = Return (d1 ++ d2).
Proof.
  intros Ha Hb Hmax Halloc (actual & content & Hf & Hop & Hs1)%read_data
    (actual' & content' & Hf' & Hop' & Hs2)%read_data.
  rewrite Hf in Hf'. injection Hf' as <-.
  rewrite Hop in Hop'. injection Hop' as <-.
  apply seek_read_data in Hs1 as (Ho & Hm & _ & ->); [|done].
  apply seek_read_data in Hs2 as (_ & _ & _ & ->); [|done].
  eapply read_run; [done|done|].
  rewrite seek_read_in_range by (done || lia). f_equal.
  rewrite !Z2Nat.inj_add by lia.
  rewrite <- drop_drop. by rewrite take_take_drop.
Qed.

Lemma read_consecutive_witness :
  (0 <= 1)%Z /\ (0 <= 2)%Z /\ (1 + 2 <= SSIZE_MAX)%Z /\
  ((1 + 2 = 0)%Z \/ bytes_alloc two_authors (1 + 2) = None) /\
  result_of (read two_authors (py "/A/B/b.txt") 1 0 0) one_file =
    Return [Init.Byte.x41] /\
  result_of (read two_authors (py "/A/B/b.txt") 2 (0 + 1) 0) one_file =
    Return [Init.Byte.x42; Init.Byte.x43] /\
  result_of (read two_authors (py "/A/B/b.txt") (1 + 2) 0 0) one_file =
    Return ([Init.Byte.x41] ++ [Init.Byte.x42; Init.Byte.x43]).
Proof.
  assert (0 <= 1)%Z as H1 by lia.
  assert (0 <= 2)%Z as H2 by lia.
  assert (1 + 2 <= SSIZE_MAX)%Z as H3 by (unfold SSIZE_MAX; lia).
  assert ((1 + 2 = 0)%Z \/ bytes_alloc two_authors (1 + 2) = None) as H4
    by (right; reflexivity).
  assert (result_of (read two_authors (py "/A/B/b.txt") 1 0 0) one_file =
          Return [Init.Byte.x41]) as H5 by (vm_compute; reflexivity).
  assert (result_of (read two_authors (py "/A/B/b.txt") 2 (0 + 1) 0) one_file =
          Return [Init.Byte.x42; Init.Byte.x43]) as H6
    by (vm_compute; reflexivity).
  repeat (split; [assumption|]).
  exact (read_consecutive two_authors one_file (py "/A/B/b.txt") 1 2 0 0 _ _
           H1 H2 H3 H4 H5 H6).
Defined.

(** X5.  The exceptions [read] lets through, on an indexed file whose
    real file can be opened: [ValueError] for an offset that does not
    fit the offset type; and, once the seek has succeeded,
    [OverflowError] for a size that does not fit an index,
    [ValueError] for a size below -1, and [MemoryError] or
    [OverflowError] when the buffer for a positive size cannot be
    allocated.  None of them is reported as [IOError]. *)
Theorem read_uncaught (os : OS) (w : World) (path : str)
    (size offset fh : Z) (actual : str) (content : list Init.Byte.byte) :
  files (self w) !! normpath path = Some actual ->
  open_rb os actual = Ok content ->
  ((offset < - SSIZE_MAX - 1)%Z \/ (SSIZE_MAX < offset)%Z ->
   result_of (read os path size offset fh) w = Raise ValueError) /\
  ((0 <= offset <= SSIZE_MAX)%Z -> (offset <= lseek_max os actual)%Z ->
   ((size < - SSIZE_MAX - 1)%Z \/ (SSIZE_MAX < size)%Z ->
    result_of (read os path size offset fh) w = Raise OverflowError) /\
   ((- SSIZE_MAX - 1 <= size < -1)%Z ->
    result_of (read os path size offset fh) w = Raise ValueError) /\
   (forall f, (0 < size <= SSIZE_MAX)%Z -> bytes_alloc os size = Some f ->
      result_of (read os path size offset fh) w = Raise (alloc_exc f) /\
      (alloc_exc f = MemoryError \/ alloc_exc f = OverflowError))).
Proof.
  intros Hf Hop. split.
  - intros Ho. eapply read_raises; [done|done|].
    by apply seek_read_offset_type.
  - intros Ho Hm.
    pose proof (seek_read_size os actual content size offset Ho Hm) as E.
    assert (0 < SSIZE_MAX)%Z by reflexivity.
    split; [|split].
    + intros Hs. eapply read_raises; [done|done|]. rewrite E.
      assert ((size <? - SSIZE_MAX - 1)%Z || (SSIZE_MAX <? size)%Z = true)
        as -> by lia. reflexivity.
    + intros Hs. eapply read_raises; [done|done|]. rewrite E.
      assert ((size <? - SSIZE_MAX - 1)%Z || (SSIZE_MAX <? size)%Z = false)
        as -> by lia.
      assert ((size <? -1)%Z = true) as -> by lia. reflexivity.
    + intros f Hs Hal. split; [|destruct f; [by left|by right]].
      eapply read_raises; [done|done|]. rewrite E.
      assert ((size <? - SSIZE_MAX - 1)%Z || (SSIZE_MAX <? size)%Z = false)
        as -> by lia.
      assert ((size <? -1)%Z = false) as -> by lia.
      assert ((size =? 0)%Z = false) as -> by lia.
      assert ((size =? -1)%Z = false) as -> by lia.
      by rewrite Hal.
Qed.

Lemma read_uncaught_witness :
  files (self one_file) !! normpath (py "/A/B/b.txt") = Some (py "/lib/1/b.txt") /\
  open_rb two_authors (py "/lib/1/b.txt") =
    Ok [Init.Byte.x41; Init.Byte.x42; Init.Byte.x43] /\
  ((0 <= 0 <= SSIZE_MAX)%Z ->
   (0 <= lseek_max two_authors (py "/lib/1/b.txt"))%Z ->
   (- SSIZE_MAX - 1 <= -2 < -1)%Z ->
   result_of (read two_authors (py "/A/B/b.txt") (-2) 0 0) one_file =
   Raise ValueError).
Proof.
  assert (files (self one_file) !! normpath (py "/A/B/b.txt") =
          Some (py "/lib/1/b.txt")) as H1 by (vm_compute; reflexivity).
  assert (open_rb two_authors (py "/lib/1/b.txt") =
          Ok [Init.Byte.x41; Init.Byte.x42; Init.Byte.x43]) as H2
    by reflexivity.
  repeat (split; [assumption|]).
  intros Ho Hm.
  exact (proj1 (proj2 (proj2 (read_uncaught two_authors one_file
                         (py "/A/B/b.txt") (-2) 0 0 _ _ H1 H2) Ho Hm))).
Defined.

(** ** Metadata, names and discovery *)

(** X6.  [parse_metadata] raises in these cases only: when [ET.parse]
    raises an exception other than [ET.ParseError] (the [OSError] of a
    file that cannot be read, or any other one, such as [LookupError]
    or [ValueError] for a declared encoding that is not supported),
    which it lets through as it is; and, with [TypeError], when the
    creator or the title element is present without text.  A descriptor
    that is not well-formed never makes it raise. *)
Theorem parse_metadata_raises (db : UnicodeDB) (os : OS) (file_path : str)
    (w : World) (e : PyExc) :
  result_of (parse_metadata db os file_path) w = Raise e <->
  (exists errno msg,
     et_parse os file_path = ParseOSError errno msg /\ e = OSError errno msg) \/
  et_parse os file_path = ParseRaises e \/
  (exists root el,
     et_parse os file_path = Parsed root /\ e = TypeError /\
     elem_text el = None /\
     (find_tag root DC_NS (py "creator") = Some el \/
      find_tag root DC_NS (py "title") = Some el)).
Proof.
  rewrite parse_metadata_cases.
  destruct (et_parse os file_path) as [root|msg|errno msg|e'].
  - destruct (text_or (find_tag root DC_NS (py "creator")) (py "Unknown Author"))
      as [a|] eqn:Ea.
    + destruct (text_or (find_tag root DC_NS (py "title")) (py "Unknown Title"))
        as [t|] eqn:Et.
      * split; [done|].
        intros [(? & ? & [=] & _)|[[=]|(r & el & [= <-] & _ & Hel & [H|H])]].
        -- rewrite H in Ea. cbn [text_or] in Ea. congruence.
        -- rewrite H in Et. cbn [text_or] in Et. congruence.
      * apply text_or_none in Et as (el & Hel & Ht). split.
        -- intros [= <-]. right. right. exists root, el.
           by repeat split; [..|right].
        -- by intros [(? & ? & [=] & _)|[[=]|(r & el' & _ & -> & _)]].
    + apply text_or_none in Ea as (el & Hel & Ht). split.
      * intros [= <-]. right. right. exists root, el.
        by repeat split; [..|left].
      * by intros [(? & ? & [=] & _)|[[=]|(r & el' & _ & -> & _)]].
  - split; [done|]. by intros [(? & ? & [=] & _)|[[=]|(r & el & [=] & _)]].
  - split.
    + intros [= <-]. left. by exists errno, msg.
    + by intros [(? & ? & [= <- <-] & ->)|[[=]|(r & el & [=] & _)]].
  - split.
    + intros [= <-]. right. by left.
    + by intros [(? & ? & [=] & _)|[[= <-]|(r & el & [=] & _)]].
Qed.

(** X7.  [get_book_path] raises exactly when the record has a series
    and its series index is a string that [float] reads as an infinity;
    the exception is [OverflowError].  A missing index, an index that is
    not a number and the index [nan] fall back to the title. *)
Theorem get_book_path_raises (db : UnicodeDB) (md : Metadata) (w : World)
    (e : PyExc) :
  result_of (get_book_path db md) w = Raise e <->
  e = OverflowError /\ truthy (series md) = true /\
  exists s neg, series_index md = Some s /\ float_of_str db s = Some (Inf neg).
Proof.
  rewrite get_book_path_cases.
  destruct (truthy (series md)); [|split; [done|by intros (_ & [=] & _)]].
  destruct (series_index md) as [s|]; cbn [py_float].
  - destruct (float_of_str db s) as [[neg m x|neg|]|] eqn:Ef.
    + cbn [py_int]. split; [done|].
      intros (_ & _ & s' & n & [= <-] & Hf). congruence.
    + split.
      * intros [= <-]. split; [done|]. split; [done|]. by exists s, neg.
      * by intros (-> & _).
    + cbn [py_int]. split; [done|].
      intros (_ & _ & s' & n & [= <-] & Hf). congruence.
    + split; [done|]. intros (_ & _ & s' & n & [= <-] & Hf). congruence.
  - split; [done|]. by intros (_ & _ & s' & n & [=] & _).
Qed.

(** X8.  The virtual book path derived from a parsed descriptor is a
    relative path of one to three components, none of them empty: at
    most two for a book without a series, at least two for a book of a
    series (the author's component is missing when the author sanitizes
    to the empty string). *)
Theorem book_path_shape (db : UnicodeDB) (os : OS) (file_path : str)
    (w w' : World) (md : Metadata) (p : str) :
  result_of (parse_metadata db os file_path) w = Return md ->
  result_of (get_book_path db md) w' = Return p ->
  exists cs,
    p = join_str [SEP] cs /\ forallb plain cs = true /\
    (1 <= length cs <= 3)%nat /\
    (truthy (series md) = false -> (length cs <= 2)%nat) /\
    (truthy (series md) = true -> (2 <= length cs)%nat).
Proof.
  intros Hp Hg. apply parse_metadata_fields in Hp.
  destruct (get_book_path_shape db md w' p Hp Hg) as (cs & H1 & H2 & H3).
  by exists cs.
Qed.

Lemma book_path_shape_witness :
  result_of (parse_metadata latin1_db two_authors (py "/lib/1/metadata.opf"))
    (world0 (py "/lib")) =
  Return {| author := py "Isaac Asimov"; book_title := py "Second Foundation";
            series := Some (py "Foundation");
            series_index := Some (py "2.0") |} /\
  result_of (get_book_path latin1_db
               {| author := py "Isaac Asimov";
                  book_title := py "Second Foundation";
                  series := Some (py "Foundation");
                  series_index := Some (py "2.0") |})
    (world0 (py "/lib")) = Return (py "Isaac Asimov/Foundation/Book 2") /\
  exists cs,
    py "Isaac Asimov/Foundation/Book 2" = join_str [SEP] cs /\
    forallb plain cs = true /\ (1 <= length cs <= 3)%nat.
Proof.
  assert (result_of (parse_metadata latin1_db two_authors
                       (py "/lib/1/metadata.opf")) (world0 (py "/lib")) =
          Return {| author := py "Isaac Asimov";
                    book_title := py "Second Foundation";
                    series := Some (py "Foundation");
                    series_index := Some (py "2.0") |}) as H1
    by (vm_compute; reflexivity).
  assert (result_of (get_book_path latin1_db
                       {| author := py "Isaac Asimov";
                          book_title := py "Second Foundation";
                          series := Some (py "Foundation");
                          series_index := Some (py "2.0") |})
            (world0 (py "/lib")) = Return (py "Isaac Asimov/Foundation/Book 2"))
    as H2 by (vm_compute; reflexivity).
  repeat (split; [assumption|]).
  destruct (book_path_shape latin1_db two_authors _ _ _ _ _ H1 H2)
    as (cs & Hcs & Hpl & Hlen & _).
  exists cs. exact (conj Hcs (conj Hpl Hlen)).
Defined.

(** X9.  A sanitized name is a safe path component: it holds no [/],
    every character of it is alphanumeric or among [-_.() ], it has no
    leading or trailing whitespace, and it is not longer than the
    input. *)
Theorem sanitize_name_component (db : UnicodeDB) (name : str) :
  sep_free (sanitize_name db name) = true /\
  Forall (fun c => keep_char db c = true) (sanitize_name db name) /\
  strip isspace (sanitize_name db name) = sanitize_name db name /\
  (length (sanitize_name db name) <= length name)%nat.
Proof.
  split; [apply sanitize_name_sep_free|].
  split; [apply sanitize_name_kept|].
  split; [apply sanitize_name_trimmed|apply sanitize_name_length].
Qed.

(** X10.  With a character database in which no alphanumeric character
    is whitespace (as in Unicode), [sanitize_name] returns the empty
    string exactly for the strings made of spaces only: any other
    whitespace character is replaced by [_] before the whitespace is
    collapsed. *)
Theorem sanitize_name_blank_iff (db : UnicodeDB) (name : str) :
  (forall c, 128 <= c -> uni_isalnum db c = true -> isspace c = false) ->
  sanitize_name db name = [] <-> Forall (fun c => c = SPACE) name.
Proof. intros Hdb. by apply sanitize_name_blank. Qed.

Lemma sanitize_name_blank_iff_witness :
  (forall c, 128 <= c -> uni_isalnum latin1_db c = true -> isspace c = false) /\
  (sanitize_name latin1_db [SPACE; SPACE] = [] <->
   Forall (fun c => c = SPACE) [SPACE; SPACE]).
Proof.
  assert (forall c, 128 <= c -> uni_isalnum latin1_db c = true ->
                    isspace c = false) as H
    by (intros c _; apply latin1_alnum_not_space).
  split; [exact H|].
  exact (sanitize_name_blank_iff latin1_db [SPACE; SPACE] H).
Defined.

(** X11.  [find_metadata_files] returns, without touching the object,
    the paths [root_dir/.../metadata.opf] of the directories below the
    root directory (the root included, links not followed) that hold a
    file named [metadata.opf], and nothing else. *)
Theorem find_metadata_files_spec (os : OS) (w : World) :
  wf_os os = true ->
  exists l,
    find_metadata_files os w = (Return l, w) /\
    forall m,
      m ∈ l <->
      exists ms, file_below os (root_dir (self w)) ms METADATA_OPF /\
                 m = path_join (root_dir (self w)) (ms ++ [METADATA_OPF]).
Proof.
  intros Hos. exists (discovered os (root_dir (self w))). split.
  - unfold find_metadata_files. run_method. by destruct w.
  - intros m. by apply discovered_iff.
Qed.

Lemma find_metadata_files_spec_witness :
  wf_os two_authors = true /\
  exists l,
    find_metadata_files two_authors (world0 (py "/lib")) =
      (Return l, world0 (py "/lib")) /\
    forall m,
      m ∈ l <->
      exists ms,
        file_below two_authors (root_dir (self (world0 (py "/lib")))) ms
          METADATA_OPF /\
        m = path_join (root_dir (self (world0 (py "/lib"))))
              (ms ++ [METADATA_OPF]).
Proof.
  assert (wf_os two_authors = true) as H by (vm_compute; reflexivity).
  split; [exact H|].
  exact (find_metadata_files_spec two_authors (world0 (py "/lib")) H).
Defined.

(** X12.  A series index written as a natural number below 2^53 gives
    the directory [Book n] with the same number: [float] reads it
    exactly and [int] gives it back. *)
Theorem integer_series_index (db : UnicodeDB) (md : Metadata) (w : World)
    (s : str) (n : Z) :
  series md = Some s -> s ≠ [] ->
  series_index md = Some (str_of_int n) -> (0 <= n < 2 ^ 53)%Z ->
  get_book_path db md w =
  (Return (path_join (author md) [s; py "Book " ++ str_of_int n]), w).
Proof.
  intros Hs Hne Hi Hn.
  destruct (int_float_str db n Hn) as (x & Hx & Hint).
  eapply get_book_path_indexed; [done|done| |done]. by rewrite Hi.
Qed.

Lemma integer_series_index_witness :
  series {| author := py "Isaac Asimov"; book_title := py "Second Foundation";
            series := Some (py "Foundation");
            series_index := Some (str_of_int 2) |} = Some (py "Foundation") /\
  py "Foundation" ≠ [] /\
  series_index {| author := py "Isaac Asimov";
                  book_title := py "Second Foundation";
                  series := Some (py "Foundation");
                  series_index := Some (str_of_int 2) |} =
    Some (str_of_int 2) /\
  (0 <= 2 < 2 ^ 53)%Z /\
  get_book_path latin1_db
    {| author := py "Isaac Asimov"; book_title := py "Second Foundation";
       series := Some (py "Foundation");
       series_index := Some (str_of_int 2) |} (world0 (py "/lib")) =
  (Return (path_join (py "Isaac Asimov")
             [py "Foundation"; py "Book " ++ str_of_int 2]),
   world0 (py "/lib")).
Proof.
  assert (py "Foundation" ≠ []) as H2 by discriminate.
  assert (0 <= 2 < 2 ^ 53)%Z as H4 by (split; [lia|reflexivity]).
  split; [reflexivity|]. split; [exact H2|]. split; [reflexivity|].
  split; [exact H4|].
  exact (integer_series_index latin1_db
           {| author := py "Isaac Asimov";
              book_title := py "Second Foundation";
              series := Some (py "Foundation");
              series_index := Some (str_of_int 2) |}
           (world0 (py "/lib")) (py "Foundation") 2 eq_refl H2 eq_refl H4).
Defined.

(** X13.  A parsed descriptor is filed as a book of a series exactly
    when the first [calibre:series] element it has in document order,
    the one [root.find] returns, has a [content] that sanitizes to a
    name that is not empty; series elements after the first are not
    looked at.  Without such an element, or when the first one has no
    [content] or one that sanitizes to the empty name, the book is a
    standalone book. *)
Theorem series_kept_iff (db : UnicodeDB) (os : OS) (file_path : str)
    (w : World) (root : Element) (md : Metadata) :
  et_parse os file_path = Parsed root ->
  result_of (parse_metadata db os file_path) w = Return md ->
  truthy (series md) = true <->
  exists s, content_of (find_meta root (py "calibre:series")) = Some s /\
            sanitize_name db s ≠ [].
Proof.
  intros Hp. rewrite parse_metadata_cases, Hp.
  destruct (text_or (find_tag root DC_NS (py "creator")) _); [|done].
  destruct (text_or (find_tag root DC_NS (py "title")) _); [|done].
  intros [= <-]. cbn [series]. unfold series_of.
  destruct (content_of (find_meta root (py "calibre:series")))
    as [[|c s']|].
  - cbn [truthy]. split; [done|]. by intros (s & [= <-] & H).
  - cbn [truthy option_map].
    destruct (sanitize_name db (c :: s')) as [|c' r] eqn:E.
    + split; [done|]. intros (s & [= <-] & H). congruence.
    + split; [|done]. intros _. exists (c :: s'). split; [done|].
      by rewrite E.
  - cbn [truthy]. split; [done|]. by intros (s & [=] & _).
Qed.

Lemma series_kept_iff_witness :
  et_parse two_authors (py "/lib/1/metadata.opf") =
    Parsed (opf_package
              [dc "title" (Some (py "Second Foundation"));
               dc "creator" (Some (py "Isaac Asimov"));
               opf_meta "calibre:series" "Foundation";
               opf_meta "calibre:series_index" "2.0"]) /\
  result_of (parse_metadata latin1_db two_authors (py "/lib/1/metadata.opf"))
    (world0 (py "/lib")) =
  Return {| author := py "Isaac Asimov"; book_title := py "Second Foundation";
            series := Some (py "Foundation");
            series_index := Some (py "2.0") |} /\
  (truthy (Some (py "Foundation")) = true <->
   exists s,
     content_of
       (find_meta
          (opf_package
             [dc "title" (Some (py "Second Foundation"));
              dc "creator" (Some (py "Isaac Asimov"));
              opf_meta "calibre:series" "Foundation";
              opf_meta "calibre:series_index" "2.0"])
          (py "calibre:series")) = Some s /\
     sanitize_name latin1_db s ≠ []).
Proof.
  assert (et_parse two_authors (py "/lib/1/metadata.opf") =
          Parsed (opf_package
                    [dc "title" (Some (py "Second Foundation"));
                     dc "creator" (Some (py "Isaac Asimov"));
                     opf_meta "calibre:series" "Foundation";
                     opf_meta "calibre:series_index" "2.0"])) as H1
    by (vm_compute; reflexivity).
  assert (result_of (parse_metadata latin1_db two_authors
                       (py "/lib/1/metadata.opf")) (world0 (py "/lib")) =
          Return {| author := py "Isaac Asimov";
                    book_title := py "Second Foundation";
                    series := Some (py "Foundation");
                    series_index := Some (py "2.0") |}) as H2
    by (vm_compute; reflexivity).
  repeat (split; [assumption|]).
  exact (series_kept_iff latin1_db two_authors (py "/lib/1/metadata.opf")
           (world0 (py "/lib")) _ _ H1 H2).
Defined.

(** ** The build *)

(** X14.  The constructor returns an object exactly when every
    descriptor found under the root directory yields a virtual book
    path, that is, when [parse_metadata] and [get_book_path] both return
    for it: one descriptor for which either raises leaves no object. *)
Theorem build_completes_iff (db : UnicodeDB) (os : OS) (root : str) :
  wf_os os = true ->
  (exists fs, new_BookFS db os root = Return fs) <->
  (forall m, m ∈ discovered os root ->
     exists p, book_path_of db os m = Some p).
Proof.
  intros Hos. split.
  - intros [fs [_ Hall]%new_BookFS_index] m Hm; [|done].
    rewrite Forall_forall in Hall. destruct (Hall m Hm) as (cs & Hp & _).
    by eexists.
  - intros H.
    destruct (books_loop_total db os Hos (discovered os root) (world0 root) H)
      as [w' E].
    exists (self w'). rewrite new_BookFS_unfold. by rewrite E.
Qed.

Lemma build_completes_iff_witness :
  wf_os two_authors = true /\
  ((exists fs, new_BookFS latin1_db two_authors (py "/lib") = Return fs) <->
   (forall m, m ∈ discovered two_authors (py "/lib") ->
      exists p, book_path_of latin1_db two_authors m = Some p)).
Proof.
  assert (wf_os two_authors = true) as H by (vm_compute; reflexivity).
  split; [exact H|].
  exact (build_completes_iff latin1_db two_authors (py "/lib") H).
Defined.

(** X15.  When the constructor raises, the exception is the one
    [parse_metadata] or [get_book_path] raises for a descriptor found
    under the root directory: an exception [ET.parse] raised for that
    descriptor (an [OSError] or any other one but [ET.ParseError]), a
    [TypeError] or an [OverflowError].  The loops over [os.walk] add
    none. *)
Theorem build_failure_cause (db : UnicodeDB) (os : OS) (root : str)
    (e : PyExc) :
  wf_os os = true -> new_BookFS db os root = Raise e ->
  exists m,
    m ∈ discovered os root /\
    (result_of (parse_metadata db os m) (world0 root) = Raise e \/
     exists md,
       result_of (parse_metadata db os m) (world0 root) = Return md /\
       result_of (get_book_path db md) (world0 root) = Raise e) /\
    (e = TypeError \/ e = OverflowError \/
     et_parse os m = ParseRaises e \/
     exists errno msg,
       et_parse os m = ParseOSError errno msg /\ e = OSError errno msg).
Proof.
  intros Hos. rewrite new_BookFS_unfold.
  destruct (for_each (discovered os root) (index_book db os) (world0 root))
    as [[[]|e'] w'] eqn:E; [done|]. intros [= ->].
  apply books_loop_raises in E as (m & w1 & w2 & Hm & E).
  apply (index_book_raises db os Hos) in E.
  assert (result_of (parse_metadata db os m) (world0 root) = Raise e \/
          exists md,
            result_of (parse_metadata db os m) (world0 root) = Return md /\
            result_of (get_book_path db md) (world0 root) = Raise e) as H.
  { rewrite (parse_metadata_result db os m (world0 root) w1).
    destruct E as [E|(md & E1 & E2)]; [by left|]. right. exists md.
    split; [done|]. by rewrite (get_book_path_result db md (world0 root) w1). }
  exists m. split; [done|]. split; [done|].
  destruct H as [H|(md & _ & H)].
  - rewrite parse_metadata_cases in H.
    destruct (et_parse os m) as [r|msg|errno msg|e'].
    + destruct (text_or _ _); [destruct (text_or _ _)|];
        try done; injection H as <-; by left.
    + done.
    + injection H as <-. right. right. right. by eexists _, _.
    + injection H as <-. right. right. by left.
  - rewrite get_book_path_cases in H. right. left.
    destruct (truthy (series md)); [|done].
    destruct (py_float db (series_index md)) as [[neg k x|neg|]|e']; try done.
    by injection H as <-.
Qed.

Lemma build_failure_cause_witness :
  wf_os empty_creator = true /\
  new_BookFS latin1_db empty_creator (py "/lib") = Raise TypeError /\
  exists m,
    m ∈ discovered empty_creator (py "/lib") /\
    (result_of (parse_metadata latin1_db empty_creator m) (world0 (py "/lib"))
       = Raise TypeError \/
     exists md,
       result_of (parse_metadata latin1_db empty_creator m)
         (world0 (py "/lib")) = Return md /\
       result_of (get_book_path latin1_db md) (world0 (py "/lib"))
         = Raise TypeError).
Proof.
  assert (wf_os empty_creator = true) as H1 by (vm_compute; reflexivity).
  assert (new_BookFS latin1_db empty_creator (py "/lib") = Raise TypeError)
    as H2 by (vm_compute; reflexivity).
  repeat (split; [assumption|]).
  destruct (build_failure_cause latin1_db empty_creator (py "/lib")
              TypeError H1 H2) as (m & Hm & Hc & _).
  exists m. exact (conj Hm Hc).
Defined.

(** X16.  When no descriptor is found under the root directory, in
    particular when the root directory is not a readable directory, the
    constructor returns an object with an empty index, without
    raising. *)
Theorem build_without_descriptors (db : UnicodeDB) (os : OS) (root : str) :
  fs_resolve os root = None \/ discovered os root = [] ->
  new_BookFS db os root =
  Return {| root_dir := root; files := ∅; directories := ∅ |}.
Proof.
  intros H. assert (discovered os root = []) as E.
  { destruct H as [H|H]; [|done]. unfold discovered, os_walk. by rewrite H. }
  rewrite new_BookFS_unfold. by rewrite E.
Qed.

Lemma build_without_descriptors_witness :
  (fs_resolve two_authors (py "/nowhere") = None \/
   discovered two_authors (py "/nowhere") = []) /\
  new_BookFS latin1_db two_authors (py "/nowhere") =
  Return {| root_dir := py "/nowhere"; files := ∅; directories := ∅ |}.
Proof.
  assert (fs_resolve two_authors (py "/nowhere") = None \/
          discovered two_authors (py "/nowhere") = []) as H
    by (left; vm_compute; reflexivity).
  split; [exact H|].
  exact (build_without_descriptors latin1_db two_authors (py "/nowhere") H).
Defined.

(** X17.  Every entry of [files] comes from a book: its value is the
    real path [book_dir/.../x] of a file found in the directory of a
    discovered descriptor or below it, and its key is the virtual path
    the code computes for that file from the virtual book path of the
    descriptor. *)
Theorem indexed_file_origin (db : UnicodeDB) (os : OS) (root : str)
    (fs : BookFS) (k v : str) :
  wf_os os = true -> new_BookFS db os root = Return fs ->
  files fs !! k = Some v ->
  exists m p ms x,
    m ∈ discovered os root /\ book_path_of db os m = Some p /\
    file_below os (dirname m) ms x /\
    k = virtual_entry p ms x /\ v = path_join (dirname m) (ms ++ [x]).
Proof.
  intros Hos [-> Hall]%new_BookFS_index Hk; [|done].
  apply index_books_sound in Hk as [Hk|(m & Hm & Hk)]; [done| |done].
  rewrite Forall_forall in Hall. destruct (Hall m Hm) as (cs & Hb).
  rewrite (book_at_components db os m cs Hb) in Hk.
  apply (book_file_paths db os Hos m cs k v Hb) in Hk
    as (ms & x & Hbelow & -> & ->).
  exists m, (join_str [SEP] cs), ms, x. by destruct Hb as (? & _).
Qed.

Lemma indexed_file_origin_witness :
  wf_os two_authors = true /\
  new_BookFS latin1_db two_authors (py "/lib") =
    Return (built latin1_db two_authors (py "/lib")) /\
  files (built latin1_db two_authors (py "/lib"))
    !! py "/Jane Austen/Emma/extras/notes.txt" =
    Some (py "/lib/2/extras/notes.txt") /\
  exists m p ms x,
    m ∈ discovered two_authors (py "/lib") /\
    book_path_of latin1_db two_authors m = Some p /\
    file_below two_authors (dirname m) ms x /\
    py "/Jane Austen/Emma/extras/notes.txt" = virtual_entry p ms x /\
    py "/lib/2/extras/notes.txt" = path_join (dirname m) (ms ++ [x]).
Proof.
  assert (wf_os two_authors = true) as H1 by (vm_compute; reflexivity).
  assert (new_BookFS latin1_db two_authors (py "/lib") =
          Return (built latin1_db two_authors (py "/lib"))) as H2
    by (vm_compute; reflexivity).
  assert (files (built latin1_db two_authors (py "/lib"))
            !! py "/Jane Austen/Emma/extras/notes.txt" =
          Some (py "/lib/2/extras/notes.txt")) as H3
    by (vm_compute; reflexivity).
  repeat (split; [assumption|]).
  exact (indexed_file_origin latin1_db two_authors (py "/lib") _ _ _ H1 H2 H3).
Defined.

(** X18.  Every file of every book is indexed: for a file found in the
    directory of a discovered descriptor or below it, the virtual path
    the code computes for it is a key of [files]; for the descriptor
    indexed last, the key maps to the real path of the file. *)
Theorem book_files_indexed (db : UnicodeDB) (os : OS) (root : str)
    (fs : BookFS) (m : str) (ms : list str) (x : str) :
  wf_os os = true -> new_BookFS db os root = Return fs ->
  m ∈ discovered os root -> file_below os (dirname m) ms x ->
  exists p,
    book_path_of db os m = Some p /\
    virtual_entry p ms x ∈ dom (files fs) /\
    (forall l, discovered os root = l ++ [m] ->
       files fs !! virtual_entry p ms x =
       Some (path_join (dirname m) (ms ++ [x]))).
Proof.
  intros Hos [-> Hall]%new_BookFS_index Hm Hbelow; [|done].
  pose proof Hall as Hall'. rewrite Forall_forall in Hall'.
  destruct (Hall' m Hm) as (cs & Hb).
  exists (join_str [SEP] cs). split; [by destruct Hb|].
  assert (book_file os (book_components db os m) (dirname m)
            (virtual_entry (join_str [SEP] cs) ms x)
            (path_join (dirname m) (ms ++ [x]))) as Hk.
  { rewrite (book_at_components db os m cs Hb).
    apply (book_file_paths db os Hos m cs _ _ Hb). by exists ms, x. }
  split.
  - by eapply index_books_complete.
  - intros l E. rewrite E. apply index_books_last; [done| |done].
    by rewrite <- E.
Qed.

Lemma book_files_indexed_witness :
  wf_os two_authors = true /\
  new_BookFS latin1_db two_authors (py "/lib") =
    Return (built latin1_db two_authors (py "/lib")) /\
  py "/lib/1/metadata.opf" ∈ discovered two_authors (py "/lib") /\
  file_below two_authors (dirname (py "/lib/1/metadata.opf")) []
    (py "book.epub") /\
  exists p,
    book_path_of latin1_db two_authors (py "/lib/1/metadata.opf") = Some p /\
    virtual_entry p [] (py "book.epub")
      ∈ dom (files (built latin1_db two_authors (py "/lib"))).
Proof.
  assert (wf_os two_authors = true) as H1 by (vm_compute; reflexivity).
  assert (new_BookFS latin1_db two_authors (py "/lib") =
          Return (built latin1_db two_authors (py "/lib"))) as H2
    by (vm_compute; reflexivity).
  assert (py "/lib/1/metadata.opf" ∈ discovered two_authors (py "/lib")) as H3.
  { replace (discovered two_authors (py "/lib"))
      with [py "/lib/1/metadata.opf"; py "/lib/2/metadata.opf"]
      by (vm_compute; reflexivity).
    apply list_elem_of_here. }
  assert (file_below two_authors (dirname (py "/lib/1/metadata.opf")) []
            (py "book.epub")) as H4.
  { exists (RNode [py "metadata.opf"; py "book.epub"] [] []).
    split; [vm_compute; reflexivity|].
    exists (RNode [py "metadata.opf"; py "book.epub"] [] []).
    split; [reflexivity|]. apply list_elem_of_further, list_elem_of_here. }
  repeat (split; [assumption|]).
  destruct (book_files_indexed latin1_db two_authors (py "/lib") _ _ _ _
              H1 H2 H3 H4) as (p & Hp & Hdom & _).
  exists p. exact (conj Hp Hdom).
Defined.

(** X19.  The stored directories are exactly the directories of the
    books: the prefixes of the virtual book path of a discovered
    descriptor, and the virtual paths of the subdirectories (and links)
    found in its directory or below it. *)
Theorem directories_characterized (db : UnicodeDB) (os : OS) (root : str)
    (fs : BookFS) (d : str) :
  wf_os os = true -> new_BookFS db os root = Return fs ->
  d ∈ directories fs <->
  exists m p,
    m ∈ discovered os root /\ book_path_of db os m = Some p /\
    ((exists i, (1 <= i <= length (split_on is_sep (strip is_sep p)))%nat /\
                d = prefix_dir p i) \/
     (exists ms n, dir_below os (dirname m) ms n /\
                   d = virtual_entry p ms n)).
Proof.
  intros Hos [-> Hall]%new_BookFS_index; [|done].
  rewrite Forall_forall in Hall.
  rewrite (index_books_dirs db os Hos). cbn [directories]. split.
  - intros [H|(m & Hm & H)]; [done|].
    destruct (Hall m Hm) as (cs & Hb).
    rewrite (book_at_components db os m cs Hb) in H.
    apply (book_directory_paths db os Hos m cs d Hb) in H.
    exists m, (join_str [SEP] cs). split; [done|].
    split; [by destruct Hb|].
    destruct Hb as (_ & Hne & Hcs). by rewrite path_components.
  - intros (m & p & Hm & Hp & H). right. exists m. split; [done|].
    destruct (Hall m Hm) as (cs & Hb).
    rewrite (book_at_components db os m cs Hb).
    apply (book_directory_paths db os Hos m cs d Hb).
    destruct Hb as (Hp' & Hne & Hcs). rewrite Hp in Hp'.
    injection Hp' as ->. by rewrite path_components in H.
Qed.

Lemma directories_characterized_witness :
  wf_os two_authors = true /\
  new_BookFS latin1_db two_authors (py "/lib") =
    Return (built latin1_db two_authors (py "/lib")) /\
  (py "/Jane Austen" ∈ directories (built latin1_db two_authors (py "/lib")) <->
   exists m p,
     m ∈ discovered two_authors (py "/lib") /\
     book_path_of latin1_db two_authors m = Some p /\
     ((exists i, (1 <= i <= length (split_on is_sep (strip is_sep p)))%nat /\
                 py "/Jane Austen" = prefix_dir p i) \/
      (exists ms n, dir_below two_authors (dirname m) ms n /\
                    py "/Jane Austen" = virtual_entry p ms n))).
Proof.
  assert (wf_os two_authors = true) as H1 by (vm_compute; reflexivity).
  assert (new_BookFS latin1_db two_authors (py "/lib") =
          Return (built latin1_db two_authors (py "/lib"))) as H2
    by (vm_compute; reflexivity).
  repeat (split; [assumption|]).
  exact (directories_characterized latin1_db two_authors (py "/lib") _
           (py "/Jane Austen") H1 H2).
Defined.

(** X20.  Every key of [files] and every stored directory of a built
    index is a normalized absolute path, so that it is found under its
    own name by the operations, which normalize the queried path; a key
    is never the root. *)
Theorem index_paths_normalized (db : UnicodeDB) (os : OS) (root : str)
    (fs : BookFS) (k : str) :
  wf_os os = true -> new_BookFS db os root = Return fs ->
  (k ∈ dom (files fs) -> normpath k = k /\ starts_with_sep k = true /\ k ≠ ROOT) /\
  (k ∈ directories fs -> normpath k = k /\ starts_with_sep k = true).
Proof.
  intros Hos Hnew. split.
  - intros [v Hv]%elem_of_dom.
    destruct (built_file_names db os Hos root fs k v Hnew Hv)
      as (ns & x & Hns & Hx & -> & _).
    assert (forallb valid_name (ns ++ [x]) = true) as H
      by (rewrite forallb_app, Hns; cbn; by rewrite Hx).
    split; [by apply normpath_names|]. split; [apply is_sep_SEP|].
    intros E. apply (abs_of_inj (ns ++ [x]) []) in E;
      [by destruct ns|by apply forallb_valid_plain|done].
  - intros Hd.
    destruct (built_directory_names db os Hos root fs k Hnew Hd)
      as (ns & Hns & ->).
    split; [by apply normpath_names|apply is_sep_SEP].
Qed.

Lemma index_paths_normalized_witness :
  wf_os two_authors = true /\
  new_BookFS latin1_db two_authors (py "/lib") =
    Return (built latin1_db two_authors (py "/lib")) /\
  (py "/Jane Austen" ∈ directories (built latin1_db two_authors (py "/lib")) ->
   normpath (py "/Jane Austen") = py "/Jane Austen" /\
   starts_with_sep (py "/Jane Austen") = true).
Proof.
  assert (wf_os two_authors = true) as H1 by (vm_compute; reflexivity).
  assert (new_BookFS latin1_db two_authors (py "/lib") =
          Return (built latin1_db two_authors (py "/lib"))) as H2
    by (vm_compute; reflexivity).
  repeat (split; [assumption|]).
  exact (proj2 (index_paths_normalized latin1_db two_authors (py "/lib") _
                  (py "/Jane Austen") H1 H2)).
Defined.

(** X21.  A file keeps its name: the last component of a key of
    [files] is the last component of the real path it maps to. *)
Theorem virtual_name_is_real_name (db : UnicodeDB) (os : OS) (root : str)
    (fs : BookFS) (k v : str) :
  wf_os os = true -> new_BookFS db os root = Return fs ->
  files fs !! k = Some v -> basename k = basename v.
Proof.
  intros Hos Hnew Hv.
  destruct (built_file_names db os Hos root fs k v Hnew Hv)
    as (ns & x & Hns & Hx & -> & d & Hd & ->).
  rewrite basename_abs_of by (by apply valid_name_plain).
  by rewrite basename_join2.
Qed.

Lemma virtual_name_is_real_name_witness :
  wf_os two_authors = true /\
  new_BookFS latin1_db two_authors (py "/lib") =
    Return (built latin1_db two_authors (py "/lib")) /\
  files (built latin1_db two_authors (py "/lib"))
    !! py "/Jane Austen/Emma/extras/notes.txt" =
    Some (py "/lib/2/extras/notes.txt") /\
  basename (py "/Jane Austen/Emma/extras/notes.txt") =
  basename (py "/lib/2/extras/notes.txt").
Proof.
  assert (wf_os two_authors = true) as H1 by (vm_compute; reflexivity).
  assert (new_BookFS latin1_db two_authors (py "/lib") =
          Return (built latin1_db two_authors (py "/lib"))) as H2
    by (vm_compute; reflexivity).
  assert (files (built latin1_db two_authors (py "/lib"))
            !! py "/Jane Austen/Emma/extras/notes.txt" =
          Some (py "/lib/2/extras/notes.txt")) as H3
    by (vm_compute; reflexivity).
  repeat (split; [assumption|]).
  exact (virtual_name_is_real_name latin1_db two_authors (py "/lib") _ _ _
           H1 H2 H3).
Defined.

(** X22.  The stored directories are closed under parents: every
    proper ancestor of a stored directory of a built index is the root
    or a stored directory, so that the virtual tree is connected. *)
Theorem directory_ancestors_registered (db : UnicodeDB) (os : OS)
    (root : str) (fs : BookFS) (d : str) (n : nat) :
  wf_os os = true -> new_BookFS db os root = Return fs ->
  d ∈ directories fs ->
  ancestor n d = ROOT \/ ancestor n d ∈ directories fs.
Proof.
  intros Hos Hnew Hd. pose proof (new_BookFS_inv db os Hos root fs Hnew) as Hinv.
  induction n as [|n IH]; [by right|]. cbn [ancestor].
  destruct IH as [->|IH]; [left; apply dirname_ROOT|].
  apply index_inv_parent; [done|by right].
Qed.

Lemma directory_ancestors_registered_witness :
  wf_os two_authors = true /\
  new_BookFS latin1_db two_authors (py "/lib") =
    Return (built latin1_db two_authors (py "/lib")) /\
  py "/Jane Austen/Emma/extras"
    ∈ directories (built latin1_db two_authors (py "/lib")) /\
  (ancestor 2 (py "/Jane Austen/Emma/extras") = ROOT \/
   ancestor 2 (py "/Jane Austen/Emma/extras")
     ∈ directories (built latin1_db two_authors (py "/lib"))).
Proof.
  assert (wf_os two_authors = true) as H1 by (vm_compute; reflexivity).
  assert (new_BookFS latin1_db two_authors (py "/lib") =
          Return (built latin1_db two_authors (py "/lib"))) as H2
    by (vm_compute; reflexivity).
  assert (py "/Jane Austen/Emma/extras"
            ∈ directories (built latin1_db two_authors (py "/lib"))) as H3
    by by_compute.
  repeat (split; [assumption|]).
  exact (directory_ancestors_registered latin1_db two_authors (py "/lib") _ _ 2
           H1 H2 H3).
Defined.

(** X27.  After [build_file_structure] completes, every proper
    ancestor of every key of [files] is the root or a member of
    [directories]. *)
Theorem ancestors_registered (db : UnicodeDB) (os : OS) (root : str)
    (fs : BookFS) (k : str) (n : nat) :
  wf_os os = true ->
  new_BookFS db os root = Return fs ->
  k ∈ dom (files fs) -> (0 < n)%nat ->
  ancestor n k = ROOT \/ ancestor n k ∈ directories fs.
Proof.
  intros Hos Hnew Hk Hn. apply index_inv_ancestor; [|done|done].
  by eapply new_BookFS_inv.
Qed.

Lemma ancestors_registered_witness :
  wf_os two_authors = true /\
  new_BookFS latin1_db two_authors (py "/lib") =
    Return (built latin1_db two_authors (py "/lib")) /\
  py "/Jane Austen/Emma/extras/notes.txt"
    ∈ dom (files (built latin1_db two_authors (py "/lib"))) /\
  (0 < 2)%nat /\
  (ancestor 2 (py "/Jane Austen/Emma/extras/notes.txt") = ROOT \/
   ancestor 2 (py "/Jane Austen/Emma/extras/notes.txt")
     ∈ directories (built latin1_db two_authors (py "/lib"))).
Proof.
  assert (wf_os two_authors = true) as H1 by by_compute.
  assert (new_BookFS latin1_db two_authors (py "/lib") =
          Return (built latin1_db two_authors (py "/lib"))) as H2 by by_compute.
  assert (py "/Jane Austen/Emma/extras/notes.txt"
            ∈ dom (files (built latin1_db two_authors (py "/lib")))) as H3
    by by_compute.
  assert (0 < 2)%nat as H4 by lia.
  repeat (split; [assumption|]).
  exact (ancestors_registered latin1_db two_authors (py "/lib") _ _ 2
           H1 H2 H3 H4).
Defined.

(** ** Listings of a built index *)

(** X23.  Every entry of a built index can be reached by listing: an
    entry other than the root is listed, under its last component, in
    the listing of its parent directory, and joining the parent and
    that name gives the entry back. *)
Theorem entries_are_listed (db : UnicodeDB) (os : OS) (root : str)
    (fs : BookFS) (e : str) (fh : Z) :
  wf_os os = true -> new_BookFS db os root = Return fs ->
  e ∈ dom (files fs) \/ e ∈ directories fs -> e ≠ ROOT ->
  exists es,
    result_of (readdir (dirname e) fh) (serving fs) =
      Return ([py "."; py ".."] ++ es) /\
    basename e ∈ es /\
    path_join (dirname e) [basename e] = e.
Proof.
  intros Hos Hnew He Hroot.
  assert (exists ns x, forallb valid_name ns = true /\ valid_name x = true /\
                       e = abs_of (ns ++ [x])) as (ns & x & Hns & Hx & E).
  { destruct He as [[v Hv]%elem_of_dom|Hd].
    - destruct (built_file_names db os Hos root fs e v Hnew Hv)
        as (ns & x & Hns & Hx & E & _). by exists ns, x.
    - destruct (built_directory_names db os Hos root fs e Hnew Hd)
        as (ns & Hns & E).
      destruct ns as [|n ns'] using rev_ind; [by subst|].
      rewrite forallb_app in Hns. apply andb_prop in Hns as [H1 H2].
      cbn [forallb] in H2. rewrite andb_true_r in H2. by exists ns', n. }
  assert (dirname e = abs_of ns) as Hdir.
  { rewrite E. apply dirname_abs_of; [by apply forallb_valid_plain|].
    by apply valid_name_plain. }
  assert (basename e = x) as Hbase.
  { rewrite E. apply basename_abs_of. by apply valid_name_plain. }
  assert (listed_path (abs_of ns) = abs_of ns) as Hl.
  { unfold listed_path. rewrite normpath_names by done.
    assert (str_eqb (abs_of ns) DOT = false) as ->; [|done].
    apply str_eqb_neq. unfold abs_of. vm_compute. intros [=]. }
  destruct (readdir_children (dirname e) fh (serving fs)) as (es & Hrun & _ & Hes).
  exists es. split; [unfold result_of; by rewrite Hrun|]. split.
  - apply Hes. rewrite Hdir, Hl. exists e. cbn [serving self].
    split; [tauto|]. by split.
  - rewrite Hdir, Hbase, E. by apply join2_abs_of.
Qed.

Lemma entries_are_listed_witness :
  wf_os two_authors = true /\
  new_BookFS latin1_db two_authors (py "/lib") =
    Return (built latin1_db two_authors (py "/lib")) /\
  (py "/Jane Austen/Emma"
     ∈ dom (files (built latin1_db two_authors (py "/lib"))) \/
   py "/Jane Austen/Emma"
     ∈ directories (built latin1_db two_authors (py "/lib"))) /\
  py "/Jane Austen/Emma" ≠ ROOT /\
  exists es,
    result_of (readdir (dirname (py "/Jane Austen/Emma")) 0)
      (serving (built latin1_db two_authors (py "/lib"))) =
      Return ([py "."; py ".."] ++ es) /\
    basename (py "/Jane Austen/Emma") ∈ es /\
    path_join (dirname (py "/Jane Austen/Emma"))
      [basename (py "/Jane Austen/Emma")] = py "/Jane Austen/Emma".
Proof.
  assert (wf_os two_authors = true) as H1 by (vm_compute; reflexivity).
  assert (new_BookFS latin1_db two_authors (py "/lib") =
          Return (built latin1_db two_authors (py "/lib"))) as H2
    by (vm_compute; reflexivity).
  assert (py "/Jane Austen/Emma"
            ∈ dom (files (built latin1_db two_authors (py "/lib"))) \/
          py "/Jane Austen/Emma"
            ∈ directories (built latin1_db two_authors (py "/lib"))) as H3
    by (right; by_compute).
  assert (py "/Jane Austen/Emma" ≠ ROOT) as H4 by discriminate.
  repeat (split; [assumption|]).
  exact (entries_are_listed latin1_db two_authors (py "/lib") _ _ 0
           H1 H2 H3 H4).
Defined.

(** X24.  Every name a listing of a built index returns besides [.]
    and [..] resolves: joined to the listed path it is a key of [files]
    or a stored directory. *)
Theorem listed_entries_exist (db : UnicodeDB) (os : OS) (root : str)
    (fs : BookFS) (path : str) (fh : Z) (es : list str) (x : str) :
  wf_os os = true -> new_BookFS db os root = Return fs ->
  result_of (readdir path fh) (serving fs) = Return ([py "."; py ".."] ++ es) ->
  x ∈ es ->
  path_join (listed_path path) [x] ∈ dom (files fs) \/
  path_join (listed_path path) [x] ∈ directories fs.
Proof.
  intros Hos Hnew Hrun Hx.
  destruct (listed_entry_resolves db os Hos root fs path fh es x Hnew Hrun Hx)
    as (ns & _ & -> & H).
  tauto.
Qed.

Lemma listed_entries_exist_witness :
  wf_os two_authors = true /\
  new_BookFS latin1_db two_authors (py "/lib") =
    Return (built latin1_db two_authors (py "/lib")) /\
  result_of (readdir (py "/Jane Austen") 0)
    (serving (built latin1_db two_authors (py "/lib"))) =
    Return ([py "."; py ".."] ++ [py "Emma"]) /\
  py "Emma" ∈ [py "Emma"] /\
  (path_join (listed_path (py "/Jane Austen")) [py "Emma"]
     ∈ dom (files (built latin1_db two_authors (py "/lib"))) \/
   path_join (listed_path (py "/Jane Austen")) [py "Emma"]
     ∈ directories (built latin1_db two_authors (py "/lib"))).
Proof.
  assert (wf_os two_authors = true) as H1 by (vm_compute; reflexivity).
  assert (new_BookFS latin1_db two_authors (py "/lib") =
          Return (built latin1_db two_authors (py "/lib"))) as H2
    by (vm_compute; reflexivity).
  assert (result_of (readdir (py "/Jane Austen") 0)
            (serving (built latin1_db two_authors (py "/lib"))) =
          Return ([py "."; py ".."] ++ [py "Emma"])) as H3
    by (vm_compute; reflexivity).
  assert (py "Emma" ∈ [py "Emma"]) as H4 by apply list_elem_of_here.
  repeat (split; [assumption|]).
  exact (listed_entries_exist latin1_db two_authors (py "/lib") _ _ 0 _ _
           H1 H2 H3 H4).
Defined.

(** X25.  When the root is a stored directory (as happens for an author
    written [.]), the listing of the root has an entry with the empty
    name: the root is its own parent, and its last component is
    empty. *)
Theorem readdir_root_empty_name (w : World) (fh : Z) :
  ROOT ∈ directories (self w) ->
  exists es,
    result_of (readdir ROOT fh) w = Return ([py "."; py ".."] ++ es) /\
    [] ∈ es.
Proof.
  intros H. destruct (readdir_children ROOT fh w) as (es & Hrun & _ & Hes).
  exists es. split; [unfold result_of; by rewrite Hrun|].
  apply Hes. exists ROOT. split; [by left|]. split; reflexivity.
Qed.

Lemma readdir_root_empty_name_witness :
  ROOT ∈ directories (self (serving (built latin1_db dot_author (py "/lib")))) /\
  exists es,
    result_of (readdir ROOT 0)
      (serving (built latin1_db dot_author (py "/lib"))) =
      Return ([py "."; py ".."] ++ es) /\
    [] ∈ es.
Proof.
  assert (ROOT ∈ directories
            (self (serving (built latin1_db dot_author (py "/lib"))))) as H
    by by_compute.
  split; [exact H|].
  exact (readdir_root_empty_name _ 0 H).
Defined.

(** X26.  Listing and attributes compose: in a built index, when the
    size of every real file the index maps to can be obtained,
    [getattr] returns attributes for every name a listing returns
    besides [.] and [..], joined to the listed path. *)
Theorem listed_entries_have_attributes (db : UnicodeDB) (os : OS)
    (root : str) (fs : BookFS) (path : str) (fh : Z) (fh' : option Z)
    (es : list str) (x : str) :
  wf_os os = true -> new_BookFS db os root = Return fs ->
  (forall k actual, files fs !! k = Some actual ->
     exists size, getsize os actual = Ok size) ->
  result_of (readdir path fh) (serving fs) = Return ([py "."; py ".."] ++ es) ->
  x ∈ es ->
  exists st,
    result_of (getattr os (path_join (listed_path path) [x]) fh') (serving fs)
    = Return st.
Proof.
  intros Hos Hnew Hsize Hrun Hx.
  destruct (listed_entry_resolves db os Hos root fs path fh es x Hnew Hrun Hx)
    as (ns & Hns & -> & Hq).
  set (q := abs_of ns) in *.
  assert (normpath q = q) as Hn by (by apply normpath_names).
  destruct (decide (q = ROOT)) as [Hr|Hr].
  { exists dir_stat. apply getattr_root. by rewrite Hn. }
  destruct (files fs !! q) as [actual|] eqn:Hf.
  - destruct (Hsize q actual Hf) as [size Hs].
    pose proof (getattr_file os (serving fs) q fh' actual) as H.
    rewrite Hn in H. specialize (H Hr Hf). rewrite Hs in H. by eexists.
  - exists dir_stat. apply getattr_directory; rewrite Hn; [done|done|].
    destruct Hq as [[v Hv]%elem_of_dom|Hd]; [congruence|done].
Qed.

Lemma listed_entries_have_attributes_witness :
  wf_os two_authors = true /\
  new_BookFS latin1_db two_authors (py "/lib") =
    Return (built latin1_db two_authors (py "/lib")) /\
  (forall k actual,
     files (built latin1_db two_authors (py "/lib")) !! k = Some actual ->
     exists size, getsize two_authors actual = Ok size) /\
  result_of (readdir (py "/Jane Austen") 0)
    (serving (built latin1_db two_authors (py "/lib"))) =
    Return ([py "."; py ".."] ++ [py "Emma"]) /\
  py "Emma" ∈ [py "Emma"] /\
  exists st,
    result_of (getattr two_authors
                 (path_join (listed_path (py "/Jane Austen")) [py "Emma"]) None)
      (serving (built latin1_db two_authors (py "/lib"))) = Return st.
Proof.
  assert (wf_os two_authors = true) as H1 by (vm_compute; reflexivity).
  assert (new_BookFS latin1_db two_authors (py "/lib") =
          Return (built latin1_db two_authors (py "/lib"))) as H2
    by (vm_compute; reflexivity).
  assert (forall k actual,
            files (built latin1_db two_authors (py "/lib")) !! k = Some actual ->
            exists size, getsize two_authors actual = Ok size)
    as H3 by (intros k actual _; exists 3%Z; reflexivity).
  assert (result_of (readdir (py "/Jane Austen") 0)
            (serving (built latin1_db two_authors (py "/lib"))) =
          Return ([py "."; py ".."] ++ [py "Emma"])) as H4
    by (vm_compute; reflexivity).
  assert (py "Emma" ∈ [py "Emma"]) as H5 by apply list_elem_of_here.
  repeat (split; [assumption|]).
  exact (listed_entries_have_attributes latin1_db two_authors (py "/lib") _ _
           0 None _ _ H1 H2 H3 H4 H5).
Defined.
